(** * supermemory-omi: the per-session buffering and recall state machine

    A shallow embedding of [src/index.ts].  The file follows the source top
    down: the [MessageBuffer] record and the constants, the methods of
    [MemoryManager], the [POST /webhook] handler with its two [setTimeout]
    callbacks, and finally the process that hosts the handler: every
    request builds its own [MemoryManager], timers are closures over the
    manager of the request that registered them.

    Modelling conventions.
    - Strings are sequences of 8-bit characters; [toLowerCase] folds the
      letters A-Z.  On ASCII texts this is what the JavaScript string
      methods compute; a theorem about an arbitrary text carries [isAscii]
      as a hypothesis.
    - [Date.now()] is an integer number of milliseconds.  In [ingest],
      [recallCallback], [reaperCallback], [webhook] and [fire] a request
      handler or a timer callback runs as one turn: its provider calls are
      resolved in place, nothing else runs in between, and the clock does
      not move.  [Task] and [recallFiring] cut the recall callback at its
      [await]s instead, for what depends on other code running while the
      callback is suspended.
    - The embedding, vector-store and chat providers are outside the
      repository.  Their replies are given by an oracle [Providers] that is
      indexed by the position of the call in the log of provider calls, so
      that any call may succeed or fail independently of the others.  The
      log records the four requests that carry data ([ProviderCall]); the
      handshake [getOrCreateCollection] of [initializeChroma], which only
      fetches the handle of the collection, is not recorded.
    - A JavaScript object used as a dictionary ([BufferStore]) is a finite
      map over strings that holds its own properties; a lookup that finds
      no own property falls back to [Object.prototype], whose property
      names are listed in [objectPrototype].
    - A thrown exception keeps every mutation made before it: the state
      monad returns the state next to the error. *)

From Stdlib Require Import ZArith Ascii String Bool Lia.
From Stdlib.Floats Require Import SpecFloat.
From stdpp Require Import base option list strings gmap.

Local Open Scope Z_scope.
Local Open Scope string_scope.
Local Open Scope list_scope.

(** ** Types (lines 10-57) *)

Record MessageBuffer := {
  messages : list string;
  triggerDetected : bool;
  triggerTime : Z;
  collectedQuestion : list string;
  responseSent : bool;
  partialTrigger : bool;
  partialTriggerTime : Z;
  lastActivity : Z
}.

(** [interface BufferStore { [key: string]: MessageBuffer }]: the own
    properties of the object. *)
Abbreviation BufferStore := (gmap string MessageBuffer).

(** [this.buffers] is created as [{}], so it inherits the properties of
    [Object.prototype]: the methods of the standard and the accessors of
    its Annex B.  Each of them is a function, or for [__proto__] the
    prototype itself: a truthy value that has none of the fields of a
    [MessageBuffer]. *)
Definition objectPrototype : list string :=
  ["constructor"; "hasOwnProperty"; "isPrototypeOf"; "propertyIsEnumerable";
   "toLocaleString"; "toString"; "valueOf"; "__proto__";
   "__defineGetter__"; "__defineSetter__"; "__lookupGetter__"; "__lookupSetter__"].

Definition inherited (key : string) : bool := bool_decide (key ∈ objectPrototype).

(** What [this.buffers[sessionId]] evaluates to when it is truthy: a buffer
    of the store, or an object inherited from [Object.prototype], on which
    every field of a buffer reads [undefined]. *)
Inductive Reference :=
| Buffer (b : MessageBuffer)
| Inherited.

(** Field assignments [buffer.f = v]. *)
Definition set_messages (v : list string) (b : MessageBuffer) : MessageBuffer :=
  {| messages := v; triggerDetected := triggerDetected b;
     triggerTime := triggerTime b; collectedQuestion := collectedQuestion b;
     responseSent := responseSent b; partialTrigger := partialTrigger b;
     partialTriggerTime := partialTriggerTime b;
     lastActivity := lastActivity b |}.

Definition set_triggerDetected (v : bool) (b : MessageBuffer) : MessageBuffer :=
  {| messages := messages b; triggerDetected := v;
     triggerTime := triggerTime b; collectedQuestion := collectedQuestion b;
     responseSent := responseSent b; partialTrigger := partialTrigger b;
     partialTriggerTime := partialTriggerTime b;
     lastActivity := lastActivity b |}.

Definition set_triggerTime (v : Z) (b : MessageBuffer) : MessageBuffer :=
  {| messages := messages b; triggerDetected := triggerDetected b;
     triggerTime := v; collectedQuestion := collectedQuestion b;
     responseSent := responseSent b; partialTrigger := partialTrigger b;
     partialTriggerTime := partialTriggerTime b;
     lastActivity := lastActivity b |}.

Definition set_collectedQuestion (v : list string) (b : MessageBuffer) : MessageBuffer :=
  {| messages := messages b; triggerDetected := triggerDetected b;
     triggerTime := triggerTime b; collectedQuestion := v;
     responseSent := responseSent b; partialTrigger := partialTrigger b;
     partialTriggerTime := partialTriggerTime b;
     lastActivity := lastActivity b |}.

Definition set_responseSent (v : bool) (b : MessageBuffer) : MessageBuffer :=
  {| messages := messages b; triggerDetected := triggerDetected b;
     triggerTime := triggerTime b; collectedQuestion := collectedQuestion b;
     responseSent := v; partialTrigger := partialTrigger b;
     partialTriggerTime := partialTriggerTime b;
     lastActivity := lastActivity b |}.

Definition set_lastActivity (v : Z) (b : MessageBuffer) : MessageBuffer :=
  {| messages := messages b; triggerDetected := triggerDetected b;
     triggerTime := triggerTime b; collectedQuestion := collectedQuestion b;
     responseSent := responseSent b; partialTrigger := partialTrigger b;
     partialTriggerTime := partialTriggerTime b;
     lastActivity := v |}.

(** One element of [data.segments]; only [text] is read by the handler. *)
Record Segment := { text : string }.

(** The JSON body of [POST /webhook]: [session_id] and [segments] may be
    missing. *)
Record WebhookData := {
  session_id : option string;
  segments : option (list Segment)
}.

(** What [c.json(body, status)] builds. *)
Inductive Body :=
| ErrorBody (error : string)
| StatusBody (status : string)
| MessageBody (message : string).

Record Response := { body : Body; httpStatus : Z }.

(** ** Constants (lines 59-63) *)

Definition TRIGGER_PHRASES : list string := ["forgot"; "don't remember"].

(** [0.4] as a binary64 number: [0x1.999999999999ap-2]. *)
Definition SIMILARITY_THRESHOLD : spec_float :=
  S754_finite false 7205759403792794 (-54).

Definition BUFFER_TIMEOUT : Z := 5000.

Definition QUESTION_COLLECTION_TIMEOUT : Z := 2000.

(** ** String primitives used by the handler *)

(** A text whose characters are all ASCII is its own sequence of UTF-16
    code units: [length], [toLowerCase], [includes], [join] and the regular
    expression of line 245 act on it as defined below.  On other texts
    JavaScript differs ([toLowerCase] folds other letters too and may
    change the length). *)
Definition isAscii (s : string) : bool :=
  forallb (λ c, (nat_of_ascii c <? 128)%nat) (list_ascii_of_string s).

Definition lowerChar (c : ascii) : ascii :=
  let n := nat_of_ascii c in
  if ((65 <=? n) && (n <=? 90))%nat then ascii_of_nat (n + 32) else c.

(** [s.toLowerCase()] *)
Fixpoint toLowerCase (s : string) : string :=
  match s with
  | EmptyString => EmptyString
  | String c s' => String (lowerChar c) (toLowerCase s')
  end.

Fixpoint lastChar (s : string) : option ascii :=
  match s with
  | EmptyString => None
  | String c EmptyString => Some c
  | String _ s' => lastChar s'
  end.

(** [s.match(/[.!?]$/)] is truthy: the last character of [s] is one of
    the three marks ([$] without the [m] flag is the end of the input). *)
Definition matchSentenceEnd (s : string) : bool :=
  match lastChar s with
  | Some c => bool_decide (c ∈ ["."%char; "!"%char; "?"%char])
  | None => false
  end.

(** [s.includes(phrase)] *)
Fixpoint includes (s phrase : string) : bool :=
  String.prefix phrase s ||
  match s with
  | EmptyString => false
  | String _ s' => includes s' phrase
  end.

(** [l.join(sep)] *)
Definition join (sep : string) (l : list string) : string := String.concat sep l.

(** ** The external providers *)

(** The part of a Chroma query response that the handler reads:
    [documents] and [distances] hold one row per query embedding. *)
Record QueryResponse := {
  documents : option (list (list string));
  distances : option (list (list spec_float))
}.

(** A record of the collection ['memory_store']: the id is
    [Date.now().toString()], the metadata carry the session id and the
    time; the embedding vector is opaque and left out. *)
Record StoredMemory := {
  memoryId : Z;
  document : string;
  metaSessionId : string;
  metaTimestamp : Z
}.

(** The requests that the log records: [openai.embeddings.create],
    [collection.add], [collection.query] and
    [openai.chat.completions.create]. *)
Inductive ProviderCall :=
| EmbeddingsCreate (input : string)
| CollectionAdd (doc sessionId : string)
| CollectionQuery (query sessionId : string) (nResults : nat)
| ChatCompletionsCreate (query context : string).

(** Replies of the providers.  The argument is the number of provider calls
    issued before this one.  [false] and the outer [None] stand for a
    rejected promise; the inner [None] of [collectionQuery] is the
    [undefined] that [this.collection?.query(...)] may yield. *)
Record Providers := {
  embeddingsCreate : nat → bool;
  collectionAdd : nat → bool;
  collectionQuery : nat → option (option QueryResponse);
  chatCompletionsCreate : nat → option string
}.

(** ** Effects: state, exceptions, timers *)

Inductive Error := ProviderError | TypeError.

Inductive Res (A : Type) := Ok (a : A) | Throw (e : Error).
Arguments Ok {A} a.
Arguments Throw {A} e.

(** The two closures handed to [setTimeout] by the handler.  Both capture
    [sessionId] (and, through [memoryManager] and [buffer], the manager of
    the request that registered them). *)
Inductive Callback :=
| RecallDispatch (sessionId : string)
| StaleReaper (sessionId : string).

Record Timer := { due : Z; callback : Callback }.

(** What code running on behalf of one [MemoryManager] instance reaches:
    [this.buffers], the remote collection, the log of provider calls and
    the timers it registers. *)
Record Scope := {
  buffers : BufferStore;
  collection : list StoredMemory;
  calls : list ProviderCall;
  timers : list Timer
}.

Definition M (A : Type) : Type := Scope → Res A * Scope.

#[global] Instance M_ret : MRet M := λ A a s, (Ok a, s).

#[global] Instance M_bind : MBind M := λ A B f m s,
  match m s with
  | (Ok a, s') => f a s'
  | (Throw e, s') => (Throw e, s')
  end.

Definition throw {A : Type} (e : Error) : M A := λ s, (Throw e, s).

Definition with_buffers (f : BufferStore → BufferStore) (s : Scope) : Scope :=
  {| buffers := f (buffers s); collection := collection s;
     calls := calls s; timers := timers s |}.

(** Issue a provider call: it is appended to the log and the number of
    earlier calls is returned, which selects the reply of the oracle. *)
Definition issue (c : ProviderCall) : M nat := λ s,
  (Ok (length (calls s)),
   {| buffers := buffers s; collection := collection s;
      calls := calls s ++ [c]; timers := timers s |}).

Definition addDocument (m : StoredMemory) : M unit := λ s,
  (Ok tt,
   {| buffers := buffers s; collection := collection s ++ [m];
      calls := calls s; timers := timers s |}).

(** The object that the variable [buffer] of the handler and of its
    callbacks refers to.  It is what [getBuffer] returned at line 237, and
    no entry of the store is ever removed or replaced: the buffer stored
    under [sessionId] when there is one, an inherited object otherwise. *)
Definition held (sessionId : string) : M Reference := λ s,
  match buffers s !! sessionId with
  | Some b => (Ok (Buffer b), s)
  | None => (Ok Inherited, s)
  end.

(** Read through the reference [buffer] where the code has already used it
    as a buffer (after line 241): the object stored under [sessionId]. *)
Definition deref (sessionId : string) : M MessageBuffer := λ s,
  match buffers s !! sessionId with
  | Some b => (Ok b, s)
  | None => (Throw TypeError, s)
  end.

(** Write through the reference: [buffer.f = v]. *)
Definition assign (sessionId : string) (f : MessageBuffer → MessageBuffer) : M unit :=
  λ s, (Ok tt, with_buffers (alter f sessionId) s).

Fixpoint forEach {A : Type} (f : A → M unit) (l : list A) : M unit :=
  match l with
  | [] => mret tt
  | x :: l' => f x;; forEach f l'
  end.

Section Turn.

(** The replies of the providers and the value of [Date.now()] during
    the turn. *)
Variable P : Providers.
Variable now : Z.

(** [setTimeout(cb, delay)] *)
Definition setTimeout (cb : Callback) (delay : Z) : M unit := λ s,
  (Ok tt,
   {| buffers := buffers s; collection := collection s; calls := calls s;
      timers := timers s ++ [{| due := now + delay; callback := cb |}] |}).

(** ** class MemoryManager (lines 65-195) *)

(** Lines 92-106.  The test of line 93 finds an own property, or a
    property inherited from [Object.prototype], or nothing; only in the last
    case is a buffer created. *)
Definition getBuffer (sessionId : string) : M Reference := λ s,
  match buffers s !! sessionId with
  | Some b => (Ok (Buffer b), s)
  | None =>
      if inherited sessionId then (Ok Inherited, s)
      else
        let b := {| messages := [];
                    triggerDetected := false;
                    triggerTime := 0;
                    collectedQuestion := [];
                    responseSent := false;
                    partialTrigger := false;
                    partialTriggerTime := 0;
                    lastActivity := now |} in
        (Ok (Buffer b), with_buffers (insert sessionId b) s)
  end.

(** Lines 145-151. *)
Definition getEmbedding (input : string) : M unit :=
  n ← issue (EmbeddingsCreate input);
  if embeddingsCreate P n then mret tt else throw ProviderError.

(** Lines 117-128.  The handshake of lines 119-121 is part of the store
    request: when it fails, the request fails. *)
Definition saveMemory (txt sessionId : string) : M unit :=
  getEmbedding txt;;
  n ← issue (CollectionAdd txt sessionId);
  if collectionAdd P n
  then addDocument {| memoryId := now; document := txt;
                      metaSessionId := sessionId; metaTimestamp := now |}
  else throw ProviderError.

(** Lines 108-115.  On an inherited object [buffer.messages] is
    [undefined], and reading its [length] throws. *)
Definition processBuffer (sessionId : string) : M unit :=
  buffer ← getBuffer sessionId;
  match buffer with
  | Buffer b =>
      if (0 <? length (messages b))%nat then
        let fullText := join " " (messages b) in
        saveMemory fullText sessionId;;
        assign sessionId (set_messages [])
      else mret tt
  | Inherited => throw TypeError
  end.

(** Lines 130-143.  The handshake of lines 132-134 is part of the query
    request. *)
Definition searchMemories (query sessionId : string) : M (option QueryResponse) :=
  getEmbedding query;;
  n ← issue (CollectionQuery query sessionId 5);
  match collectionQuery P n with
  | Some results => mret results
  | None => throw ProviderError
  end.

(** Lines 153-169; the result is [response.choices[0].message.content]. *)
Definition generateResponse (query context : string) : M string :=
  n ← issue (ChatCompletionsCreate query context);
  match chatCompletionsCreate P n with
  | Some content => mret content
  | None => throw ProviderError
  end.

End Turn.

(** ** POST /webhook (lines 224-298) *)

(** [searchResults?.documents?.[0]] *)
Definition firstDocuments (searchResults : option QueryResponse) : option (list string) :=
  match searchResults with
  | Some results =>
      match documents results with
      | Some rows => head rows
      | None => None
      end
  | None => None
  end.

(** [searchResults?.distances?.[0]?.[0]] *)
Definition bestDistance (searchResults : option QueryResponse) : option spec_float :=
  match searchResults with
  | Some results =>
      match distances results with
      | Some rows =>
          match head rows with
          | Some row => head row
          | None => None
          end
      | None => None
      end
  | None => None
  end.

(** [x <= y] on a possibly [undefined] left operand: [undefined] converts
    to NaN, and every comparison with NaN is false. *)
Definition lessEqual (x : option spec_float) (y : spec_float) : bool :=
  match x with
  | Some d => SFleb d y
  | None => false
  end.

(** The condition of line 263: an array, even an empty one, is truthy. *)
Definition accepted (searchResults : option QueryResponse) : bool :=
  match firstDocuments searchResults with
  | Some _ => lessEqual (bestDistance searchResults) SIMILARITY_THRESHOLD
  | None => false
  end.

Definition newline : string := String (ascii_of_nat 10) EmptyString.

Definition nothingRemembered : Response :=
  {| body := MessageBody "I don't remember anything about that. sorry!";
     httpStatus := 200 |}.

Section Handler.

Variable P : Providers.
Variable now : Z.

(** The callback of lines 257-282.  Its value is what the arrow function
    returns: a response object, or [undefined] ([None]).  On an inherited
    object both fields of the guard read [undefined], and the guard is
    false. *)
Definition recallCallback (sessionId : string) : M (option Response) :=
  buffer ← held sessionId;
  match buffer with
  | Buffer b =>
      if triggerDetected b && negb (responseSent b) then
        let fullQuestion := join " " (collectedQuestion b) in
        searchResults ← searchMemories P fullQuestion sessionId;
        if accepted searchResults then
          let docs := default [] (firstDocuments searchResults) in
          if (length docs =? 0)%nat then
            assign sessionId (set_responseSent true);;
            mret (Some nothingRemembered)
          else
            let context := join newline docs in
            response ← generateResponse P fullQuestion context;
            assign sessionId (set_responseSent true);;
            mret (Some {| body := MessageBody response; httpStatus := 200 |})
        else
          assign sessionId (set_triggerDetected false);;
          assign sessionId (set_collectedQuestion []);;
          mret None
      else mret None
  | Inherited => mret None
  end.

(** The callback of lines 290-295.  On an inherited object
    [buffer.lastActivity] is [undefined]: the difference is NaN and the
    comparison of line 292 is false. *)
Definition reaperCallback (sessionId : string) : M unit :=
  buffer ← getBuffer now sessionId;
  match buffer with
  | Buffer b =>
      if (BUFFER_TIMEOUT <=? now - lastActivity b)%Z
      then processBuffer P now sessionId
      else mret tt
  | Inherited => mret tt
  end.

(** The condition of line 245. *)
Definition flushDecision (nSegments : nat) (text : string) : bool :=
  matchSentenceEnd text || ((nSegments =? 1)%nat && (50 <? String.length text)%nat).

(** The condition of line 250. *)
Definition hasTrigger (text : string) : bool :=
  existsb (λ phrase, includes text phrase) TRIGGER_PHRASES.

(** Lines 241-242: [buffer.messages.push(text)] and the activity stamp.
    On an inherited object [buffer.messages] is [undefined] and the call of
    [push] throws; nothing of the loop body runs after that. *)
Definition appendSegment (sessionId text : string) : M unit :=
  buffer ← held sessionId;
  match buffer with
  | Buffer _ =>
      assign sessionId (λ b, set_messages (messages b ++ [text]) b);;
      assign sessionId (set_lastActivity now)
  | Inherited => throw TypeError
  end.

(** Lines 244-247: flush on a sentence end or a single long fragment. *)
Definition flushOnBoundary (nSegments : nat) (sessionId text : string) : M unit :=
  if flushDecision nSegments text
  then processBuffer P now sessionId
  else mret tt.

(** Lines 249-286: open a question window, or add to the open one.  The
    block runs after line 241 has succeeded, on a buffer of the store. *)
Definition watchTrigger (sessionId text : string) : M unit :=
  if hasTrigger text then
    buffer ← deref sessionId;
    if negb (triggerDetected buffer) then
      assign sessionId (set_triggerDetected true);;
      assign sessionId (set_triggerTime now);;
      assign sessionId (set_collectedQuestion [text]);;
      setTimeout now (RecallDispatch sessionId) QUESTION_COLLECTION_TIMEOUT
    else
      assign sessionId (λ b, set_collectedQuestion (collectedQuestion b ++ [text]) b)
  else mret tt.

(** The body of the loop, lines 239-287; [nSegments] is
    [segments.length]. *)
Definition segmentStep (nSegments : nat) (sessionId : string) (segment : Segment) : M unit :=
  let text := toLowerCase (text segment) in
  appendSegment sessionId text;;
  flushOnBoundary nSegments sessionId text;;
  watchTrigger sessionId text.

(** Lines 236-297, run on the manager built at line 234. *)
Definition ingest (sessionId : string) (segments : list Segment) : M Response :=
  getBuffer now sessionId;;
  forEach (segmentStep (length segments) sessionId) segments;;
  setTimeout now (StaleReaper sessionId) BUFFER_TIMEOUT;;
  mret {| body := StatusBody "success"; httpStatus := 200 |}.

Definition runCallback (cb : Callback) : M (option Response) :=
  match cb with
  | RecallDispatch sessionId => recallCallback sessionId
  | StaleReaper sessionId => reaperCallback sessionId;; mret None
  end.

End Handler.

(** ** Suspension at [await] *)

(** An [async] function cut at its [await]s.  Between two [await]s the
    code runs without interruption.  At the [await] of a provider call the
    function is suspended: whatever else is ready (another timer callback,
    the loop of a request) runs first, and the function is resumed later,
    in the scope that this other code has left. *)
#[warnings="-register-all"]
Inductive Task (A : Type) : Type :=
| Settled (r : Res A)
| Suspended (resume : Scope → Task A * Scope).
Arguments Settled {A} r.
Arguments Suspended {A} resume.

(** Code that runs up to its next [await], or to its end. *)
Definition Async (A : Type) : Type := Scope → Task A * Scope.

Definition result {A : Type} (a : A) : Async A := λ s, (Settled (Ok a), s).

Definition reject {A : Type} (e : Error) : Async A := λ s, (Settled (Throw e), s).

(** Synchronous code inside an [async] function. *)
Definition sync {A B : Type} (m : M B) (k : B → Async A) : Async A := λ s,
  match m s with
  | (Ok b, s') => k b s'
  | (Throw e, s') => (Settled (Throw e), s')
  end.

(** [await] of a provider call: the request is issued at once, and the
    rest of the function waits for the reply. *)
Definition awaitCall {A : Type} (call : ProviderCall) (k : nat → Async A) : Async A :=
  sync (issue call) (λ n s, (Suspended (k n), s)).

(** Resume the [i]-th of the tasks in flight on a manager. *)
Definition resumeTask {A : Type} (i : nat) (tasks : list (Task A)) (s : Scope) : list (Task A) * Scope :=
  match tasks !! i with
  | Some (Suspended resume) => let '(t, s') := resume s in (<[i := t]> tasks, s')
  | _ => (tasks, s)
  end.

(** Resume the tasks in the given order, one reply at a time. *)
Fixpoint schedule {A : Type} (order : list nat) (tasks : list (Task A)) (s : Scope) : list (Task A) * Scope :=
  match order with
  | [] => (tasks, s)
  | i :: order' => let '(tasks', s') := resumeTask i tasks s in schedule order' tasks' s'
  end.

(** A task that is resumed as soon as it is suspended: no other code runs
    in between. *)
Fixpoint atomically {A : Type} (t : Task A) (s : Scope) : Res A * Scope :=
  match t with
  | Settled r => (r, s)
  | Suspended resume => let '(t', s') := resume s in atomically t' s'
  end.

Section Firing.

Variable P : Providers.

(** [await this.getEmbedding(text)], lines 145-151. *)
Definition awaitGetEmbedding {A : Type} (input : string) (k : unit → Async A) : Async A :=
  awaitCall (EmbeddingsCreate input) (λ n,
    if embeddingsCreate P n then k tt else reject ProviderError).

(** [await memoryManager.searchMemories(query, sessionId)], lines 130-143:
    suspended at the embedding request and at the query request (of which
    the handshake of lines 132-134 is a part). *)
Definition awaitSearchMemories {A : Type} (query sessionId : string) (k : option QueryResponse → Async A) : Async A :=
  awaitGetEmbedding query (λ _,
    awaitCall (CollectionQuery query sessionId 5) (λ n,
      match collectionQuery P n with
      | Some results => k results
      | None => reject ProviderError
      end)).

(** [await memoryManager.generateResponse(query, context)], lines 153-169. *)
Definition awaitGenerateResponse {A : Type} (query context : string) (k : string → Async A) : Async A :=
  awaitCall (ChatCompletionsCreate query context) (λ n,
    match chatCompletionsCreate P n with
    | Some content => k content
    | None => reject ProviderError
    end).

(** The callback of lines 257-282 with its [await]s (lines 260 and 271).
    The guard of line 258 and [fullQuestion] are evaluated when the callback
    starts; the assignments of lines 265, 273, 279 and 280 go through
    [buffer] when the callback is resumed. *)
Definition recallFiring (sessionId : string) : Async (option Response) :=
  sync (held sessionId) (λ buffer,
    match buffer with
    | Buffer b =>
        if triggerDetected b && negb (responseSent b) then
          let fullQuestion := join " " (collectedQuestion b) in
          awaitSearchMemories fullQuestion sessionId (λ searchResults,
            if accepted searchResults then
              let docs := default [] (firstDocuments searchResults) in
              if (length docs =? 0)%nat then
                sync (assign sessionId (set_responseSent true)) (λ _,
                  result (Some nothingRemembered))
              else
                let context := join newline docs in
                awaitGenerateResponse fullQuestion context (λ response,
                  sync (assign sessionId (set_responseSent true)) (λ _,
                    result (Some {| body := MessageBody response; httpStatus := 200 |})))
            else
              sync (assign sessionId (set_triggerDetected false)) (λ _,
                sync (assign sessionId (set_collectedQuestion [])) (λ _,
                  result None)))
        else result None
    | Inherited => result None
    end).

(** The states of a firing of the callback for [sessionId]: it starts in
    some scope, and each time it is resumed it finds the scope that other
    code has left in the meantime. *)
Inductive firing (sessionId : string) : Task (option Response) → Prop :=
| firing_start (s : Scope) :
    firing sessionId (recallFiring sessionId s).1
| firing_resume (resume : Scope → Task (option Response) * Scope) (s : Scope) :
    firing sessionId (Suspended resume) → firing sessionId (resume s).1.

End Firing.

(** ** The process: managers, pending timers, the clock *)

(** A registered timer together with the [MemoryManager] instance its
    closure captured (the position of the instance in [managers]). *)
Record Pending := { owner : nat; timer : Timer }.

Record World := {
  clock : Z;
  managers : list BufferStore;
  pending : list Pending;
  chroma : list StoredMemory;
  log : list ProviderCall
}.

Definition boot : World :=
  {| clock := 0; managers := []; pending := []; chroma := []; log := [] |}.

(** Run code of manager [m] for one turn, then write its effects back. *)
Definition runIn {A : Type} (m : nat) (code : M A) (w : World) : Res A * World :=
  match managers w !! m with
  | None => (Throw TypeError, w)
  | Some bs =>
      let '(r, s) := code {| buffers := bs; collection := chroma w;
                             calls := log w; timers := [] |} in
      (r, {| clock := clock w;
             managers := <[m := buffers s]> (managers w);
             pending := pending w ++ map (λ t, {| owner := m; timer := t |}) (timers s);
             chroma := collection s;
             log := calls s |})
  end.

(** [new MemoryManager(c.env)]: a new instance whose [buffers] is [{}].
    The constructor also starts [initializeChroma] without awaiting it
    (line 83); this handshake is not in the log. *)
Definition newMemoryManager (w : World) : nat * World :=
  (length (managers w),
   {| clock := clock w; managers := managers w ++ [∅]; pending := pending w;
      chroma := chroma w; log := log w |}).

(** [!sessionId]: a missing id and the empty string are falsy. *)
Definition falsy (sessionId : option string) : bool :=
  match sessionId with
  | None => true
  | Some s => bool_decide (s = "")
  end.

(** The handler of [POST /webhook]. *)
Definition webhook (P : Providers) (data : WebhookData) (w : World) : Res Response * World :=
  if falsy (session_id data) then
    (Ok {| body := ErrorBody "No session ID provided"; httpStatus := 400 |}, w)
  else
    let sessionId := default "" (session_id data) in
    let '(memoryManager, w1) := newMemoryManager w in
    let segments := default [] (segments data) in
    runIn memoryManager (ingest P (clock w) sessionId segments) w1.

(** Time passes between turns. *)
Definition elapse (ms : Z) (w : World) : World :=
  {| clock := clock w + ms; managers := managers w; pending := pending w;
     chroma := chroma w; log := log w |}.

(** The event loop runs the [i]-th pending timer, which must be due; the
    timer is one-shot and leaves the queue. *)
Definition fire (P : Providers) (i : nat) (w : World) : option (Res (option Response) * World) :=
  match pending w !! i with
  | Some p =>
      if (due (timer p) <=? clock w)%Z then
        Some (runIn (owner p) (runCallback P (clock w) (callback (timer p)))
                {| clock := clock w; managers := managers w;
                   pending := delete i (pending w);
                   chroma := chroma w; log := log w |})
      else None
  | None => None
  end.

(** ** Sample inputs *)

(** Providers whose calls all resolve: every query returns [results], every
    chat completion returns [answer]. *)
Definition reliable (results : option QueryResponse) (answer : string) : Providers :=
  {| embeddingsCreate := λ _, true;
     collectionAdd := λ _, true;
     collectionQuery := λ _, Some results;
     chatCompletionsCreate := λ _, Some answer |}.

(** Providers whose [collection.add] rejects. *)
Definition addRejects : Providers :=
  {| embeddingsCreate := λ _, true;
     collectionAdd := λ _, false;
     collectionQuery := λ _, Some None;
     chatCompletionsCreate := λ _, None |}.

(** [0.41] and [0.1] as binary64 numbers: [0x1.a3d70a3d70a3dp-2] and
    [0x1.999999999999ap-4]. *)
Definition distance_0_41 : spec_float := S754_finite false 7385903388887613 (-54).

Definition distance_0_1 : spec_float := S754_finite false 7205759403792794 (-56).

(** [x] is a positive binary64 number and no binary64 number is nearer to
    the decimal [num / den]: the distance is at most half a unit in the
    last place of [x] (the exponents at hand are negative). *)
Definition roundingOf (num den : Z) (x : spec_float) : bool :=
  match x with
  | S754_finite false m e =>
      valid_binary 53 1024 x &&
      (2 * Z.abs (Z.pos m * den - num * 2 ^ (- e)) <=? den)%Z
  | _ => false
  end.

(** A query response with one row: the documents found and their
    distances, best match first. *)
Definition found (docs : list string) (dists : list spec_float) : option QueryResponse :=
  Some {| documents := Some [docs]; distances := Some [dists] |}.

Definition request (sessionId : string) (texts : list string) : WebhookData :=
  {| session_id := Some sessionId;
     segments := Some (map (λ t, {| text := t |}) texts) |}.

(** A buffer as [getBuffer] creates it at time [t]. *)
Definition freshBuffer (t : Z) : MessageBuffer :=
  {| messages := []; triggerDetected := false; triggerTime := 0;
     collectedQuestion := []; responseSent := false;
     partialTrigger := false; partialTriggerTime := 0; lastActivity := t |}.

(** The scope of a manager that holds the single buffer [b] for session
    ["s"], before any provider call. *)
Definition scopeOf (b : MessageBuffer) : Scope :=
  {| buffers := {[ "s" := b ]}; collection := []; calls := []; timers := [] |}.

(** A buffer whose trigger window was opened by ["i forgot"] at time 0. *)
Definition openWindow : MessageBuffer :=
  set_collectedQuestion ["i forgot"]
    (set_triggerDetected true (set_messages ["i forgot"] (freshBuffer 0))).

(** Two requests for session ["s"] on a process that has just started, the
    second one [gap] milliseconds after the first. *)
Definition twoRequests (P : Providers) (first second : list string) (gap : Z) : World :=
  let w1 := (webhook P (request "s" first) boot).2 in
  (webhook P (request "s" second) (elapse gap w1)).2.

(** A fragment of 60 characters without punctuation. *)
Definition sixty : string :=
  "we were talking about the trip to the lake house last summer".

(** The scope of a manager in which "hello." is pending for session "s". *)
Definition pendingHello : Scope := scopeOf (set_messages ["hello."] (freshBuffer 0)).

Definition drawer : list string := ["the keys are in the drawer"].

(** The recall callback run on [openWindow] when the query finds [drawer]
    at distance 0.1, and when it finds it at distance 0.41. *)
Definition answeredRun : Res (option Response) * Scope :=
  recallCallback (reliable (found drawer [distance_0_1]) "they're in the drawer")
    "s" (scopeOf openWindow).

Definition rejectedRun : Res (option Response) * Scope :=
  recallCallback (reliable (found drawer [distance_0_41]) "they're in the drawer")
    "s" (scopeOf openWindow).

(** A request brings "i forgot" for session "s" to a process that has just
    started; two seconds later the recall timer it registered fires. *)
Definition recallRun (P : Providers) : option (Res (option Response) * World) :=
  fire P 0 (elapse 2000 (webhook P (request "s" ["i forgot"]) boot).2).

(** ** Runs of the process *)

(** The states the process goes through: it starts, serves requests, lets
    time pass and runs timers that are due. *)
Inductive reachable (P : Providers) : World → Prop :=
| reachable_boot : reachable P boot
| reachable_request (data : WebhookData) (w : World) :
    reachable P w → reachable P (webhook P data w).2
| reachable_elapse (ms : Z) (w : World) :
    (0 ≤ ms)%Z → reachable P w → reachable P (elapse ms w)
| reachable_fire (i : nat) (w w' : World) (r : Res (option Response)) :
    reachable P w → fire P i w = Some (r, w') → reachable P w'.

(** Every pending reaper of a session whose id is not a name inherited
    from [Object.prototype] belongs to a manager that holds a buffer for
    its session, and that buffer was last active at least [BUFFER_TIMEOUT]
    before the reaper is due. *)
Definition reapersAreStale (w : World) : Prop :=
  ∀ (p : Pending) (sid : string),
    p ∈ pending w → callback (timer p) = StaleReaper sid →
    inherited sid = false →
    ∃ (bs : BufferStore) (b : MessageBuffer),
      managers w !! owner p = Some bs ∧ bs !! sid = Some b ∧
      (lastActivity b + BUFFER_TIMEOUT ≤ due (timer p))%Z.

(** [bs'] has a buffer wherever [bs] has one, with the same activity
    stamp. *)
Definition sameActivity (bs bs' : BufferStore) : Prop :=
  ∀ (k : string) (b : MessageBuffer),
    bs !! k = Some b →
    ∃ b', bs' !! k = Some b' ∧ lastActivity b' = lastActivity b.

(** ** POST /webhook/memory (lines 26-57, 171-194, 306-318) *)

(** The fields of [Memory] that [processMemoryObject] reads. *)
Record ActionItem := { description : string; completed : bool }.

Record AppResponse := { app_id : string; content : string }.

Record Structured := {
  title : string;
  overview : string;
  emoji : string;
  category : string;
  action_items : list ActionItem
}.

Record Memory := {
  transcript : string;
  structured : Structured;
  apps_response : list AppResponse
}.

(** The template literal of line 176. *)
Definition structuredText (memory : Memory) : string :=
  String.append "Title: "
    (String.append (title (structured memory))
       (String.append newline
          (String.append "Overview: "
             (String.append (overview (structured memory))
                (String.append newline
                   (String.append "Category: " (category (structured memory)))))))).

(** The text of lines 181-184. *)
Definition actionItemsText (memory : Memory) : string :=
  String.append "Action Items:"
    (String.append newline
       (join newline (map description (action_items (structured memory))))).

(** The text of lines 189-191. *)
Definition appResponsesText (memory : Memory) : string :=
  join newline (map content (apps_response memory)).

(** The texts that [processMemoryObject] hands to [saveMemory], in the
    order of the calls: the transcript and the summary always, the action
    items and the app responses when there are any. *)
Definition memoryTexts (memory : Memory) : list string :=
  [transcript memory; structuredText memory] ++
  (if (0 <? length (action_items (structured memory)))%nat
   then [actionItemsText memory] else []) ++
  (if (0 <? length (apps_response memory))%nat
   then [appResponsesText memory] else []).

(** Lines 171-194. *)
Definition processMemoryObject (P : Providers) (now : Z) (memory : Memory) (uid : string) : M unit :=
  saveMemory P now (transcript memory) uid;;
  saveMemory P now (structuredText memory) uid;;
  (if (0 <? length (action_items (structured memory)))%nat
   then saveMemory P now (actionItemsText memory) uid
   else mret tt);;
  (if (0 <? length (apps_response memory))%nat
   then saveMemory P now (appResponsesText memory) uid
   else mret tt).

(** The handler of [POST /webhook/memory]; [uid] is what
    [searchParams.get('uid')] returns ([None] for [null]). *)
Definition webhookMemory (P : Providers) (uid : option string) (memory : Memory) (w : World) : Res Response * World :=
  if falsy uid then
    (Ok {| body := ErrorBody "No user ID provided"; httpStatus := 400 |}, w)
  else
    let '(memoryManager, w1) := newMemoryManager w in
    runIn memoryManager
      (processMemoryObject P (clock w) memory (default "" uid);;
       mret {| body := StatusBody "success"; httpStatus := 200 |})
      w1.

(** ** Steps of the process *)

(** One step of the process: a request to either endpoint, time passing,
    or a due timer running. *)
Inductive step (P : Providers) : World → World → Prop :=
| step_webhook (data : WebhookData) (w : World) :
    step P w (webhook P data w).2
| step_memory (uid : option string) (memory : Memory) (w : World) :
    step P w (webhookMemory P uid memory w).2
| step_elapse (ms : Z) (w : World) :
    (0 ≤ ms)%Z → step P w (elapse ms w)
| step_fire (i : nat) (w w' : World) (r : Res (option Response)) :
    fire P i w = Some (r, w') → step P w w'.

(** A run: any number of steps. *)
Definition run (P : Providers) : World → World → Prop := rtc (step P).

(** [m] keeps to relation [R]: whatever it returns, the scope it leaves is
    related to the scope it started from. *)
Definition keeps {A : Type} (R : Scope → Scope → Prop) (m : M A) : Prop :=
  ∀ (s s1 : Scope) (r : Res A), m s = (r, s1) → R s s1.

(** The scope [s1] extends [s]: stored memories, logged provider calls and
    registered timers are still there, in place, possibly followed by new
    ones. *)
Definition extends (s s1 : Scope) : Prop :=
  collection s `prefix_of` collection s1 ∧
  calls s `prefix_of` calls s1 ∧
  timers s `prefix_of` timers s1.

(** Only the buffer of session [sid] may differ between [s] and [s1]. *)
Definition onlySession (sid : string) (s s1 : Scope) : Prop :=
  ∀ k : string, k ≠ sid → buffers s1 !! k = buffers s !! k.

(** The buffers of [s] are still there in [s1]; those whose response was
    sent still say so. *)
Definition staysAnswered (s s1 : Scope) : Prop :=
  ∀ (k : string) (b : MessageBuffer),
    buffers s !! k = Some b →
    ∃ b1, buffers s1 !! k = Some b1 ∧
          (responseSent b = true → responseSent b1 = true).

(** All three at once, for code that works on session [sid]. *)
Definition orderly (sid : string) (s s1 : Scope) : Prop :=
  extends s s1 ∧ onlySession sid s s1 ∧ staysAnswered s s1.

(** The session id a timer closure captured. *)
Definition callbackSession (cb : Callback) : string :=
  match cb with
  | RecallDispatch sessionId => sessionId
  | StaleReaper sessionId => sessionId
  end.

(** What a pending timer can rely on.  Its manager holds a buffer for its
    session.  For a recall timer the window of that buffer is open and
    unanswered and was opened [QUESTION_COLLECTION_TIMEOUT] before the timer
    is due; for a reaper the buffer was last active [BUFFER_TIMEOUT] or more
    before the timer is due. *)
Definition timerIsSound (w : World) (p : Pending) : Prop :=
  ∃ (bs : BufferStore) (b : MessageBuffer),
    managers w !! owner p = Some bs ∧
    bs !! callbackSession (callback (timer p)) = Some b ∧
    match callback (timer p) with
    | RecallDispatch _ =>
        triggerDetected b = true ∧ responseSent b = false ∧
        due (timer p) = (triggerTime b + QUESTION_COLLECTION_TIMEOUT)%Z
    | StaleReaper _ => (lastActivity b + BUFFER_TIMEOUT ≤ due (timer p))%Z
    end.

(** No manager holds a buffer under a name inherited from
    [Object.prototype]. *)
Definition buffersAreOwn (w : World) : Prop :=
  ∀ (m : nat) (bs : BufferStore) (k : string),
    managers w !! m = Some bs → is_Some (bs !! k) → inherited k = false.

(** The reaper of a request whose session id is a name inherited from
    [Object.prototype]: its manager holds no buffer at all. *)
Definition reaperIsOrphan (w : World) (p : Pending) : Prop :=
  ∃ sid : string,
    callback (timer p) = StaleReaper sid ∧ inherited sid = true ∧
    managers w !! owner p = Some ∅.

(** The invariant of the process: a manager holds the buffer of one session
    at most, every pending timer is sound or is an orphan reaper, and a
    manager has one pending recall timer at most. *)
Definition timersAreSound (w : World) : Prop :=
  (∀ (m : nat) (bs : BufferStore) (k1 k2 : string),
     managers w !! m = Some bs →
     is_Some (bs !! k1) → is_Some (bs !! k2) → k1 = k2) ∧
  (∀ p, p ∈ pending w → timerIsSound w p ∨ reaperIsOrphan w p) ∧
  (∀ (i j : nat) (p q : Pending) (sp sq : string),
     pending w !! i = Some p → pending w !! j = Some q →
     callback (timer p) = RecallDispatch sp →
     callback (timer q) = RecallDispatch sq →
     owner p = owner q → i = j).

(** The state of the loop of a request served at [now] for session [sid]:
    the buffer [b] is unanswered and stamped with [now], and the timers
    registered so far are none, or the one recall timer of the window that
    the loop has opened. *)
Definition loopState (now : Z) (sid : string) (b : MessageBuffer) (t : list Timer) : Prop :=
  responseSent b = false ∧ lastActivity b = now ∧
  (t = [] ∨
   (t = [{| due := now + QUESTION_COLLECTION_TIMEOUT; callback := RecallDispatch sid |}] ∧
    triggerDetected b = true ∧ triggerTime b = now)).

(** The stored memory that [saveMemory] builds. *)
Definition stored (now : Z) (sessionId txt : string) : StoredMemory :=
  {| memoryId := now; document := txt;
     metaSessionId := sessionId; metaTimestamp := now |}.

(** ** Sample runs *)

(** Providers that find [drawer] at distance 0.1 and answer. *)
Definition helpful : Providers :=
  reliable (found drawer [distance_0_1]) "they're in the drawer".

(** The process after the request "i forgot" for session "s", two seconds
    later, and after the recall timer has fired. *)
Definition asked : World := (webhook helpful (request "s" ["i forgot"]) boot).2.

Definition afterQuestion : World := elapse 2000 asked.

Definition afterAnswer : World :=
  match fire helpful 0 afterQuestion with
  | Some (_, w) => w
  | None => afterQuestion
  end.

(** A memory with one action item and no app response. *)
Definition lakeTrip : Memory :=
  {| transcript := "we talked about the trip to the lake";
     structured :=
       {| title := "Lake trip"; overview := "Planning the summer trip";
          emoji := ""; category := "personal";
          action_items := [{| description := "book the cabin"; completed := false |}] |};
     apps_response := [] |}.

(** The guard of line 258 is false for session [sid]: its buffer has the
    window closed or the response sent, or there is no buffer. *)
Definition closedFor (sid : string) (s : Scope) : Prop :=
  ∀ b, buffers s !! sid = Some b → triggerDetected b && negb (responseSent b) = false.

(** The task settles within [k] resumptions, and whenever a resumption
    settles it normally, [post] holds of the scope it leaves. *)
Fixpoint settlesWithin {A : Type} (post : Scope → Prop) (k : nat) (t : Task A) : Prop :=
  match t with
  | Settled _ => True
  | Suspended resume =>
      match k with
      | O => False
      | S k' =>
          ∀ s, (∀ r, (resume s).1 = Settled (Ok r) → post (resume s).2) ∧
               settlesWithin post k' (resume s).1
      end
  end.

(** Two firings of the recall callback on [openWindow]: the second starts
    while the first waits for its embedding, and the replies to the two
    then arrive in turn. *)
Definition overlappingFirings (P : Providers) : list (Task (option Response)) * Scope :=
  let '(first, s1) := recallFiring P "s" (scopeOf openWindow) in
  let '(second, s2) := recallFiring P "s" s1 in
  schedule [0; 1; 0; 1; 0; 1]%nat [first; second] s2.


(** ** Notation *)

(** The scope in which session [sid] is bound to the buffer [b], next to
    the entries of [m]; [c] is the collection, [l] the log of provider
    calls and [t] the timers registered so far. *)
Local Notation "⟨ sid ↦ b ; m ; c ; l ; t ⟩" :=
  ({| buffers := <[sid := b]> m; collection := c; calls := l; timers := t |})
  (at level 0, sid at level 200, b at level 200, m at level 200,
   c at level 200, l at level 200, t at level 200).

(** The buffer after lines 241-242. *)
Local Abbreviation appended now text b :=
  (set_lastActivity now (set_messages (messages b ++ [text]) b)).

(** * Properties *)

(** ** Strings *)

Lemma toLowerCase_length (s : string) :
  String.length (toLowerCase s) = String.length s.
Proof. induction s as [|c s IH]; simpl; [reflexivity | now rewrite IH]. Qed.

Lemma lastChar_toLowerCase (s : string) :
  lastChar (toLowerCase s) = lowerChar <$> lastChar s.
Proof.
  induction s as [|c s IH]; [reflexivity|].
  cbn [toLowerCase lastChar]. destruct s as [|c' s]; [reflexivity|].
  exact IH.
Qed.

(** Lower-casing neither creates nor removes a final [.], [!] or [?]. *)
Lemma matchSentenceEnd_toLowerCase (s : string) :
  matchSentenceEnd (toLowerCase s) = matchSentenceEnd s.
Proof.
  unfold matchSentenceEnd. rewrite lastChar_toLowerCase.
  destruct (lastChar s) as [c|]; [|reflexivity]. cbn [fmap option_fmap option_map].
  destruct c as [[] [] [] [] [] [] [] []]; reflexivity.
Qed.

(** ** Constants *)

(** The three distances of the file are the binary64 numbers that the
    decimals 0.4, 0.41 and 0.1 denote. *)
Lemma binary64_constants :
  roundingOf 4 10 SIMILARITY_THRESHOLD = true ∧
  roundingOf 41 100 distance_0_41 = true ∧
  roundingOf 1 10 distance_0_1 = true.
Proof. vm_compute. repeat split. Qed.

(** ** The state monad *)

Lemma bind_Ok {A B : Type} (m : M A) (f : A → M B) (s s' : Scope) (a : A) :
  m s = (Ok a, s') → (m ≫= f) s = f a s'.
Proof. intros H. unfold mbind, M_bind. now rewrite H. Qed.

Lemma bind_Throw {A B : Type} (m : M A) (f : A → M B) (s s' : Scope) (e : Error) :
  m s = (Throw e, s') → (m ≫= f) s = (Throw e, s').
Proof. intros H. unfold mbind, M_bind. now rewrite H. Qed.

Lemma getBuffer_existing (now : Z) (sessionId : string) (s : Scope) (b : MessageBuffer) :
  buffers s !! sessionId = Some b → getBuffer now sessionId s = (Ok (Buffer b), s).
Proof. intros H. unfold getBuffer. now rewrite H. Qed.

Lemma held_existing (sessionId : string) (s : Scope) (b : MessageBuffer) :
  buffers s !! sessionId = Some b → held sessionId s = (Ok (Buffer b), s).
Proof. intros H. unfold held. now rewrite H. Qed.

Lemma deref_existing (sessionId : string) (s : Scope) (b : MessageBuffer) :
  buffers s !! sessionId = Some b → deref sessionId s = (Ok b, s).
Proof. intros H. unfold deref. now rewrite H. Qed.

(** ** Flushing *)

Lemma processBuffer_empty (P : Providers) (now : Z) (sessionId : string) (s : Scope) (b : MessageBuffer) :
  buffers s !! sessionId = Some b → messages b = [] →
  processBuffer P now sessionId s = (Ok tt, s).
Proof.
  intros Hb Hm. unfold processBuffer.
  rewrite (bind_Ok _ _ _ _ _ (getBuffer_existing now _ _ _ Hb)). cbv beta iota.
  now rewrite Hm.
Qed.

(** C10.  Flushing a session whose [messages] is empty changes nothing: no
    provider call is issued, nothing is stored, no buffer of any session is
    touched; the same holds for the reaper callback run on such a session,
    which therefore stores nothing when it fires after a punctuation flush
    that left the buffer empty. *)
Theorem flush_of_empty_buffer_is_noop (P : Providers) (now : Z) (sessionId : string) (s : Scope) (b : MessageBuffer) :
  buffers s !! sessionId = Some b → messages b = [] →
  processBuffer P now sessionId s = (Ok tt, s) ∧
  reaperCallback P now sessionId s = (Ok tt, s).
Proof.
  intros Hb Hm. split.
  - now apply processBuffer_empty with b.
  - unfold reaperCallback.
    rewrite (bind_Ok _ _ _ _ _ (getBuffer_existing now _ _ _ Hb)). cbv beta iota.
    destruct (BUFFER_TIMEOUT <=? now - lastActivity b)%Z; [|reflexivity].
    now apply processBuffer_empty with b.
Qed.

(** The test of line 292 decides alone whether the reaper flushes: punctuation
    plays no part. *)
Lemma reaperCallback_stale (P : Providers) (now : Z) (sessionId : string) (s : Scope) (b : MessageBuffer) :
  buffers s !! sessionId = Some b →
  (BUFFER_TIMEOUT ≤ now - lastActivity b)%Z →
  reaperCallback P now sessionId s = processBuffer P now sessionId s.
Proof.
  intros Hb Hold. unfold reaperCallback.
  rewrite (bind_Ok _ _ _ _ _ (getBuffer_existing now _ _ _ Hb)). cbv beta iota.
  now apply Z.leb_le in Hold as ->.
Qed.

Lemma reaperCallback_recent (P : Providers) (now : Z) (sessionId : string) (s : Scope) (b : MessageBuffer) :
  buffers s !! sessionId = Some b →
  (now - lastActivity b < BUFFER_TIMEOUT)%Z →
  reaperCallback P now sessionId s = (Ok tt, s).
Proof.
  intros Hb Hnew. unfold reaperCallback.
  rewrite (bind_Ok _ _ _ _ _ (getBuffer_existing now _ _ _ Hb)). cbv beta iota.
  now apply Z.leb_gt in Hnew as ->.
Qed.

Lemma processBuffer_nonempty (P : Providers) (now : Z) (sessionId : string) (s : Scope) (b : MessageBuffer) :
  buffers s !! sessionId = Some b → messages b ≠ [] →
  processBuffer P now sessionId s =
    let fullText := join " " (messages b) in
    let n := length (calls s) in
    if embeddingsCreate P n then
      if collectionAdd P (S n) then
        (Ok tt,
         {| buffers := alter (set_messages []) sessionId (buffers s);
            collection := collection s ++
              [{| memoryId := now; document := fullText;
                  metaSessionId := sessionId; metaTimestamp := now |}];
            calls := (calls s ++ [EmbeddingsCreate fullText]) ++
                     [CollectionAdd fullText sessionId];
            timers := timers s |})
      else
        (Throw ProviderError,
         {| buffers := buffers s; collection := collection s;
            calls := (calls s ++ [EmbeddingsCreate fullText]) ++
                     [CollectionAdd fullText sessionId];
            timers := timers s |})
    else
      (Throw ProviderError,
       {| buffers := buffers s; collection := collection s;
          calls := calls s ++ [EmbeddingsCreate fullText];
          timers := timers s |}).
Proof.
  intros Hb Hm. unfold processBuffer.
  rewrite (bind_Ok _ _ _ _ _ (getBuffer_existing now _ _ _ Hb)). cbv beta iota.
  destruct (messages b) as [|m ms] eqn:E; [done|]. clear Hm.
  cbn [length Nat.ltb Nat.leb].
  unfold saveMemory, getEmbedding, issue, mbind, M_bind, mret, M_ret, throw,
    addDocument, assign, with_buffers.
  cbn [buffers collection calls timers].
  destruct (embeddingsCreate P (length (calls s))); [|reflexivity].
  cbn [buffers collection calls timers].
  rewrite length_app, Nat.add_1_r.
  destruct (collectionAdd P (S (length (calls s)))); reflexivity.
Qed.

(** C4 (amended).  A flush of a non-empty buffer calls each provider at
    most once.  When the embedding or the store call fails, the failure is
    returned to the caller, nothing is stored, and every buffer - in
    particular [messages] - is as it was: the assignment of line 113 runs
    only after [saveMemory] has returned.  When both calls succeed, the
    joined text is stored once and [messages] is then emptied. *)
Theorem failed_flush_keeps_messages (P : Providers) (now : Z) (sessionId : string) (s s1 : Scope) (b : MessageBuffer) (r : Res unit) :
  buffers s !! sessionId = Some b → messages b ≠ [] →
  processBuffer P now sessionId s = (r, s1) →
  let fullText := join " " (messages b) in
  match r with
  | Throw e =>
      e = ProviderError ∧ buffers s1 = buffers s ∧ collection s1 = collection s ∧
      (calls s1 = calls s ++ [EmbeddingsCreate fullText] ∨
       calls s1 = calls s ++ [EmbeddingsCreate fullText; CollectionAdd fullText sessionId])
  | Ok _ =>
      buffers s1 = <[sessionId := set_messages [] b]> (buffers s) ∧
      collection s1 = collection s ++
        [{| memoryId := now; document := fullText;
            metaSessionId := sessionId; metaTimestamp := now |}] ∧
      calls s1 = calls s ++ [EmbeddingsCreate fullText; CollectionAdd fullText sessionId]
  end.
Proof.
  intros Hb Hm Hrun. rewrite (processBuffer_nonempty P now _ _ _ Hb Hm) in Hrun.
  cbv zeta in Hrun |- *.
  destruct (embeddingsCreate P (length (calls s))).
  - destruct (collectionAdd P (S (length (calls s))));
      injection Hrun as <- <-; cbn [buffers collection calls].
    + split; [|split; [reflexivity|now rewrite <- app_assoc]].
      apply map_eq. intros k. destruct (decide (sessionId = k)) as [->|Hne].
      * now rewrite lookup_alter_eq, lookup_insert_eq, Hb.
      * now rewrite lookup_alter_ne, lookup_insert_ne.
    + repeat split. right. now rewrite <- app_assoc.
  - injection Hrun as <- <-. cbn [buffers collection calls]. repeat split. now left.
Qed.

(** ** One step at a time

    The lemmas below describe each block of the handler on a scope
    [⟨sid ↦ b; m; c; l; t⟩], in which [sid] is bound to a known buffer
    [b]. *)


Lemma assign_bound (sid : string) (f : MessageBuffer → MessageBuffer) (m : BufferStore) b c l t :
  assign sid f ⟨sid ↦ b; m; c; l; t⟩ = (Ok tt, ⟨sid ↦ f b; m; c; l; t⟩).
Proof. unfold assign, with_buffers. cbn [buffers collection calls timers]. now rewrite alter_insert_eq. Qed.

Lemma deref_bound (sid : string) (m : BufferStore) b c l t :
  deref sid ⟨sid ↦ b; m; c; l; t⟩ = (Ok b, ⟨sid ↦ b; m; c; l; t⟩).
Proof. apply deref_existing. apply lookup_insert_eq. Qed.

Lemma getBuffer_bound (now : Z) (sid : string) (m : BufferStore) b c l t :
  getBuffer now sid ⟨sid ↦ b; m; c; l; t⟩ = (Ok (Buffer b), ⟨sid ↦ b; m; c; l; t⟩).
Proof. apply getBuffer_existing. apply lookup_insert_eq. Qed.

Lemma held_bound (sid : string) (m : BufferStore) b c l t :
  held sid ⟨sid ↦ b; m; c; l; t⟩ = (Ok (Buffer b), ⟨sid ↦ b; m; c; l; t⟩).
Proof. apply held_existing. apply lookup_insert_eq. Qed.

Lemma getBuffer_unbound (now : Z) (sid : string) (m : BufferStore) c l t :
  m !! sid = None → inherited sid = false →
  getBuffer now sid {| buffers := m; collection := c; calls := l; timers := t |}
  = (Ok (Buffer (freshBuffer now)), ⟨sid ↦ freshBuffer now; m; c; l; t⟩).
Proof. intros H Hi. unfold getBuffer. cbn [buffers]. now rewrite H, Hi. Qed.

Lemma getBuffer_inherited (now : Z) (sid : string) (s : Scope) :
  buffers s !! sid = None → inherited sid = true →
  getBuffer now sid s = (Ok Inherited, s).
Proof. intros H Hi. unfold getBuffer. now rewrite H, Hi. Qed.

Lemma held_inherited (sid : string) (s : Scope) :
  buffers s !! sid = None → held sid s = (Ok Inherited, s).
Proof. intros H. unfold held. now rewrite H. Qed.

Lemma processBuffer_bound (P : Providers) (now : Z) (sid : string) (m : BufferStore) b c l t :
  processBuffer P now sid ⟨sid ↦ b; m; c; l; t⟩ =
    match messages b with
    | [] => (Ok tt, ⟨sid ↦ b; m; c; l; t⟩)
    | _ :: _ =>
        let fullText := join " " (messages b) in
        if embeddingsCreate P (length l) then
          if collectionAdd P (S (length l)) then
            (Ok tt,
             ⟨sid ↦ set_messages [] b; m;
              c ++ [{| memoryId := now; document := fullText;
                       metaSessionId := sid; metaTimestamp := now |}];
              l ++ [EmbeddingsCreate fullText; CollectionAdd fullText sid]; t⟩)
          else
            (Throw ProviderError,
             ⟨sid ↦ b; m; c; l ++ [EmbeddingsCreate fullText; CollectionAdd fullText sid]; t⟩)
        else
          (Throw ProviderError, ⟨sid ↦ b; m; c; l ++ [EmbeddingsCreate fullText]; t⟩)
    end.
Proof.
  destruct (messages b) as [|x xs] eqn:E.
  - eapply processBuffer_empty; [apply lookup_insert_eq | exact E].
  - rewrite (processBuffer_nonempty P now sid _ b);
      [| apply lookup_insert_eq | now rewrite E].
    cbn [buffers collection calls timers]. cbv zeta. rewrite E.
    rewrite alter_insert_eq, <- app_assoc. reflexivity.
Qed.

Lemma appendSegment_bound (now : Z) (sid text : string) (m : BufferStore) b c l t :
  appendSegment now sid text ⟨sid ↦ b; m; c; l; t⟩ =
  (Ok tt, ⟨sid ↦ set_lastActivity now (set_messages (messages b ++ [text]) b); m; c; l; t⟩).
Proof.
  unfold appendSegment.
  rewrite (bind_Ok _ _ _ _ _ (held_bound _ _ _ _ _ _)). cbv beta iota.
  rewrite (bind_Ok _ _ _ _ _ (assign_bound _ _ _ _ _ _ _)).
  apply assign_bound.
Qed.

Lemma watchTrigger_bound (now : Z) (sid text : string) (m : BufferStore) b c l t :
  watchTrigger now sid text ⟨sid ↦ b; m; c; l; t⟩ =
    if hasTrigger text then
      if triggerDetected b then
        (Ok tt, ⟨sid ↦ set_collectedQuestion (collectedQuestion b ++ [text]) b; m; c; l; t⟩)
      else
        (Ok tt,
         ⟨sid ↦ set_collectedQuestion [text] (set_triggerTime now (set_triggerDetected true b)); m;
          c; l;
          t ++ [{| due := now + QUESTION_COLLECTION_TIMEOUT; callback := RecallDispatch sid |}]⟩)
    else (Ok tt, ⟨sid ↦ b; m; c; l; t⟩).
Proof.
  unfold watchTrigger. destruct (hasTrigger text); [|reflexivity].
  rewrite (bind_Ok _ _ _ _ _ (deref_bound _ _ _ _ _ _)).
  destruct (triggerDetected b); cbn [negb].
  - now rewrite assign_bound.
  - do 3 rewrite (bind_Ok _ _ _ _ _ (assign_bound _ _ _ _ _ _ _)).
    reflexivity.
Qed.

Lemma flushOnBoundary_skip (P : Providers) (now : Z) (n : nat) (sid text : string) (s : Scope) :
  flushDecision n text = false → flushOnBoundary P now n sid text s = (Ok tt, s).
Proof. intros H. unfold flushOnBoundary. now rewrite H. Qed.

Lemma flushOnBoundary_flush (P : Providers) (now : Z) (n : nat) (sid text : string) (s : Scope) :
  flushDecision n text = true →
  flushOnBoundary P now n sid text s = processBuffer P now sid s.
Proof. intros H. unfold flushOnBoundary. now rewrite H. Qed.


Lemma segmentStep_no_flush (P : Providers) (now : Z) (n : nat) (sid : string) (seg : Segment) (m : BufferStore) b c l t :
  flushDecision n (toLowerCase (text seg)) = false →
  segmentStep P now n sid seg ⟨sid ↦ b; m; c; l; t⟩ =
  watchTrigger now sid (toLowerCase (text seg))
    ⟨sid ↦ appended now (toLowerCase (text seg)) b; m; c; l; t⟩.
Proof.
  intros H. unfold segmentStep. cbv zeta.
  rewrite (bind_Ok _ _ _ _ _ (appendSegment_bound _ _ _ _ _ _ _ _)).
  now rewrite (bind_Ok _ _ _ _ _ (flushOnBoundary_skip P now _ _ _ _ H)).
Qed.

Lemma segmentStep_flush (P : Providers) (now : Z) (n : nat) (sid : string) (seg : Segment) (m : BufferStore) b c l t :
  flushDecision n (toLowerCase (text seg)) = true →
  embeddingsCreate P (length l) = true →
  collectionAdd P (S (length l)) = true →
  let text := toLowerCase (text seg) in
  let fullText := join " " (messages b ++ [text]) in
  segmentStep P now n sid seg ⟨sid ↦ b; m; c; l; t⟩ =
  watchTrigger now sid text
    ⟨sid ↦ set_messages [] (appended now text b); m;
     c ++ [{| memoryId := now; document := fullText;
              metaSessionId := sid; metaTimestamp := now |}];
     l ++ [EmbeddingsCreate fullText; CollectionAdd fullText sid]; t⟩.
Proof.
  intros H He Ha. unfold segmentStep. cbv zeta.
  rewrite (bind_Ok _ _ _ _ _ (appendSegment_bound _ _ _ _ _ _ _ _)).
  erewrite bind_Ok; [reflexivity|].
  rewrite (flushOnBoundary_flush P now _ _ _ _ H), processBuffer_bound.
  cbn [messages set_lastActivity set_messages]. rewrite He, Ha.
  now destruct (messages b).
Qed.

Lemma segmentStep_flush_fails (P : Providers) (now : Z) (n : nat) (sid : string) (seg : Segment) (m : BufferStore) b c l t :
  flushDecision n (toLowerCase (text seg)) = true →
  embeddingsCreate P (length l) && collectionAdd P (S (length l)) = false →
  let text := toLowerCase (text seg) in
  let fullText := join " " (messages b ++ [text]) in
  segmentStep P now n sid seg ⟨sid ↦ b; m; c; l; t⟩ =
  (Throw ProviderError,
   ⟨sid ↦ appended now text b; m; c;
    l ++ EmbeddingsCreate fullText ::
         (if embeddingsCreate P (length l)
          then [CollectionAdd fullText sid] else []);
    t⟩).
Proof.
  intros H Hf. unfold segmentStep. cbv zeta.
  rewrite (bind_Ok _ _ _ _ _ (appendSegment_bound _ _ _ _ _ _ _ _)).
  set (tx := toLowerCase (text seg)) in *.
  erewrite bind_Throw; [reflexivity|].
  rewrite (flushOnBoundary_flush P now _ _ _ _ H), processBuffer_bound.
  cbn [messages set_lastActivity set_messages].
  destruct (messages b ++ [tx]) as [|x xs] eqn:E; [now destruct (messages b)|].
  cbv zeta. destruct (embeddingsCreate P (length l)); [|reflexivity].
  cbn [andb] in Hf. now rewrite Hf.
Qed.

Lemma watchTrigger_quiet (now : Z) (sid text : string) (s : Scope) :
  hasTrigger text = false → watchTrigger now sid text s = (Ok tt, s).
Proof. intros H. unfold watchTrigger. now rewrite H. Qed.

(** ** Requests *)

(** Every request that carries a session id runs its loop on a manager of
    its own, whose [buffers] starts out empty; the managers of earlier
    requests are left as they are. *)
Lemma webhook_runs_on_new_manager (P : Providers) (sid : string) (segs : option (list Segment)) (w : World) :
  sid ≠ "" →
  webhook P {| session_id := Some sid; segments := segs |} w =
    let '(r, s) := ingest P (clock w) sid (default [] segs)
                     {| buffers := ∅; collection := chroma w;
                        calls := log w; timers := [] |} in
    (r, {| clock := clock w;
           managers := managers w ++ [buffers s];
           pending := pending w ++
             map (λ t, {| owner := length (managers w); timer := t |}) (timers s);
           chroma := collection s;
           log := calls s |}).
Proof.
  intros Hne. unfold webhook, falsy. cbn [session_id segments default].
  rewrite bool_decide_eq_false_2 by exact Hne.
  unfold newMemoryManager, runIn. cbn [managers clock pending chroma log].
  rewrite list_lookup_middle by reflexivity.
  destruct (ingest _ _ _ _ _) as [r s].
  rewrite insert_app_r_alt, Nat.sub_diag by lia. reflexivity.
Qed.

Lemma ingest_start (P : Providers) (now : Z) (sid : string) (segs : list Segment) c l :
  inherited sid = false →
  ingest P now sid segs {| buffers := ∅; collection := c; calls := l; timers := [] |} =
  (forEach (segmentStep P now (length segs) sid) segs;;
   setTimeout now (StaleReaper sid) BUFFER_TIMEOUT;;
   mret {| body := StatusBody "success"; httpStatus := 200 |})
    ⟨sid ↦ freshBuffer now; ∅; c; l; []⟩.
Proof.
  intros Hi. unfold ingest.
  now rewrite (bind_Ok _ _ _ _ _ (getBuffer_unbound now sid ∅ c l [] (lookup_empty _) Hi)).
Qed.

Lemma bind_assoc {A B C : Type} (m : M A) (f : A → M B) (g : B → M C) (s : Scope) :
  ((m ≫= f) ≫= g) s = (m ≫= λ a, f a ≫= g) s.
Proof. unfold mbind, M_bind. now destruct (m s) as [[a|e] s']. Qed.

(** Run the first action of a sequence, given a tactic that proves what it
    returns. *)
Ltac step tac := rewrite ?bind_assoc; erewrite bind_Ok; [|tac]; cbv beta.


(** X19.  For every session id that is not a name inherited from
    [Object.prototype], a request with the fragments "hello", "world.",
    "next" makes one flush: the requests that the log records are the
    embedding and the store of "hello world." (the fragments appended so
    far, joined by single spaces, tagged with the session id), and the
    request leaves [messages = ["next"]] in the buffer of the session. *)
Theorem hello_world_next_flushes_once (P : Providers) (w : World) (sid : string) :
  sid ≠ "" → inherited sid = false →
  embeddingsCreate P (length (log w)) = true →
  collectionAdd P (S (length (log w))) = true →
  webhook P (request sid ["hello"; "world."; "next"]) w =
  (Ok {| body := StatusBody "success"; httpStatus := 200 |},
   {| clock := clock w;
      managers := managers w ++
        [{[ sid := set_messages ["next"] (freshBuffer (clock w)) ]}];
      pending := pending w ++
        [{| owner := length (managers w);
            timer := {| due := clock w + BUFFER_TIMEOUT;
                        callback := StaleReaper sid |} |}];
      chroma := chroma w ++
        [{| memoryId := clock w; document := "hello world.";
            metaSessionId := sid; metaTimestamp := clock w |}];
      log := log w ++
        [EmbeddingsCreate "hello world."; CollectionAdd "hello world." sid] |}).
Proof.
  intros Hne Hi He Ha. unfold request.
  rewrite (webhook_runs_on_new_manager P sid _ w Hne).
  cbn [default from_option id map]. rewrite ingest_start by exact Hi.
  cbn [forEach length].
  step ltac:(rewrite segmentStep_no_flush by reflexivity;
             apply watchTrigger_quiet; reflexivity).
  step ltac:(rewrite (segmentStep_flush P) by (reflexivity || assumption);
             apply watchTrigger_quiet; reflexivity).
  step ltac:(rewrite segmentStep_no_flush by reflexivity;
             apply watchTrigger_quiet; reflexivity).
  reflexivity.
Qed.

Lemma scope_bound (s : Scope) (sid : string) (b : MessageBuffer) :
  buffers s !! sid = Some b →
  s = ⟨sid ↦ b; buffers s; collection s; calls s; timers s⟩.
Proof. intros H. destruct s as [bs c l t]. cbn in *. now rewrite insert_id. Qed.

Lemma issue_at (call : ProviderCall) (bs : BufferStore) c l t :
  issue call {| buffers := bs; collection := c; calls := l; timers := t |} =
  (Ok (length l), {| buffers := bs; collection := c; calls := l ++ [call]; timers := t |}).
Proof. reflexivity. Qed.

Lemma mret_at {A : Type} (a : A) (s : Scope) : (mret a : M A) s = (Ok a, s).
Proof. reflexivity. Qed.

(** ** The recall callback *)

Lemma recallCallback_bound (P : Providers) (sid : string) (m : BufferStore) b c l t :
  recallCallback P sid ⟨sid ↦ b; m; c; l; t⟩ =
    if triggerDetected b && negb (responseSent b) then
      let fullQuestion := join " " (collectedQuestion b) in
      let l1 := l ++ [EmbeddingsCreate fullQuestion] in
      let l2 := l1 ++ [CollectionQuery fullQuestion sid 5] in
      if embeddingsCreate P (length l) then
        match collectionQuery P (S (length l)) with
        | Some searchResults =>
            if accepted searchResults then
              let docs := default [] (firstDocuments searchResults) in
              if (length docs =? 0)%nat then
                (Ok (Some nothingRemembered),
                 ⟨sid ↦ set_responseSent true b; m; c; l2; t⟩)
              else
                let l3 := l2 ++ [ChatCompletionsCreate fullQuestion (join newline docs)] in
                match chatCompletionsCreate P (S (S (length l))) with
                | Some content =>
                    (Ok (Some {| body := MessageBody content; httpStatus := 200 |}),
                     ⟨sid ↦ set_responseSent true b; m; c; l3; t⟩)
                | None => (Throw ProviderError, ⟨sid ↦ b; m; c; l3; t⟩)
                end
            else
              (Ok None,
               ⟨sid ↦ set_collectedQuestion [] (set_triggerDetected false b); m; c; l2; t⟩)
        | None => (Throw ProviderError, ⟨sid ↦ b; m; c; l2; t⟩)
        end
      else (Throw ProviderError, ⟨sid ↦ b; m; c; l1; t⟩)
    else (Ok None, ⟨sid ↦ b; m; c; l; t⟩).
Proof.
  unfold recallCallback.
  rewrite (bind_Ok _ _ _ _ _ (held_bound _ _ _ _ _ _)). cbv beta iota.
  destruct (triggerDetected b && negb (responseSent b)); [|reflexivity].
  cbv zeta.
  set (q := join " " (collectedQuestion b)).
  unfold searchMemories, getEmbedding.
  rewrite ?bind_assoc, (bind_Ok _ _ _ _ _ (issue_at _ _ _ _ _)).
  destruct (embeddingsCreate P (length l)); [|reflexivity].
  rewrite (bind_Ok _ _ _ _ _ (mret_at _ _)).
  rewrite ?bind_assoc, (bind_Ok _ _ _ _ _ (issue_at _ _ _ _ _)).
  rewrite length_app, Nat.add_1_r.
  destruct (collectionQuery P (S (length l))) as [results|]; [|reflexivity].
  rewrite (bind_Ok _ _ _ _ _ (mret_at _ _)).
  destruct (accepted results).
  - destruct (length (default [] (firstDocuments results)) =? 0)%nat.
    + now rewrite (bind_Ok _ _ _ _ _ (assign_bound _ _ _ _ _ _ _)).
    + unfold generateResponse.
      rewrite ?bind_assoc, (bind_Ok _ _ _ _ _ (issue_at _ _ _ _ _)).
      rewrite !length_app, !Nat.add_1_r.
      destruct (chatCompletionsCreate P (S (S (length l)))); [|reflexivity].
      rewrite (bind_Ok _ _ _ _ _ (mret_at _ _)).
      now rewrite (bind_Ok _ _ _ _ _ (assign_bound _ _ _ _ _ _ _)).
  - do 2 rewrite (bind_Ok _ _ _ _ _ (assign_bound _ _ _ _ _ _ _)).
    reflexivity.
Qed.

(** The guard of line 258: a callback that finds the window closed or the
    response already sent does nothing at all. *)
Lemma recallCallback_guard (P : Providers) (sid : string) (s : Scope) (b : MessageBuffer) :
  buffers s !! sid = Some b →
  triggerDetected b && negb (responseSent b) = false →
  recallCallback P sid s = (Ok None, s).
Proof.
  intros Hb Hg. rewrite (scope_bound s sid b Hb) at 1.
  rewrite recallCallback_bound, Hg. now rewrite <- (scope_bound s sid b Hb).
Qed.

(** On an object inherited from [Object.prototype] the guard reads
    [undefined] twice and the callback does nothing. *)
Lemma recallCallback_inherited (P : Providers) (sid : string) (s : Scope) :
  buffers s !! sid = None → recallCallback P sid s = (Ok None, s).
Proof.
  intros Hb. unfold recallCallback.
  now rewrite (bind_Ok _ _ _ _ _ (held_inherited _ _ Hb)).
Qed.

(** ** Firings that overlap *)

Lemma recallFiring_inherited (P : Providers) (sid : string) (s : Scope) :
  buffers s !! sid = None → recallFiring P sid s = (Settled (Ok None), s).
Proof.
  intros Hb. unfold recallFiring, sync. now rewrite (held_inherited _ _ Hb).
Qed.

Lemma recallFiring_closed (P : Providers) (sid : string) (s : Scope) :
  closedFor sid s → recallFiring P sid s = (Settled (Ok None), s).
Proof.
  intros Hc. destruct (buffers s !! sid) as [b|] eqn:Hb;
    [|now apply recallFiring_inherited].
  unfold recallFiring, sync. rewrite (held_existing _ _ _ Hb).
  now rewrite (Hc b Hb).
Qed.

Lemma closedFor_answered (sid : string) (m : BufferStore) b c l t :
  closedFor sid ⟨sid ↦ set_responseSent true b; m; c; l; t⟩.
Proof.
  intros b' Hb'. cbn [buffers] in Hb'. rewrite lookup_insert_eq in Hb'.
  injection Hb' as <-. cbn. apply andb_false_r.
Qed.

Lemma closedFor_alter (sid : string) (f : MessageBuffer → MessageBuffer) (s : Scope) :
  (∀ b, triggerDetected (f b) && negb (responseSent (f b)) = false) →
  closedFor sid (with_buffers (alter f sid) s).
Proof.
  intros Hf b Hb. cbn [buffers with_buffers] in Hb.
  rewrite lookup_alter_eq in Hb. destruct (buffers s !! sid) as [b0|]; [|discriminate].
  injection Hb as <-. apply Hf.
Qed.

Lemma recallFiring_settles (P : Providers) (sid : string) (s : Scope) :
  (∀ r, (recallFiring P sid s).1 = Settled (Ok r) → closedFor sid (recallFiring P sid s).2) ∧
  settlesWithin (closedFor sid) 3 (recallFiring P sid s).1.
Proof.
  destruct (buffers s !! sid) as [b|] eqn:Hb.
  2:{ rewrite recallFiring_inherited by exact Hb. cbn. split; [|exact I].
      intros r _ b Hb'. congruence. }
  destruct (triggerDetected b && negb (responseSent b)) eqn:Hg.
  2:{ rewrite recallFiring_closed by (intros b' Hb'; congruence). cbn.
      split; [|exact I]. intros r _ b' Hb'. congruence. }
  unfold recallFiring, awaitSearchMemories, awaitGetEmbedding, awaitGenerateResponse,
    awaitCall, sync, held, issue, assign, result, reject.
  rewrite Hb, Hg. cbv zeta. cbn [fst snd settlesWithin calls].
  split; [discriminate|]. intros s1.
  destruct (embeddingsCreate P (length (calls s))); [|cbn; split; [discriminate|exact I]].
  cbn [fst snd settlesWithin calls]. split; [discriminate|]. intros s2.
  destruct (collectionQuery P (length (calls s1))) as [results|];
    [|cbn; split; [discriminate|exact I]].
  destruct (accepted results).
  - destruct (length (default [] (firstDocuments results)) =? 0)%nat.
    + cbn [fst snd settlesWithin]. split; [|exact I].
      intros r _. apply closedFor_alter. intros b0. cbn. apply andb_false_r.
    + cbn [fst snd settlesWithin calls]. split; [discriminate|]. intros s3.
      destruct (chatCompletionsCreate P (length (calls s2)));
        [|cbn; split; [discriminate|exact I]].
      cbn [fst snd settlesWithin]. split; [|exact I].
      intros r _. apply closedFor_alter. intros b0. cbn. apply andb_false_r.
  - cbn [fst snd settlesWithin]. split; [|exact I].
    intros r _ b0 Hb0. cbn [buffers with_buffers] in Hb0.
    rewrite !lookup_alter_eq in Hb0.
    destruct (buffers s2 !! sid) as [b1|]; [|discriminate].
    injection Hb0 as <-. reflexivity.
Qed.

Lemma settlesWithin_resume {A : Type} (post : Scope → Prop) (k : nat) (resume : Scope → Task A * Scope) (s : Scope) :
  settlesWithin post k (Suspended resume) →
  (∀ r, (resume s).1 = Settled (Ok r) → post (resume s).2) ∧
  ∃ k', settlesWithin post k' (resume s).1.
Proof.
  destruct k as [|k]; [intros []|]. cbn [settlesWithin]. intros H.
  destruct (H s) as [H1 H2]. eauto.
Qed.

Lemma firing_settles (P : Providers) (sid : string) (t : Task (option Response)) :
  firing P sid t → ∃ k, settlesWithin (closedFor sid) k t.
Proof.
  induction 1 as [s|resume s _ [k IH]].
  - exists 3%nat. apply recallFiring_settles.
  - now apply settlesWithin_resume with (s := s) in IH as [_ IH].
Qed.

(** Resumed without delay, a firing is the callback of the atomic turn. *)
Lemma recallFiring_atomically (P : Providers) (sid : string) (s : Scope) :
  atomically (recallFiring P sid s).1 (recallFiring P sid s).2 = recallCallback P sid s.
Proof.
  destruct (buffers s !! sid) as [b|] eqn:Hb.
  2:{ now rewrite recallFiring_inherited, recallCallback_inherited. }
  unfold recallFiring, awaitSearchMemories, awaitGetEmbedding, awaitGenerateResponse,
    awaitCall, sync, result, reject.
  unfold recallCallback, searchMemories, getEmbedding, generateResponse,
    mbind, M_bind, mret, M_ret, throw, held, issue, assign.
  rewrite Hb. destruct (triggerDetected b && negb (responseSent b)); [|reflexivity].
  cbv zeta. cbn [fst snd atomically calls].
  destruct (embeddingsCreate P (length (calls s))); [|reflexivity].
  cbn [fst snd atomically calls].
  destruct (collectionQuery P _) as [results|]; [|reflexivity].
  destruct (accepted results); [|reflexivity].
  destruct (length (default [] (firstDocuments results)) =? 0)%nat; [reflexivity|].
  cbn [fst snd atomically calls].
  destruct (chatCompletionsCreate P _); reflexivity.
Qed.

(** C5 (amended).  The callback acts only when [triggerDetected] is true
    and [responseSent] is false at the moment it starts: otherwise it
    settles at once, returns nothing and changes nothing.  When the guard
    holds the callback issues its first request and is suspended without
    having written to any buffer, so the guard still holds for a firing
    that starts in the meantime.  A firing that settles normally, whatever
    ran while it was suspended, leaves the guard false: every firing that
    starts after it is a no-op. *)
Theorem settled_firing_blocks_the_next (P : Providers) (sid : string) :
  (∀ s, closedFor sid s → recallFiring P sid s = (Settled (Ok None), s)) ∧
  (∀ s b, buffers s !! sid = Some b →
          triggerDetected b = true → responseSent b = false →
          ∃ resume,
            recallFiring P sid s =
            (Suspended resume,
             {| buffers := buffers s; collection := collection s;
                calls := calls s ++ [EmbeddingsCreate (join " " (collectedQuestion b))];
                timers := timers s |})) ∧
  (∀ s r s1, recallFiring P sid s = (Settled (Ok r), s1) → closedFor sid s1) ∧
  (∀ resume s r s1,
     firing P sid (Suspended resume) →
     resume s = (Settled (Ok r), s1) → closedFor sid s1).
Proof.
  split; [|split; [|split]].
  - apply recallFiring_closed.
  - intros s b Hb Htd Hrs.
    unfold recallFiring, awaitSearchMemories, awaitGetEmbedding, awaitCall, sync, held, issue.
    rewrite Hb, Htd, Hrs. cbn [andb negb]. cbv zeta. eauto.
  - intros s r s1 E. destruct (recallFiring_settles P sid s) as [H _].
    rewrite E in H. exact (H r eq_refl).
  - intros resume s r s1 Hf E. apply firing_settles in Hf as [k Hk].
    apply settlesWithin_resume with (s := s) in Hk as [H _].
    rewrite E in H. exact (H r eq_refl).
Qed.

(** C2 (amended).  A firing that found the window open and runs to its
    end leaves the buffer in one of two states.  When it returns a response
    (the answer generated from the documents, or the "nothing remembered"
    message) [responseSent] has become true and the window is as it was:
    [triggerDetected] is still true and [collectedQuestion] is unchanged.
    When the best match is rejected it returns nothing, the window is reset
    ([triggerDetected = false], [collectedQuestion = []]) and [responseSent]
    is still false. *)
Theorem recall_completion_state (P : Providers) (sid : string) (s s1 : Scope) (b : MessageBuffer) (r : option Response) :
  buffers s !! sid = Some b →
  triggerDetected b = true → responseSent b = false →
  recallCallback P sid s = (Ok r, s1) →
  buffers s1 = <[sid :=
    match r with
    | Some _ => set_responseSent true b
    | None => set_collectedQuestion [] (set_triggerDetected false b)
    end]> (buffers s).
Proof.
  intros Hb Htd Hrs Hrun.
  rewrite (scope_bound s sid b Hb), recallCallback_bound, Htd, Hrs in Hrun.
  cbn [andb negb] in Hrun. cbv zeta in Hrun.
  destruct (embeddingsCreate P _); [|discriminate].
  destruct (collectionQuery P _) as [results|]; [|discriminate].
  destruct (accepted results).
  - destruct (length (default [] (firstDocuments results)) =? 0)%nat.
    + now injection Hrun as <- <-.
    + destruct (chatCompletionsCreate P _); [|discriminate].
      now injection Hrun as <- <-.
  - now injection Hrun as <- <-.
Qed.

Lemma accepted_best (results : option QueryResponse) (docs : list string) (d : spec_float) :
  firstDocuments results = Some docs → bestDistance results = Some d →
  accepted results = SFleb d SIMILARITY_THRESHOLD.
Proof. intros Hd Hb. unfold accepted. now rewrite Hd, Hb. Qed.

(** C3 (amended).  When the query returns a first row of documents with
    a best distance [d], the match is accepted exactly when
    [d <= 0.4]: 0.4 itself is accepted, 0.41 is not.  A rejected match
    produces no message: the callback returns nothing and only closes the
    window, also when the document list is not empty.  An accepted match
    with documents is answered by the chat completion over all the
    documents of the row, joined by newlines. *)
Theorem best_match_threshold (P : Providers) (sid : string) (s : Scope) (b : MessageBuffer) (results : option QueryResponse) (docs : list string) (d : spec_float) :
  buffers s !! sid = Some b →
  triggerDetected b = true → responseSent b = false →
  embeddingsCreate P (length (calls s)) = true →
  collectionQuery P (S (length (calls s))) = Some results →
  firstDocuments results = Some docs → bestDistance results = Some d →
  let fullQuestion := join " " (collectedQuestion b) in
  let l2 := calls s ++ [EmbeddingsCreate fullQuestion; CollectionQuery fullQuestion sid 5] in
  accepted results = SFleb d SIMILARITY_THRESHOLD ∧
  SFleb SIMILARITY_THRESHOLD SIMILARITY_THRESHOLD = true ∧
  SFleb distance_0_41 SIMILARITY_THRESHOLD = false ∧
  (SFleb d SIMILARITY_THRESHOLD = false →
   recallCallback P sid s =
   (Ok None,
    {| buffers := <[sid := set_collectedQuestion [] (set_triggerDetected false b)]> (buffers s);
       collection := collection s; calls := l2; timers := timers s |})) ∧
  (SFleb d SIMILARITY_THRESHOLD = true → docs ≠ [] →
   ∀ content, chatCompletionsCreate P (S (S (length (calls s)))) = Some content →
   recallCallback P sid s =
   (Ok (Some {| body := MessageBody content; httpStatus := 200 |}),
    {| buffers := <[sid := set_responseSent true b]> (buffers s);
       collection := collection s;
       calls := l2 ++ [ChatCompletionsCreate fullQuestion (join newline docs)];
       timers := timers s |})).
Proof.
  intros Hb Htd Hrs He Hq Hdocs Hd. cbv zeta.
  pose proof (accepted_best results docs d Hdocs Hd) as Hacc.
  split; [exact Hacc|]. split; [reflexivity|]. split; [reflexivity|].
  assert (Hrun := recallCallback_bound P sid (buffers s) b (collection s) (calls s) (timers s)).
  rewrite <- (scope_bound s sid b Hb), Htd, Hrs, He, Hq, Hacc, Hdocs in Hrun.
  cbn [andb negb default from_option id] in Hrun. cbv zeta in Hrun.
  rewrite <- !app_assoc in Hrun. cbn [app] in Hrun.
  split.
  - intros Hrej. now rewrite Hrej in Hrun.
  - intros Hok Hne content Hc. rewrite Hok, Hc in Hrun.
    destruct docs as [|x xs]; [done|].
    rewrite <- app_assoc. exact Hrun.
Qed.

(** ** The single long fragment *)



(** The trigger block touches neither [messages] nor the providers. *)
Lemma watchTrigger_frame (now : Z) (sid text : string) (m : BufferStore) b c l t :
  ∃ b' t', watchTrigger now sid text ⟨sid ↦ b; m; c; l; t⟩ =
           (Ok tt, ⟨sid ↦ b'; m; c; l; t'⟩) ∧
           messages b' = messages b.
Proof.
  rewrite watchTrigger_bound.
  destruct (hasTrigger text); [destruct (triggerDetected b)|]; eauto.
Qed.


(** The 60-character fragment sent alone is flushed by its request; sent
    with a second fragment it is not. *)
Lemma sixty_alone_is_flushed :
  log (webhook (reliable None "") (request "s" [sixty]) boot).2 =
  [EmbeddingsCreate sixty; CollectionAdd sixty "s"].
Proof. vm_compute. reflexivity. Qed.

Lemma sixty_in_company_is_kept :
  let w := (webhook (reliable None "") (request "s" [sixty; "and then"]) boot).2 in
  log w = [] ∧ chroma w = [] ∧
  managers w = [{[ "s" := set_messages [sixty; "and then"] (freshBuffer 0) ]}].
Proof. vm_compute. repeat split. Qed.

(** ** Several requests for one session *)

(** C1.  Two requests for session "s", one second apart: "hello", then
    "world".  The second request does not find the buffer of the first: it
    runs on a manager of its own, so the process ends up with two buffers
    for the session, one holding "hello" and one holding "world" alone. *)
Theorem later_request_gets_a_new_buffer :
  managers (twoRequests (reliable None "") ["hello"] ["world"] 1000) =
  [ {[ "s" := set_messages ["hello"] (freshBuffer 0) ]};
    {[ "s" := set_messages ["world"] (freshBuffer 1000) ]} ].
Proof. vm_compute. reflexivity. Qed.

(** C8.  Two requests for session "s", one second apart, each with a
    fragment that contains a trigger phrase.  When the second arrives the
    window opened by the first is still open and its timer is pending; the
    second request nevertheless opens a window of its own and registers a
    second recall timer. *)
Theorem second_request_opens_second_window :
  let w := twoRequests (reliable None "") ["i forgot"] ["i forgot the name"] 1000 in
  clock w = 1000 ∧
  managers w =
  [ {[ "s" := openWindow ]};
    {[ "s" := set_collectedQuestion ["i forgot the name"]
                (set_triggerTime 1000
                   (set_triggerDetected true
                      (set_messages ["i forgot the name"] (freshBuffer 1000)))) ]} ] ∧
  pending w =
  [ {| owner := 0; timer := {| due := 2000; callback := RecallDispatch "s" |} |};
    {| owner := 0; timer := {| due := 5000; callback := StaleReaper "s" |} |};
    {| owner := 1; timer := {| due := 3000; callback := RecallDispatch "s" |} |};
    {| owner := 1; timer := {| due := 6000; callback := StaleReaper "s" |} |} ].
Proof. vm_compute. repeat split. Qed.

(** Inside one request the second trigger fragment joins the open window:
    one window, one recall timer. *)
Lemma same_request_second_trigger_appends :
  let w := (webhook (reliable None "") (request "s" ["i forgot"; "i forgot the name"]) boot).2 in
  managers w =
  [ {[ "s" := set_collectedQuestion ["i forgot"; "i forgot the name"]
                (set_triggerDetected true
                   (set_messages ["i forgot"; "i forgot the name"] (freshBuffer 0))) ]} ] ∧
  pending w =
  [ {| owner := 0; timer := {| due := 2000; callback := RecallDispatch "s" |} |};
    {| owner := 0; timer := {| due := 5000; callback := StaleReaper "s" |} |} ].
Proof. vm_compute. split; reflexivity. Qed.

(** C9.  A request brings "hello" for session "s" at time 0 and a second
    request brings "again" for the same session at time 3000.  At time 5000
    the reaper registered by the first request fires: it reads the buffer
    of the first request, whose [lastActivity] is still 0, and stores
    "hello". *)
Theorem earlier_reaper_still_flushes :
  fire (reliable None "") 0
    (elapse 2000 (twoRequests (reliable None "") ["hello"] ["again"] 3000)) =
  Some (Ok None,
        {| clock := 5000;
           managers :=
             [ {[ "s" := freshBuffer 0 ]};
               {[ "s" := set_messages ["again"] (freshBuffer 3000) ]} ];
           pending :=
             [ {| owner := 1;
                  timer := {| due := 8000; callback := StaleReaper "s" |} |} ];
           chroma :=
             [ {| memoryId := 5000; document := "hello";
                  metaSessionId := "s"; metaTimestamp := 5000 |} ];
           log := [EmbeddingsCreate "hello"; CollectionAdd "hello" "s"] |}).
Proof. vm_compute. reflexivity. Qed.

(** A reaper that fires after a punctuation flush stores nothing more. *)
Lemma reaper_after_punctuation_flush :
  let w := (webhook (reliable None "") (request "s" ["hello."]) boot).2 in
  chroma <$> (snd <$> fire (reliable None "") 0 (elapse 5000 w)) = Some (chroma w) ∧
  log <$> (snd <$> fire (reliable None "") 0 (elapse 5000 w)) = Some (log w).
Proof. vm_compute. split; reflexivity. Qed.

(** ** An invariant of the process: a due reaper always finds a stale buffer *)

Lemma sameActivity_refl (bs : BufferStore) : sameActivity bs bs.
Proof. intros k b H. eauto. Qed.

Lemma sameActivity_insert (bs : BufferStore) (sid : string) (b b' : MessageBuffer) :
  bs !! sid = Some b → lastActivity b' = lastActivity b →
  sameActivity bs (<[sid := b']> bs).
Proof.
  intros Hb Hl k x Hk. destruct (decide (sid = k)) as [->|Hne].
  - rewrite lookup_insert_eq. exists b'. split; [done|]. congruence.
  - rewrite lookup_insert_ne by done. eauto.
Qed.

Lemma sameActivity_fresh (bs : BufferStore) (sid : string) (b' : MessageBuffer) :
  bs !! sid = None → sameActivity bs (<[sid := b']> bs).
Proof.
  intros Hb k x Hk. rewrite lookup_insert_ne by congruence. eauto.
Qed.

Lemma recallCallback_frame (P : Providers) (sid : string) (s s' : Scope) (r : Res (option Response)) :
  recallCallback P sid s = (r, s') →
  timers s' = timers s ∧ sameActivity (buffers s) (buffers s').
Proof.
  intros Hrun. destruct (buffers s !! sid) as [b|] eqn:Hb.
  - rewrite (scope_bound s sid b Hb), recallCallback_bound in Hrun.
    cbv zeta in Hrun.
    repeat match type of Hrun with
           | context [if ?c then _ else _] => destruct c
           | context [match ?c with Some _ => _ | None => _ end] => destruct c
           end;
      injection Hrun as <- <-; cbn [timers buffers]; (split; [reflexivity|]);
      now apply sameActivity_insert with b.
  - rewrite recallCallback_inherited in Hrun by exact Hb.
    injection Hrun as <- <-. split; [reflexivity | apply sameActivity_refl].
Qed.

Lemma processBuffer_frame (P : Providers) (now : Z) (sid : string) (s s' : Scope) (b : MessageBuffer) (r : Res unit) :
  buffers s !! sid = Some b →
  processBuffer P now sid s = (r, s') →
  timers s' = timers s ∧ sameActivity (buffers s) (buffers s').
Proof.
  intros Hb Hrun.
  rewrite (scope_bound s sid b Hb), processBuffer_bound in Hrun.
  cbv zeta in Hrun.
  destruct (messages b);
    repeat match type of Hrun with
           | context [if ?c then _ else _] => destruct c
           end;
    injection Hrun as <- <-; cbn [timers buffers]; (split; [reflexivity|]);
    now apply sameActivity_insert with b.
Qed.

Lemma reaperCallback_frame (P : Providers) (now : Z) (sid : string) (s s' : Scope) (r : Res unit) :
  reaperCallback P now sid s = (r, s') →
  timers s' = timers s ∧ sameActivity (buffers s) (buffers s').
Proof.
  intros Hrun. unfold reaperCallback in Hrun.
  destruct (buffers s !! sid) as [b|] eqn:Hb.
  - rewrite (bind_Ok _ _ _ _ _ (getBuffer_existing now _ _ _ Hb)) in Hrun.
    cbv beta iota in Hrun.
    destruct (BUFFER_TIMEOUT <=? now - lastActivity b)%Z.
    + now apply processBuffer_frame with P now sid b r.
    + injection Hrun as <- <-. split; [reflexivity | apply sameActivity_refl].
  - destruct (inherited sid) eqn:Hi.
    + rewrite (bind_Ok _ _ _ _ _ (getBuffer_inherited now _ _ Hb Hi)) in Hrun.
      injection Hrun as <- <-. split; [reflexivity | apply sameActivity_refl].
    + destruct s as [bs c l t]. cbn [buffers] in Hb.
      rewrite (bind_Ok _ _ _ _ _ (getBuffer_unbound now sid bs c l t Hb Hi)) in Hrun.
      cbv beta iota in Hrun. cbn [lastActivity freshBuffer] in Hrun.
      replace (BUFFER_TIMEOUT <=? now - now)%Z with false in Hrun
        by (symmetry; apply Z.leb_gt; unfold BUFFER_TIMEOUT; lia).
      injection Hrun as <- <-. cbn [timers buffers].
      split; [reflexivity | now apply sameActivity_fresh].
Qed.

Lemma runCallback_frame (P : Providers) (now : Z) (cb : Callback) (s s' : Scope) (r : Res (option Response)) :
  runCallback P now cb s = (r, s') →
  timers s' = timers s ∧ sameActivity (buffers s) (buffers s').
Proof.
  destruct cb as [sid|sid]; cbn [runCallback].
  - apply recallCallback_frame.
  - intros Hrun. unfold mbind, M_bind in Hrun.
    destruct (reaperCallback P now sid s) as [[u|e] s0] eqn:E;
      injection Hrun as <- <-; now apply reaperCallback_frame in E.
Qed.

(** One step of the loop keeps the buffer bound, stamps it with [now] and
    registers recall timers only. *)
Lemma segmentStep_shape (P : Providers) (now : Z) (n : nat) (sid : string) (seg : Segment) (m : BufferStore) b c l t :
  ∃ r b' c' l' t',
    segmentStep P now n sid seg ⟨sid ↦ b; m; c; l; t⟩ = (r, ⟨sid ↦ b'; m; c'; l'; t'⟩) ∧
    lastActivity b' = now ∧
    ∀ x, x ∈ t' → x ∈ t ∨ callback x = RecallDispatch sid.
Proof.
  assert (Hw : ∀ b0 c0 l0, lastActivity b0 = now →
    ∃ b' t', watchTrigger now sid (toLowerCase (text seg)) ⟨sid ↦ b0; m; c0; l0; t⟩ =
             (Ok tt, ⟨sid ↦ b'; m; c0; l0; t'⟩) ∧
             lastActivity b' = now ∧
             ∀ x, x ∈ t' → x ∈ t ∨ callback x = RecallDispatch sid).
  { intros b0 c0 l0 H0. rewrite watchTrigger_bound.
    destruct (hasTrigger _); [destruct (triggerDetected b0)|];
      do 2 eexists; (split; [reflexivity|]); (split; [exact H0|]); auto.
    intros x [Hx|Hx]%elem_of_app; [auto|].
    apply list_elem_of_singleton in Hx. subst x. auto. }
  destruct (flushDecision n (toLowerCase (text seg))) eqn:Hf.
  - destruct (embeddingsCreate P (length l) && collectionAdd P (S (length l))) eqn:Hok.
    + apply andb_prop in Hok as [He Ha].
      rewrite (segmentStep_flush P now n sid seg m b c l t Hf He Ha).
      edestruct Hw as (b' & t' & -> & Hb' & Ht'); [|eauto 10]. reflexivity.
    + rewrite (segmentStep_flush_fails P now n sid seg m b c l t Hf Hok).
      do 5 eexists. split; [reflexivity|]. split; [reflexivity|]. auto.
  - rewrite (segmentStep_no_flush P now n sid seg m b c l t Hf).
    edestruct Hw as (b' & t' & -> & Hb' & Ht'); [|eauto 10]. reflexivity.
Qed.

Lemma forEach_shape (P : Providers) (now : Z) (n : nat) (sid : string) (segs : list Segment) (m : BufferStore) b c l t :
  lastActivity b = now →
  ∃ r b' c' l' t',
    forEach (segmentStep P now n sid) segs ⟨sid ↦ b; m; c; l; t⟩ =
      (r, ⟨sid ↦ b'; m; c'; l'; t'⟩) ∧
    lastActivity b' = now ∧
    ∀ x, x ∈ t' → x ∈ t ∨ callback x = RecallDispatch sid.
Proof.
  revert b c l t. induction segs as [|seg segs IH]; intros b c l t Hb.
  - exists (Ok tt), b, c, l, t. auto.
  - cbn [forEach].
    destruct (segmentStep_shape P now n sid seg m b c l t)
      as ([u|e] & b1 & c1 & l1 & t1 & Hstep & Hb1 & Ht1).
    + rewrite (bind_Ok _ _ _ _ _ Hstep).
      destruct (IH b1 c1 l1 t1 Hb1) as (r & b2 & c2 & l2 & t2 & -> & Hb2 & Ht2).
      exists r, b2, c2, l2, t2. split; [reflexivity|]. split; [exact Hb2|].
      intros x Hx. destruct (Ht2 x Hx); auto.
    + rewrite (bind_Throw _ _ _ _ _ Hstep). eauto 10.
Qed.

(** A request whose session id is a name inherited from
    [Object.prototype] gets no buffer.  Without fragments it only registers
    its reaper; with fragments the first [push] throws. *)
Lemma ingest_inherited (P : Providers) (now : Z) (sid : string) (segs : list Segment) c l :
  inherited sid = true →
  ingest P now sid segs {| buffers := ∅; collection := c; calls := l; timers := [] |} =
  match segs with
  | [] =>
      (Ok {| body := StatusBody "success"; httpStatus := 200 |},
       {| buffers := ∅; collection := c; calls := l;
          timers := [{| due := now + BUFFER_TIMEOUT; callback := StaleReaper sid |}] |})
  | _ :: _ =>
      (Throw TypeError, {| buffers := ∅; collection := c; calls := l; timers := [] |})
  end.
Proof.
  intros Hi. unfold ingest.
  rewrite (bind_Ok _ _ _ _ _ (getBuffer_inherited now sid _ (lookup_empty _) Hi)).
  destruct segs as [|seg segs]; [reflexivity|].
  cbn [forEach]. rewrite bind_assoc.
  erewrite bind_Throw; [reflexivity|].
  unfold segmentStep. cbv zeta.
  erewrite bind_Throw; [reflexivity|].
  unfold appendSegment.
  now rewrite (bind_Ok _ _ _ _ _ (held_inherited sid _ (lookup_empty _))).
Qed.

(** With fragments, such a request fails at line 241 before anything is
    flushed: it leaves a manager without buffers and registers no timer. *)
Lemma webhook_on_inherited_session (P : Providers) (sid : string) (seg : Segment) (segs : list Segment) (w : World) :
  inherited sid = true →
  webhook P {| session_id := Some sid; segments := Some (seg :: segs) |} w =
  (Throw TypeError,
   {| clock := clock w; managers := managers w ++ [∅]; pending := pending w;
      chroma := chroma w; log := log w |}).
Proof.
  intros Hi.
  assert (Hne : sid ≠ "") by (intros ->; discriminate).
  rewrite (webhook_runs_on_new_manager P sid _ w Hne). cbn [default from_option id].
  rewrite (ingest_inherited P (clock w) sid _ _ _ Hi). cbn [map]. now rewrite app_nil_r.
Qed.

(** C6.  The session id "constructor" is a name that [this.buffers]
    inherits from [Object.prototype].  For the fragments "hello", "world.",
    "next" of such a session the test of line 93 finds the inherited
    function, no buffer is created, and the first [push] throws: the
    request fails, nothing is flushed or stored, and no buffer holds
    "next". *)
Theorem inherited_session_gets_no_flush :
  let out := webhook (reliable None "")
               (request "constructor" ["hello"; "world."; "next"]) boot in
  inherited "constructor" = true ∧
  out.1 = Throw TypeError ∧
  managers out.2 = [∅] ∧ pending out.2 = [] ∧ chroma out.2 = [].
Proof.
  cbv zeta. unfold request. cbn [map].
  rewrite (webhook_on_inherited_session (reliable None "") "constructor"
             {| text := "hello" |} [{| text := "world." |}; {| text := "next" |}]
             boot eq_refl).
  repeat split.
Qed.

(** What a request leaves behind: one buffer, stamped with the time of the
    request, and no reaper other than its own. *)
Lemma ingest_shape (P : Providers) (now : Z) (sid : string) (segs : list Segment) c l :
  inherited sid = false →
  ∃ r b c' l' t',
    ingest P now sid segs {| buffers := ∅; collection := c; calls := l; timers := [] |} =
      (r, ⟨sid ↦ b; ∅; c'; l'; t'⟩) ∧
    lastActivity b = now ∧
    ∀ x sid', x ∈ t' → callback x = StaleReaper sid' →
              sid' = sid ∧ due x = now + BUFFER_TIMEOUT.
Proof.
  intros Hi. rewrite ingest_start by exact Hi.
  destruct (forEach_shape P now (length segs) sid segs ∅ (freshBuffer now) c l [])
    as ([u|e] & b & c' & l' & t' & Hloop & Hb & Ht); [reflexivity| |].
  - rewrite (bind_Ok _ _ _ _ _ Hloop).
    exists (Ok {| body := StatusBody "success"; httpStatus := 200 |}), b, c', l',
      (t' ++ [{| due := now + BUFFER_TIMEOUT; callback := StaleReaper sid |}]).
    split; [reflexivity|]. split; [exact Hb|].
    intros x sid' [Hx|Hx]%elem_of_app Hcb.
    + destruct (Ht x Hx) as [Hnil|Hrec]; [inversion Hnil | congruence].
    + apply list_elem_of_singleton in Hx. subst x. cbn in *. split; congruence.
  - rewrite (bind_Throw _ _ _ _ _ Hloop).
    exists (Throw e), b, c', l', t'. split; [reflexivity|]. split; [exact Hb|].
    intros x sid' Hx Hcb.
    destruct (Ht x Hx) as [Hnil|Hrec]; [inversion Hnil | congruence].
Qed.

Lemma webhook_keeps_reapers_stale (P : Providers) (data : WebhookData) (w : World) :
  reapersAreStale w → reapersAreStale (webhook P data w).2.
Proof.
  intros Hinv. destruct data as [[sid|] segs];
    [destruct (decide (sid = "")) as [->|Hne]|]; [exact Hinv| |exact Hinv].
  rewrite (webhook_runs_on_new_manager P sid segs w Hne).
  assert (Hold : ∀ p sid', p ∈ pending w → callback (timer p) = StaleReaper sid' →
                 inherited sid' = false →
                 ∃ bs b0, (managers w ++ [buffers
                             (ingest P (clock w) sid (default [] segs)
                                {| buffers := ∅; collection := chroma w;
                                   calls := log w; timers := [] |}).2]) !! owner p = Some bs ∧
                          bs !! sid' = Some b0 ∧
                          (lastActivity b0 + BUFFER_TIMEOUT ≤ due (timer p))%Z).
  { intros p sid' Hp Hcb Hord.
    destruct (Hinv p sid' Hp Hcb Hord) as (bs & b0 & Hm & Hbs & Hdue).
    exists bs, b0. split; [|auto].
    rewrite lookup_app_l; [exact Hm | now apply lookup_lt_Some with bs]. }
  destruct (inherited sid) eqn:Hi.
  - rewrite (ingest_inherited P (clock w) sid _ _ _ Hi) in *.
    destruct (default [] segs); cbn [snd buffers timers] in *;
      intros p sid' Hp Hcb Hord; cbn [pending managers map] in *.
    + apply elem_of_app in Hp as [Hp|Hp]; [now apply Hold|].
      apply list_elem_of_singleton in Hp. subst p. cbn in Hcb. congruence.
    + rewrite app_nil_r in Hp. now apply Hold.
  - destruct (ingest_shape P (clock w) sid (default [] segs) (chroma w) (log w) Hi)
      as (r & b & c' & l' & t' & E & Hb & Ht). rewrite E in *.
    cbn [snd buffers timers] in *. intros p sid' Hp Hcb Hord.
    cbn [pending managers] in *. apply elem_of_app in Hp as [Hp|Hp]; [now apply Hold|].
    apply list_elem_of_fmap in Hp as (x & -> & Hx). cbn [owner timer] in *.
    destruct (Ht x sid' Hx Hcb) as [-> Hdue].
    exists (<[sid := b]> ∅), b. rewrite list_lookup_middle by reflexivity.
    rewrite lookup_insert_eq. repeat split. lia.
Qed.

Lemma fire_keeps_reapers_stale (P : Providers) (i : nat) (w w' : World) (r : Res (option Response)) :
  reapersAreStale w → fire P i w = Some (r, w') → reapersAreStale w'.
Proof.
  intros Hinv Hfire. unfold fire in Hfire.
  destruct (pending w !! i) as [p0|] eqn:Hp0; [|discriminate].
  destruct (due (timer p0) <=? clock w)%Z; [|discriminate].
  injection Hfire as Hrun. unfold runIn in Hrun. cbn [managers pending chroma log clock] in Hrun.
  assert (Hsub : ∀ p, p ∈ delete i (pending w) → p ∈ pending w).
  { intros p Hp. now apply list_elem_of_delete_inv with i. }
  destruct (managers w !! owner p0) as [bs0|] eqn:Hm0.
  - destruct (runCallback P (clock w) (callback (timer p0)) _) as [r0 s0] eqn:Hcb.
    apply runCallback_frame in Hcb as [Ht Hsame]. cbn [timers buffers] in Ht, Hsame.
    injection Hrun as <- <-. rewrite Ht. cbn [map]. rewrite app_nil_r.
    intros p sid Hp Hcall Hord. cbn [pending managers] in *.
    destruct (Hinv p sid (Hsub p Hp) Hcall Hord) as (bs & b & Hm & Hbs & Hdue).
    destruct (decide (owner p0 = owner p)) as [Heq|Hne].
    + rewrite <- Heq, Hm0 in Hm. injection Hm as <-.
      destruct (Hsame sid b Hbs) as (b' & Hb' & Hl).
      exists (buffers s0), b'. rewrite <- Heq.
      rewrite list_lookup_insert_eq by (now apply lookup_lt_Some with bs0).
      repeat split; [exact Hb' | lia].
    + exists bs, b. rewrite list_lookup_insert_ne by exact Hne. auto.
  - injection Hrun as <- <-. intros p sid Hp Hcall Hord. cbn [pending managers] in *.
    exact (Hinv p sid (Hsub p Hp) Hcall Hord).
Qed.

(** In every state of the process the pending reapers are stale. *)
Lemma reachable_reapers_stale (P : Providers) (w : World) :
  reachable P w → reapersAreStale w.
Proof.
  induction 1 as [|data w _ IH|ms w Hms _ IH|i w w' r _ IH Hfire].
  - intros p sid Hp. inversion Hp.
  - now apply webhook_keeps_reapers_stale.
  - exact IH.
  - now apply fire_keeps_reapers_stale with P i w r.
Qed.

(** So the test of line 292 never fails where the session has a buffer:
    when a reaper runs, at or after its due time, the buffer it reads has
    been idle for [BUFFER_TIMEOUT] at least, whatever has arrived for the
    session in later requests. *)
Lemma due_reaper_passes_its_test (P : Providers) (w : World) (i : nat) (p : Pending) (sid : string) :
  reachable P w →
  pending w !! i = Some p → callback (timer p) = StaleReaper sid →
  inherited sid = false →
  (due (timer p) ≤ clock w)%Z →
  ∃ (bs : BufferStore) (b : MessageBuffer),
    managers w !! owner p = Some bs ∧ bs !! sid = Some b ∧
    (BUFFER_TIMEOUT <=? clock w - lastActivity b)%Z = true.
Proof.
  intros Hreach Hp Hcb Hord Hdue.
  destruct (reachable_reapers_stale P w Hreach p sid) as (bs & b & Hm & Hb & Hst);
    [now apply list_elem_of_lookup_2 with i | exact Hcb | exact Hord |].
  exists bs, b. repeat split; [exact Hm | exact Hb |]. apply Z.leb_le. lia.
Qed.

(** ** Concrete runs *)

(** C5, as stated, fails.  The window of session "s" is open and the
    callback fires twice; the second firing starts while the first waits
    for its embedding.  Both firings pass the guard of line 258, both ask
    the providers, and both return the answer: the cycle delivers two
    responses, and the second firing is no no-op. *)
Lemma overlapping_firings_both_answer :
  overlappingFirings helpful =
  ([Settled (Ok (Some {| body := MessageBody "they're in the drawer"; httpStatus := 200 |}));
    Settled (Ok (Some {| body := MessageBody "they're in the drawer"; httpStatus := 200 |}))],
   {| buffers := {[ "s" := set_responseSent true openWindow ]};
      collection := [];
      calls := [EmbeddingsCreate "i forgot"; EmbeddingsCreate "i forgot";
                CollectionQuery "i forgot" "s" 5; CollectionQuery "i forgot" "s" 5;
                ChatCompletionsCreate "i forgot" "the keys are in the drawer";
                ChatCompletionsCreate "i forgot" "the keys are in the drawer"];
      timers := [] |}).
Proof. vm_compute. reflexivity. Qed.

(** C2, as stated, fails.  A request brings "i forgot"; its recall timer
    fires two seconds later.  When the query finds a document at distance
    0.1 the cycle is answered: [responseSent] is set, but the window stays
    open ([triggerDetected] is true, [collectedQuestion] is kept).  When the
    document is at distance 0.41 the match is rejected: the window is
    closed, but [responseSent] stays false. *)
Lemma recall_outcomes_leave_different_states :
  recallRun (reliable (found drawer [distance_0_1]) "they're in the drawer") =
  Some (Ok (Some {| body := MessageBody "they're in the drawer"; httpStatus := 200 |}),
        {| clock := 2000;
           managers :=
             [ {[ "s" := {| messages := ["i forgot"];
                            triggerDetected := true;
                            triggerTime := 0;
                            collectedQuestion := ["i forgot"];
                            responseSent := true;
                            partialTrigger := false;
                            partialTriggerTime := 0;
                            lastActivity := 0 |} ]} ];
           pending :=
             [ {| owner := 0;
                  timer := {| due := 5000; callback := StaleReaper "s" |} |} ];
           chroma := [];
           log := [EmbeddingsCreate "i forgot"; CollectionQuery "i forgot" "s" 5;
                   ChatCompletionsCreate "i forgot" "the keys are in the drawer"] |}) ∧
  recallRun (reliable (found drawer [distance_0_41]) "they're in the drawer") =
  Some (Ok None,
        {| clock := 2000;
           managers :=
             [ {[ "s" := {| messages := ["i forgot"];
                            triggerDetected := false;
                            triggerTime := 0;
                            collectedQuestion := [];
                            responseSent := false;
                            partialTrigger := false;
                            partialTriggerTime := 0;
                            lastActivity := 0 |} ]} ];
           pending :=
             [ {| owner := 0;
                  timer := {| due := 5000; callback := StaleReaper "s" |} |} ];
           chroma := [];
           log := [EmbeddingsCreate "i forgot"; CollectionQuery "i forgot" "s" 5] |}).
Proof. vm_compute. split; reflexivity. Qed.

(** C3, as stated, fails.  In the same run, with one document at distance
    0.41, the callback returns nothing: no "nothing remembered" message is
    produced, although the document list is not empty. *)
Lemma rejected_match_yields_no_message :
  fst <$> recallRun (reliable (found drawer [distance_0_41]) "they're in the drawer") =
    Some (Ok None) ∧
  fst <$> recallRun (reliable (found drawer [distance_0_41]) "they're in the drawer") ≠
    Some (Ok (Some nothingRemembered)).
Proof. split; [vm_compute; reflexivity | vm_compute; discriminate]. Qed.

(** C4, as stated, fails.  When the store call of the flush of "hello."
    is rejected, the request fails and "hello." is still pending. *)
Lemma failed_flush_is_not_cleared :
  webhook addRejects (request "s" ["hello."]) boot =
  (Throw ProviderError,
   {| clock := 0;
      managers := [ {[ "s" := set_messages ["hello."] (freshBuffer 0) ]} ];
      pending := [];
      chroma := [];
      log := [EmbeddingsCreate "hello."; CollectionAdd "hello." "s"] |}) ∧
  messages (set_messages ["hello."] (freshBuffer 0)) ≠ [].
Proof. split; [vm_compute; reflexivity | discriminate]. Qed.

(** ** Instances *)

Lemma flush_of_empty_buffer_instance :
  messages (freshBuffer 0) = [] ∧
  processBuffer (reliable None "") 5000 "s" (scopeOf (freshBuffer 0)) =
    (Ok tt, scopeOf (freshBuffer 0)) ∧
  reaperCallback (reliable None "") 5000 "s" (scopeOf (freshBuffer 0)) =
    (Ok tt, scopeOf (freshBuffer 0)).
Proof.
  split; [reflexivity|].
  apply (flush_of_empty_buffer_is_noop (reliable None "") 5000 "s"
           (scopeOf (freshBuffer 0)) (freshBuffer 0)).
  - vm_compute. reflexivity.
  - reflexivity.
Defined.

Lemma failed_flush_instance :
  (processBuffer addRejects 0 "s" pendingHello).1 = Throw ProviderError ∧
  buffers (processBuffer addRejects 0 "s" pendingHello).2 = buffers pendingHello ∧
  collection (processBuffer addRejects 0 "s" pendingHello).2 = collection pendingHello.
Proof.
  pose proof (failed_flush_keeps_messages addRejects 0 "s" pendingHello
                (processBuffer addRejects 0 "s" pendingHello).2
                (set_messages ["hello."] (freshBuffer 0))
                (Throw ProviderError)) as H.
  cbv zeta in H.
  destruct H as (_ & Hb & Hc & _).
  - vm_compute. reflexivity.
  - discriminate.
  - vm_compute. reflexivity.
  - split; [vm_compute; reflexivity|]. split; assumption.
Defined.

Lemma hello_world_next_instance :
  webhook (reliable None "") (request "s" ["hello"; "world."; "next"]) boot =
  (Ok {| body := StatusBody "success"; httpStatus := 200 |},
   {| clock := 0;
      managers := [ {[ "s" := set_messages ["next"] (freshBuffer 0) ]} ];
      pending := [ {| owner := 0;
                      timer := {| due := 5000; callback := StaleReaper "s" |} |} ];
      chroma := [ {| memoryId := 0; document := "hello world.";
                     metaSessionId := "s"; metaTimestamp := 0 |} ];
      log := [EmbeddingsCreate "hello world."; CollectionAdd "hello world." "s"] |}).
Proof.
  apply (hello_world_next_flushes_once (reliable None "") boot "s").
  - discriminate.
  - reflexivity.
  - reflexivity.
  - reflexivity.
Defined.


Lemma settled_firing_instance :
  closedFor "s" answeredRun.2 ∧
  recallFiring (reliable None "") "s" answeredRun.2 = (Settled (Ok None), answeredRun.2) ∧
  closedFor "s" rejectedRun.2.
Proof.
  destruct (settled_firing_blocks_the_next (reliable None "") "s") as (Hnoop & _ & _ & _).
  destruct (settled_firing_blocks_the_next
              (reliable (found drawer [distance_0_41]) "they're in the drawer") "s")
    as (_ & Hopen & _ & Hlater).
  assert (Hc : closedFor "s" answeredRun.2).
  { intros b Hb. vm_compute in Hb. injection Hb as <-. reflexivity. }
  split; [exact Hc|]. split; [exact (Hnoop _ Hc)|].
  intros b Hb. vm_compute in Hb. injection Hb as <-. reflexivity.
Defined.

Lemma recall_completion_instance :
  buffers answeredRun.2 = <[ "s" := set_responseSent true openWindow ]> (buffers (scopeOf openWindow)) ∧
  buffers rejectedRun.2 =
    <[ "s" := set_collectedQuestion [] (set_triggerDetected false openWindow) ]>
      (buffers (scopeOf openWindow)).
Proof.
  split.
  - apply (recall_completion_state
             (reliable (found drawer [distance_0_1]) "they're in the drawer")
             "s" (scopeOf openWindow) answeredRun.2 openWindow
             (Some {| body := MessageBody "they're in the drawer"; httpStatus := 200 |}));
      vm_compute; reflexivity.
  - apply (recall_completion_state
             (reliable (found drawer [distance_0_41]) "they're in the drawer")
             "s" (scopeOf openWindow) rejectedRun.2 openWindow None);
      vm_compute; reflexivity.
Defined.

Lemma best_match_instance :
  accepted (found drawer [distance_0_41]) = SFleb distance_0_41 SIMILARITY_THRESHOLD ∧
  SFleb distance_0_41 SIMILARITY_THRESHOLD = false ∧
  rejectedRun.1 = Ok None.
Proof.
  destruct (best_match_threshold
              (reliable (found drawer [distance_0_41]) "they're in the drawer")
              "s" (scopeOf openWindow) openWindow
              (found drawer [distance_0_41]) drawer distance_0_41)
    as (Hacc & _ & H41 & Hrej & _); try (vm_compute; reflexivity).
  split; [exact Hacc|]. split; [exact H41|].
  unfold rejectedRun. now rewrite (Hrej H41).
Defined.

(** * Further properties *)

(** ** Reasoning about code in the monad *)

Lemma keeps_bind {A B : Type} (R : Scope → Scope → Prop) `{!PreOrder R} (m : M A) (f : A → M B) :
  keeps R m → (∀ a, keeps R (f a)) → keeps R (m ≫= f).
Proof.
  intros Hm Hf s s1 r Hrun. unfold mbind, M_bind in Hrun.
  destruct (m s) as [[a|e] s0] eqn:E.
  - transitivity s0; [exact (Hm _ _ _ E) | exact (Hf a _ _ _ Hrun)].
  - injection Hrun as <- <-. exact (Hm _ _ _ E).
Qed.

Lemma keeps_ret {A : Type} (R : Scope → Scope → Prop) `{!PreOrder R} (a : A) :
  keeps R (mret a : M A).
Proof. intros s s1 r Hrun. injection Hrun as <- <-. reflexivity. Qed.

Lemma keeps_throw {A : Type} (R : Scope → Scope → Prop) `{!PreOrder R} (e : Error) :
  keeps R (throw e : M A).
Proof. intros s s1 r Hrun. injection Hrun as <- <-. reflexivity. Qed.

Lemma keeps_forEach {A : Type} (R : Scope → Scope → Prop) `{!PreOrder R} (f : A → M unit) (l : list A) :
  (∀ x, keeps R (f x)) → keeps R (forEach f l).
Proof.
  intros Hf. induction l as [|x l IH]; cbn [forEach].
  - now apply keeps_ret.
  - apply keeps_bind; [exact _ | apply Hf | intros _; exact IH].
Qed.

#[local] Instance extends_preorder : PreOrder extends.
Proof.
  split.
  - intros s. repeat split; reflexivity.
  - intros s1 s2 s3 (H1 & H2 & H3) (H4 & H5 & H6).
    repeat split; etransitivity; eassumption.
Qed.

#[local] Instance onlySession_preorder (sid : string) : PreOrder (onlySession sid).
Proof.
  split.
  - intros s k _. reflexivity.
  - intros s1 s2 s3 H1 H2 k Hk. now rewrite (H2 k Hk), (H1 k Hk).
Qed.

#[local] Instance staysAnswered_preorder : PreOrder staysAnswered.
Proof.
  split.
  - intros s k b Hb. eauto.
  - intros s1 s2 s3 H1 H2 k b Hb.
    destruct (H1 k b Hb) as (b1 & Hb1 & Hr1).
    destruct (H2 k b1 Hb1) as (b2 & Hb2 & Hr2). eauto.
Qed.

#[local] Instance orderly_preorder (sid : string) : PreOrder (orderly sid).
Proof.
  split.
  - intros s. repeat split; reflexivity.
  - intros s1 s2 s3 (H1 & H2 & H3) (H4 & H5 & H6).
    split; [|split]; etransitivity; eassumption.
Qed.

(** The primitives. *)

Lemma orderly_same_buffers (sid : string) (s s1 : Scope) :
  buffers s1 = buffers s → extends s s1 → orderly sid s s1.
Proof.
  intros Hb He. split; [exact He|]. split.
  - intros k _. now rewrite Hb.
  - intros k b Hk. rewrite Hb. eauto.
Qed.

Lemma issue_orderly (sid : string) (c : ProviderCall) : keeps (orderly sid) (issue c).
Proof.
  intros s s1 r Hrun. injection Hrun as <- <-.
  apply orderly_same_buffers; [reflexivity|].
  repeat split; cbn; [reflexivity | now apply prefix_app_r | reflexivity].
Qed.

Lemma addDocument_orderly (sid : string) (m : StoredMemory) : keeps (orderly sid) (addDocument m).
Proof.
  intros s s1 r Hrun. injection Hrun as <- <-.
  apply orderly_same_buffers; [reflexivity|].
  repeat split; cbn; [now apply prefix_app_r | reflexivity | reflexivity].
Qed.

Lemma setTimeout_orderly (sid : string) (now : Z) (cb : Callback) (delay : Z) :
  keeps (orderly sid) (setTimeout now cb delay).
Proof.
  intros s s1 r Hrun. injection Hrun as <- <-.
  apply orderly_same_buffers; [reflexivity|].
  repeat split; cbn; [reflexivity | reflexivity | now apply prefix_app_r].
Qed.

Lemma deref_orderly (sid : string) : keeps (orderly sid) (deref sid).
Proof.
  intros s s1 r Hrun. unfold deref in Hrun.
  destruct (buffers s !! sid); injection Hrun as <- <-; reflexivity.
Qed.

Lemma held_orderly (sid : string) : keeps (orderly sid) (held sid).
Proof.
  intros s s1 r Hrun. unfold held in Hrun.
  destruct (buffers s !! sid); injection Hrun as <- <-; reflexivity.
Qed.

Lemma getBuffer_orderly (now : Z) (sid : string) : keeps (orderly sid) (getBuffer now sid).
Proof.
  intros s s1 r Hrun. unfold getBuffer in Hrun.
  destruct (buffers s !! sid) eqn:Hb; [injection Hrun as <- <-; reflexivity|].
  destruct (inherited sid); injection Hrun as <- <-; [reflexivity|].
  split; [|split].
  - repeat split; reflexivity.
  - intros k Hk. cbn. now rewrite lookup_insert_ne.
  - intros k b Hk. cbn. rewrite lookup_insert_ne by congruence. eauto.
Qed.

Lemma assign_orderly (sid : string) (f : MessageBuffer → MessageBuffer) :
  (∀ b, responseSent b = true → responseSent (f b) = true) →
  keeps (orderly sid) (assign sid f).
Proof.
  intros Hf s s1 r Hrun. injection Hrun as <- <-.
  split; [|split].
  - repeat split; reflexivity.
  - intros k Hk. cbn. now rewrite lookup_alter_ne.
  - intros k b Hk. cbn. destruct (decide (sid = k)) as [->|Hne].
    + rewrite lookup_alter_eq, Hk. cbn. eauto.
    + rewrite lookup_alter_ne by done. eauto.
Qed.

(** Every function of the file, under the same three headings. *)
Ltac orderly :=
  repeat first
    [ apply keeps_bind; [exact _ | | intros ?]
    | apply keeps_ret; exact _
    | apply keeps_throw; exact _
    | apply issue_orderly
    | apply addDocument_orderly
    | apply setTimeout_orderly
    | apply deref_orderly
    | apply held_orderly
    | apply getBuffer_orderly
    | apply assign_orderly; intros ? ?; assumption || reflexivity
    | match goal with
      | |- keeps _ (if ?c then _ else _) => destruct c
      | |- keeps _ (match ?c with Some _ => _ | None => _ end) => destruct c
      | |- keeps _ (match ?c with Buffer _ => _ | Inherited => _ end) => destruct c
      | |- keeps _ (let _ := _ in _) => cbv zeta
      end ].

Lemma saveMemory_orderly (P : Providers) (now : Z) (sid txt sessionId : string) :
  keeps (orderly sid) (saveMemory P now txt sessionId).
Proof. unfold saveMemory, getEmbedding. orderly. Qed.

Lemma processBuffer_orderly (P : Providers) (now : Z) (sid : string) :
  keeps (orderly sid) (processBuffer P now sid).
Proof. unfold processBuffer. orderly. Qed.

Lemma recallCallback_orderly (P : Providers) (sid : string) :
  keeps (orderly sid) (recallCallback P sid).
Proof.
  unfold recallCallback, searchMemories, generateResponse, getEmbedding. orderly.
Qed.

Lemma reaperCallback_orderly (P : Providers) (now : Z) (sid : string) :
  keeps (orderly sid) (reaperCallback P now sid).
Proof. unfold reaperCallback. orderly. Qed.

Lemma segmentStep_orderly (P : Providers) (now : Z) (n : nat) (sid : string) (seg : Segment) :
  keeps (orderly sid) (segmentStep P now n sid seg).
Proof.
  unfold segmentStep, appendSegment, flushOnBoundary, watchTrigger. orderly.
Qed.

Lemma ingest_orderly (P : Providers) (now : Z) (sid : string) (segs : list Segment) :
  keeps (orderly sid) (ingest P now sid segs).
Proof.
  unfold ingest. orderly.
  apply keeps_forEach; [exact _|]. intros seg. apply segmentStep_orderly.
Qed.

Lemma processMemoryObject_orderly (P : Providers) (now : Z) (sid : string) (memory : Memory) (uid : string) :
  keeps (orderly sid) (processMemoryObject P now memory uid).
Proof. unfold processMemoryObject. orderly. Qed.

(** ** The registry of one manager *)

(** X1.  [getBuffer] returns the buffer stored under the session id
    when there is one.  Otherwise, for a name inherited from
    [Object.prototype] it returns the inherited object and creates nothing;
    for every other id it creates a buffer with empty fields and the
    current time as [lastActivity].  A second call returns the same
    reference and changes nothing.  No call touches the entry of another
    session, the collection, the log or the timers. *)
Theorem getBuffer_creates_once (now now' : Z) (sid : string) (s : Scope) :
  ∃ (r : Reference) (s1 : Scope),
    getBuffer now sid s = (Ok r, s1) ∧
    getBuffer now' sid s1 = (Ok r, s1) ∧
    (∀ k, k ≠ sid → buffers s1 !! k = buffers s !! k) ∧
    collection s1 = collection s ∧ calls s1 = calls s ∧ timers s1 = timers s ∧
    match buffers s !! sid with
    | Some b => r = Buffer b ∧ s1 = s
    | None =>
        if inherited sid
        then r = Inherited ∧ s1 = s
        else r = Buffer (freshBuffer now) ∧
             buffers s1 = <[sid := freshBuffer now]> (buffers s)
    end.
Proof.
  unfold getBuffer at 1. destruct (buffers s !! sid) as [b|] eqn:Hb.
  - exists (Buffer b), s. repeat split; auto. now apply getBuffer_existing.
  - destruct (inherited sid) eqn:Hi.
    + exists Inherited, s. repeat split; auto. now apply getBuffer_inherited.
    + eexists _, _. split; [reflexivity|]. cbn [buffers with_buffers].
      repeat split; auto.
      * apply getBuffer_existing. cbn. apply lookup_insert_eq.
      * intros k Hk. now rewrite lookup_insert_ne.
Qed.

(** ** Requests to /webhook *)

Lemma ingest_response (P : Providers) (now : Z) (sid : string) (segs : list Segment) (s s1 : Scope) (r : Res Response) :
  ingest P now sid segs s = (r, s1) →
  r = Ok {| body := StatusBody "success"; httpStatus := 200 |} ∨ ∃ e, r = Throw e.
Proof.
  unfold ingest, mbind, M_bind. intros Hrun.
  destruct (getBuffer now sid s) as [[b|e] s0]; [|injection Hrun as <- <-; eauto].
  destruct (forEach _ segs s0) as [[u|e] s2]; [|injection Hrun as <- <-; eauto].
  injection Hrun as <- <-. now left.
Qed.

(** X2.  [POST /webhook] answers 400 "No session ID provided" exactly when
    the session id is missing or empty, and then it has done nothing: no
    manager, no timer, no provider call. *)
Theorem webhook_rejects_missing_session (P : Providers) (data : WebhookData) (w : World) :
  ((webhook P data w).1 =
     Ok {| body := ErrorBody "No session ID provided"; httpStatus := 400 |}
   ↔ session_id data = None ∨ session_id data = Some "") ∧
  (session_id data = None ∨ session_id data = Some "" → (webhook P data w).2 = w).
Proof.
  destruct data as [[sid|] segs]; cbn [session_id].
  - destruct (decide (sid = "")) as [->|Hne].
    + split; [split|]; auto.
    + rewrite (webhook_runs_on_new_manager P sid segs w Hne).
      destruct (ingest _ _ _ _ _) as [r s] eqn:E. cbn [fst snd].
      split; [split|].
      * intros ->. apply ingest_response in E as [E|[e E]]; discriminate.
      * intros [H|H]; [discriminate | congruence].
      * intros [H|H]; [discriminate | congruence].
  - split; [split|]; auto.
Qed.

(** X3.  A request without fragments ([segments] missing or empty) stores
    nothing and answers "success".  It registers its reaper, due
    [BUFFER_TIMEOUT] later, and nothing else; its manager holds the new
    buffer of the session, or no buffer at all when the session id is a
    name inherited from [Object.prototype]. *)
Theorem empty_batch_only_arms_reaper (P : Providers) (sid : string) (segs : option (list Segment)) (w : World) :
  sid ≠ "" → segs = None ∨ segs = Some [] →
  (webhook P {| session_id := Some sid; segments := segs |} w).1 =
    Ok {| body := StatusBody "success"; httpStatus := 200 |} ∧
  managers (webhook P {| session_id := Some sid; segments := segs |} w).2 =
    managers w ++
      [if inherited sid then ∅ else {[ sid := freshBuffer (clock w) ]}] ∧
  pending (webhook P {| session_id := Some sid; segments := segs |} w).2 =
    pending w ++
      [{| owner := length (managers w);
          timer := {| due := clock w + BUFFER_TIMEOUT;
                      callback := StaleReaper sid |} |}] ∧
  chroma (webhook P {| session_id := Some sid; segments := segs |} w).2 = chroma w.
Proof.
  intros Hne Hsegs. rewrite (webhook_runs_on_new_manager P sid segs w Hne).
  assert (default [] segs = []) as -> by (destruct Hsegs as [->| ->]; reflexivity).
  destruct (inherited sid) eqn:Hi.
  - now rewrite ingest_inherited.
  - now rewrite ingest_start.
Qed.

(** X4.  A request never reads or changes what earlier requests left
    behind.  Served at the same time with the same collection and log, it
    gives the same response, builds the same buffer and stores the same
    memories whatever managers and timers the process holds; and those
    managers and timers are all still there afterwards. *)
Theorem request_ignores_earlier_requests (P : Providers) (data : WebhookData) (w w0 : World) :
  clock w = clock w0 → chroma w = chroma w0 → log w = log w0 →
  (webhook P data w).1 = (webhook P data w0).1 ∧
  chroma (webhook P data w).2 = chroma (webhook P data w0).2 ∧
  log (webhook P data w).2 = log (webhook P data w0).2 ∧
  (∃ added, managers (webhook P data w).2 = managers w ++ added ∧
            managers (webhook P data w0).2 = managers w0 ++ added) ∧
  pending w `prefix_of` pending (webhook P data w).2.
Proof.
  intros Hc Hch Hl. destruct data as [[sid|] segs].
  - destruct (decide (sid = "")) as [->|Hne].
    + cbn. repeat split; auto. exists []. now rewrite !app_nil_r.
    + rewrite !(webhook_runs_on_new_manager P sid segs _ Hne), Hc, Hch, Hl.
      destruct (ingest _ _ _ _ _) as [r s]. cbn [fst snd chroma log managers pending].
      repeat split; [eauto | now apply prefix_app_r].
  - cbn. repeat split; auto. exists []. now rewrite !app_nil_r.
Qed.

(** ** No fragment is lost *)

Lemma forEach_conserves (P : Providers) (now : Z) (n : nat) (sid : string) (segs : list Segment) (m : BufferStore) b c l t :
  (∀ k, embeddingsCreate P k = true) → (∀ k, collectionAdd P k = true) →
  ∃ groups b' l' t',
    forEach (segmentStep P now n sid) segs ⟨sid ↦ b; m; c; l; t⟩ =
      (Ok tt, ⟨sid ↦ b'; m; c ++ map (λ g, stored now sid (join " " g)) groups; l'; t'⟩) ∧
    messages b ++ map (λ seg, toLowerCase (text seg)) segs = concat groups ++ messages b' ∧
    Forall (λ g, g ≠ []) groups.
Proof.
  intros He Ha. revert b c l t.
  induction segs as [|seg segs IH]; intros b c l t.
  - exists [], b, l, t. cbn. rewrite !app_nil_r. auto.
  - cbn [forEach map].
    destruct (flushDecision n (toLowerCase (text seg))) eqn:Hf.
    + pose proof (segmentStep_flush P now n sid seg m b c l t Hf (He _) (Ha _)) as Hstep.
      cbv zeta in Hstep.
      edestruct watchTrigger_frame as (b1 & t1 & Hw & Hm1).
      rewrite Hw in Hstep. rewrite (bind_Ok _ _ _ _ _ Hstep).
      edestruct IH as (groups & b' & l' & t' & -> & Hcons & Hne).
      exists ((messages b ++ [toLowerCase (text seg)]) :: groups), b', l', t'.
      split; [|split].
      * cbn [map]. now rewrite <- app_assoc.
      * cbn [concat]. rewrite <- app_assoc, <- Hcons, Hm1. cbn [messages set_messages].
        now rewrite <- app_assoc.
      * constructor; [now destruct (messages b) | exact Hne].
    + pose proof (segmentStep_no_flush P now n sid seg m b c l t Hf) as Hstep.
      edestruct watchTrigger_frame as (b1 & t1 & Hw & Hm1).
      rewrite Hw in Hstep. rewrite (bind_Ok _ _ _ _ _ Hstep).
      edestruct IH as (groups & b' & l' & t' & -> & Hcons & Hne).
      exists groups, b', l', t'. split; [reflexivity|]. split; [|exact Hne].
      rewrite <- Hcons, Hm1. cbn [messages set_lastActivity set_messages].
      now rewrite <- app_assoc.
Qed.

(** X5.  When the providers answer every call, a request loses, repeats and
    reorders nothing.  The fragments of the batch, lower-cased and in
    order, are cut into consecutive non-empty groups: each group was stored
    as one memory, its fragments joined by single spaces and tagged with
    the session id, and what follows the last group is what is left in
    [messages].  (For a session id that is not inherited from
    [Object.prototype], and for ASCII fragments.) *)
Theorem successful_request_keeps_every_fragment (P : Providers) (w : World) (sid : string) (texts : list string) :
  sid ≠ "" → inherited sid = false →
  Forall (λ t, isAscii t = true) texts →
  (∀ k, embeddingsCreate P k = true) → (∀ k, collectionAdd P k = true) →
  ∃ (groups : list (list string)) (b : MessageBuffer) (added : list StoredMemory),
    (webhook P (request sid texts) w).1 =
      Ok {| body := StatusBody "success"; httpStatus := 200 |} ∧
    chroma (webhook P (request sid texts) w).2 = chroma w ++ added ∧
    map document added = map (join " ") groups ∧
    Forall (λ m, metaSessionId m = sid) added ∧
    managers (webhook P (request sid texts) w).2 = managers w ++ [{[ sid := b ]}] ∧
    concat groups ++ messages b = map toLowerCase texts ∧
    Forall (λ g, g ≠ []) groups.
Proof.
  intros Hne Hi _ He Ha. unfold request.
  rewrite (webhook_runs_on_new_manager P sid _ w Hne).
  cbn [default from_option id]. rewrite ingest_start by exact Hi.
  destruct (forEach_conserves P (clock w) (length (map (λ t, {| text := t |}) texts))
              sid (map (λ t, {| text := t |}) texts) ∅ (freshBuffer (clock w))
              (chroma w) (log w) [] He Ha)
    as (groups & b & l' & t' & Hloop & Hcons & Hgr).
  rewrite (bind_Ok _ _ _ _ _ Hloop).
  exists groups, b, (map (λ g, stored (clock w) sid (join " " g)) groups).
  cbn [fst snd chroma managers buffers collection].
  split; [reflexivity|]. split; [reflexivity|]. split; [|split; [|split; [|split]]].
  - rewrite map_map. reflexivity.
  - apply Forall_map. now apply Forall_true.
  - reflexivity.
  - rewrite <- Hcons. cbn [messages freshBuffer app]. rewrite map_map. reflexivity.
  - exact Hgr.
Qed.

(** ** POST /webhook/memory *)

Lemma runIn_new_manager {A : Type} (code : M A) (w : World) (r : Res A) (s1 : Scope) :
  code {| buffers := ∅; collection := chroma w; calls := log w; timers := [] |} = (r, s1) →
  (let '(memoryManager, w1) := newMemoryManager w in runIn memoryManager code w1) =
  (r, {| clock := clock w;
         managers := managers w ++ [buffers s1];
         pending := pending w ++
           map (λ t, {| owner := length (managers w); timer := t |}) (timers s1);
         chroma := collection s1;
         log := calls s1 |}).
Proof.
  intros E. unfold newMemoryManager, runIn. cbn [managers clock pending chroma log].
  rewrite list_lookup_middle by reflexivity. rewrite E.
  now rewrite insert_app_r_alt, Nat.sub_diag by lia.
Qed.

Lemma saveMemory_run (P : Providers) (now : Z) (txt sid : string) (s : Scope) :
  saveMemory P now txt sid s =
    if embeddingsCreate P (length (calls s)) then
      if collectionAdd P (S (length (calls s))) then
        (Ok tt,
         {| buffers := buffers s;
            collection := collection s ++ [stored now sid txt];
            calls := calls s ++ [EmbeddingsCreate txt; CollectionAdd txt sid];
            timers := timers s |})
      else
        (Throw ProviderError,
         {| buffers := buffers s; collection := collection s;
            calls := calls s ++ [EmbeddingsCreate txt; CollectionAdd txt sid];
            timers := timers s |})
    else
      (Throw ProviderError,
       {| buffers := buffers s; collection := collection s;
          calls := calls s ++ [EmbeddingsCreate txt]; timers := timers s |}).
Proof.
  destruct s as [bs c l t].
  unfold saveMemory, getEmbedding.
  rewrite ?bind_assoc, (bind_Ok _ _ _ _ _ (issue_at _ _ _ _ _)).
  cbn [calls buffers collection timers].
  destruct (embeddingsCreate P (length l)); [|reflexivity].
  rewrite (bind_Ok _ _ _ _ _ (mret_at _ _)).
  rewrite (bind_Ok _ _ _ _ _ (issue_at _ _ _ _ _)).
  rewrite length_app, Nat.add_1_r, <- app_assoc.
  destruct (collectionAdd P (S (length l))); reflexivity.
Qed.

Lemma bind_unit (m : M unit) (s : Scope) : (m ≫= λ _, mret tt) s = m s.
Proof. unfold mbind, M_bind. now destruct (m s) as [[[]|e] s']. Qed.

Lemma processMemoryObject_forEach (P : Providers) (now : Z) (memory : Memory) (uid : string) (s : Scope) :
  processMemoryObject P now memory uid s =
  forEach (λ txt, saveMemory P now txt uid) (memoryTexts memory) s.
Proof.
  unfold processMemoryObject, memoryTexts.
  destruct (0 <? length (action_items (structured memory)))%nat,
           (0 <? length (apps_response memory))%nat;
    cbn [app forEach]; unfold mbind, M_bind, mret, M_ret;
    repeat match goal with
           | |- context [saveMemory P now ?t uid ?x] =>
               destruct (saveMemory P now t uid x) as [[[]|?] ?]
           end; reflexivity.
Qed.

Lemma forEach_saveMemory (P : Providers) (now : Z) (uid : string) (texts : list string) (s s1 : Scope) (r : Res unit) :
  forEach (λ txt, saveMemory P now txt uid) texts s = (r, s1) →
  ∃ k, (k ≤ length texts)%nat ∧
       collection s1 = collection s ++ map (stored now uid) (take k texts) ∧
       (r = Ok tt ↔ k = length texts) ∧
       buffers s1 = buffers s ∧ timers s1 = timers s.
Proof.
  revert s. induction texts as [|txt texts IH]; intros s Hrun.
  - injection Hrun as <- <-. exists 0%nat. cbn. rewrite app_nil_r.
    repeat split; auto.
  - cbn [forEach] in Hrun. unfold mbind, M_bind in Hrun.
    rewrite saveMemory_run in Hrun.
    destruct (embeddingsCreate P _);
      [destruct (collectionAdd P _)|].
    + apply IH in Hrun as (k & Hk & Hc & Hr & Hb & Ht).
      cbn [collection buffers timers] in *.
      exists (S k). cbn [length take map]. rewrite Hc, <- app_assoc.
      repeat split; auto; try lia.
      * intros H. apply Hr in H. lia.
      * intros H. apply Hr. lia.
    + injection Hrun as <- <-. exists 0%nat. cbn. rewrite app_nil_r.
      repeat split; auto; try lia; discriminate.
    + injection Hrun as <- <-. exists 0%nat. cbn. rewrite app_nil_r.
      repeat split; auto; try lia; discriminate.
Qed.

Lemma memory_parts_aux (P : Providers) (now : Z) (memory : Memory) (uid : string) (s s1 : Scope) (r : Res unit) :
  processMemoryObject P now memory uid s = (r, s1) →
  ∃ k, (k ≤ length (memoryTexts memory))%nat ∧
       collection s1 =
         collection s ++ map (stored now uid) (take k (memoryTexts memory)) ∧
       (r = Ok tt ↔ k = length (memoryTexts memory)) ∧
       buffers s1 = buffers s ∧ timers s1 = timers s.
Proof.
  intros Hrun. rewrite processMemoryObject_forEach in Hrun.
  now apply forEach_saveMemory in Hrun.
Qed.

(** X6.  [processMemoryObject] stores the parts of a memory in a fixed
    order, each as a memory of its own tagged with [uid]: the transcript,
    the summary, then the action items and the app responses when there
    are any.  It stops at the first provider failure: what it has stored is
    the first [k] of these parts, it returns normally exactly when it has
    stored them all, and nothing is retried or taken back.  It touches no
    buffer and no timer. *)
Theorem memory_parts_are_stored_in_order (P : Providers) (now : Z) (memory : Memory) (uid : string) (s s1 : Scope) (r : Res unit) :
  processMemoryObject P now memory uid s = (r, s1) →
  ∃ k, (k ≤ length (memoryTexts memory))%nat ∧
       collection s1 =
         collection s ++ map (stored now uid) (take k (memoryTexts memory)) ∧
       (r = Ok tt ↔ k = length (memoryTexts memory)) ∧
       (2 ≤ length (memoryTexts memory) ≤ 4)%nat ∧
       buffers s1 = buffers s ∧ timers s1 = timers s.
Proof.
  intros Hrun.
  apply memory_parts_aux in Hrun as (k & Hk & Hc & Hr & Hb & Ht).
  exists k. repeat split; auto; try apply Hr;
    unfold memoryTexts;
    destruct (0 <? length (action_items (structured memory)))%nat,
             (0 <? length (apps_response memory))%nat; cbn; lia.
Qed.

(** X7.  [POST /webhook/memory] answers 400 "No user ID provided" exactly
    when [uid] is missing or empty, and then it has done nothing.
    Otherwise it works on a manager of its own, which it leaves without any
    buffer; it registers no timer, leaves the earlier managers as they are,
    and stores only parts of the memory, in order, tagged with [uid]. *)
Theorem memory_endpoint_effects (P : Providers) (uid : option string) (memory : Memory) (w : World) :
  ((webhookMemory P uid memory w).1 =
     Ok {| body := ErrorBody "No user ID provided"; httpStatus := 400 |}
   ↔ uid = None ∨ uid = Some "") ∧
  (uid = None ∨ uid = Some "" → (webhookMemory P uid memory w).2 = w) ∧
  (∀ u, uid = Some u → u ≠ "" →
   ∃ k,
     (webhookMemory P uid memory w).2 =
     {| clock := clock w;
        managers := managers w ++ [∅];
        pending := pending w;
        chroma := chroma w ++ map (stored (clock w) u) (take k (memoryTexts memory));
        log := log (webhookMemory P uid memory w).2 |} ∧
     ((webhookMemory P uid memory w).1 =
        Ok {| body := StatusBody "success"; httpStatus := 200 |}
      ↔ k = length (memoryTexts memory))).
Proof.
  assert (Hrun : ∀ u, u ≠ "" →
    ∃ k r s1,
      processMemoryObject P (clock w) memory u
        {| buffers := ∅; collection := chroma w; calls := log w; timers := [] |} = (r, s1) ∧
      collection s1 = chroma w ++ map (stored (clock w) u) (take k (memoryTexts memory)) ∧
      (r = Ok tt ↔ k = length (memoryTexts memory)) ∧
      buffers s1 = ∅ ∧ timers s1 = [] ∧
      webhookMemory P (Some u) memory w =
      (match r with
       | Ok _ => Ok {| body := StatusBody "success"; httpStatus := 200 |}
       | Throw e => Throw e
       end,
       {| clock := clock w; managers := managers w ++ [buffers s1];
          pending := pending w ++
            map (λ t, {| owner := length (managers w); timer := t |}) (timers s1);
          chroma := collection s1; log := calls s1 |})).
  { intros u Hu.
    destruct (processMemoryObject P (clock w) memory u
                {| buffers := ∅; collection := chroma w; calls := log w; timers := [] |})
      as [r s1] eqn:E.
    pose proof (memory_parts_aux P (clock w) memory u _ _ _ E)
      as (k & _ & Hc & Hr & Hb & Ht).
    exists k, r, s1. cbn [collection buffers timers] in *.
    repeat split; auto; try apply Hr.
    unfold webhookMemory, falsy. rewrite bool_decide_eq_false_2 by exact Hu.
    cbn [default from_option id].
    apply (runIn_new_manager _ w). destruct r as [[]|e].
    + now rewrite (bind_Ok _ _ _ _ _ E).
    + now rewrite (bind_Throw _ _ _ _ _ E). }
  destruct uid as [u|]; [destruct (decide (u = "")) as [->|Hu]|].
  - split; [split|split]; auto. intros u' [= <-] Hne. done.
  - destruct (Hrun u Hu) as (k & r & s1 & E & Hc & Hr & Hb & Ht & ->).
    cbn [fst snd]. split; [split|split].
    + destruct r; discriminate.
    + intros [H|H]; [discriminate | congruence].
    + intros [H|H]; [discriminate | congruence].
    + intros u' [= <-] _. exists k. rewrite Hb, Ht, Hc. cbn [map log].
      rewrite app_nil_r. split; [reflexivity|].
      rewrite <- Hr. destruct r as [[]|e]; split; congruence.
  - split; [split|split]; auto. intros u' H. discriminate.
Qed.

(** ** What a timer callback touches *)

Lemma runCallback_orderly (P : Providers) (now : Z) (cb : Callback) :
  keeps (orderly (callbackSession cb)) (runCallback P now cb).
Proof.
  destruct cb as [sid|sid]; cbn [runCallback callbackSession];
    [apply recallCallback_orderly|].
  apply keeps_bind; [exact _ | apply reaperCallback_orderly | intros _; apply keeps_ret; exact _].
Qed.

Lemma fire_inv (P : Providers) (i : nat) (w w' : World) (r : Res (option Response)) :
  fire P i w = Some (r, w') →
  ∃ p, pending w !! i = Some p ∧ (due (timer p) ≤ clock w)%Z ∧
       runIn (owner p) (runCallback P (clock w) (callback (timer p)))
         {| clock := clock w; managers := managers w;
            pending := delete i (pending w); chroma := chroma w; log := log w |} = (r, w').
Proof.
  unfold fire. intros Hfire.
  destruct (pending w !! i) as [p|]; [|discriminate].
  destruct (due (timer p) <=? clock w)%Z eqn:Hdue; [|discriminate].
  injection Hfire as Hrun. exists p. repeat split; [|exact Hrun].
  now apply Z.leb_le.
Qed.

(** X9.  A timer callback leaves the queue when it runs and registers no
    timer.  It changes one buffer at most: the buffer of its own session
    in the manager of the request that registered it.  Every other buffer
    of the process is as it was. *)
Theorem timer_touches_one_buffer (P : Providers) (i : nat) (w w' : World) (r : Res (option Response)) (p : Pending) :
  fire P i w = Some (r, w') → pending w !! i = Some p →
  pending w' = delete i (pending w) ∧
  length (managers w') = length (managers w) ∧
  ∀ (m : nat) (bs : BufferStore),
    managers w !! m = Some bs →
    ∃ bs', managers w' !! m = Some bs' ∧
           ∀ k, m ≠ owner p ∨ k ≠ callbackSession (callback (timer p)) →
                bs' !! k = bs !! k.
Proof.
  intros Hfire Hp. apply fire_inv in Hfire as (p' & Hp' & _ & Hrun).
  rewrite Hp in Hp'. injection Hp' as <-.
  unfold runIn in Hrun. cbn [managers pending chroma log clock] in Hrun.
  destruct (managers w !! owner p) as [bs0|] eqn:Hm0.
  - destruct (runCallback _ _ _ _) as [r0 s0] eqn:E. injection Hrun as <- <-.
    pose proof (runCallback_frame _ _ _ _ _ _ E) as [Ht _].
    pose proof (runCallback_orderly _ _ _ _ _ _ E) as (_ & Honly & _).
    cbn [timers buffers] in Ht, Honly. cbn [pending managers].
    rewrite Ht. cbn [map]. rewrite app_nil_r, length_insert.
    repeat split. intros m bs Hm.
    destruct (decide (m = owner p)) as [->|Hne].
    + exists (buffers s0).
      rewrite list_lookup_insert_eq by (now apply lookup_lt_Some with bs0).
      split; [reflexivity|]. intros k [Hk|Hk]; [done|].
      rewrite Hm0 in Hm. injection Hm as <-. now apply Honly.
    + exists bs. now rewrite list_lookup_insert_ne by congruence.
  - injection Hrun as <- <-. cbn [pending managers]. repeat split. eauto.
Qed.

(** ** The invariant of the timers *)

Lemma segmentStep_loopState (P : Providers) (now : Z) (n : nat) (sid : string) (seg : Segment) (m : BufferStore) b c l t :
  loopState now sid b t →
  ∃ r b' c' l' t',
    segmentStep P now n sid seg ⟨sid ↦ b; m; c; l; t⟩ = (r, ⟨sid ↦ b'; m; c'; l'; t'⟩) ∧
    loopState now sid b' t'.
Proof.
  intros (Hrs & Hla & Ht).
  assert (Hw : ∀ b0 c0 l0,
    responseSent b0 = responseSent b → triggerDetected b0 = triggerDetected b →
    triggerTime b0 = triggerTime b → lastActivity b0 = now →
    ∃ b' t', watchTrigger now sid (toLowerCase (text seg)) ⟨sid ↦ b0; m; c0; l0; t⟩ =
             (Ok tt, ⟨sid ↦ b'; m; c0; l0; t'⟩) ∧ loopState now sid b' t').
  { intros b0 c0 l0 H1 H2 H3 H4. rewrite watchTrigger_bound.
    destruct (hasTrigger _); [destruct (triggerDetected b0) eqn:Htd|];
      do 2 eexists; (split; [reflexivity|]); unfold loopState; cbn;
      (split; [congruence|]); (split; [congruence|]);
      destruct Ht as [->|(-> & Ht1 & Ht2)];
      first [ left; reflexivity
            | right; repeat split; congruence
            | exfalso; congruence ]. }
  destruct (flushDecision n (toLowerCase (text seg))) eqn:Hf.
  - destruct (embeddingsCreate P (length l) && collectionAdd P (S (length l))) eqn:Hok.
    + apply andb_prop in Hok as [He Ha].
      rewrite (segmentStep_flush P now n sid seg m b c l t Hf He Ha).
      edestruct Hw as (b' & t' & -> & Hl'); [| | | |eauto 10]; reflexivity.
    + rewrite (segmentStep_flush_fails P now n sid seg m b c l t Hf Hok).
      do 5 eexists. split; [reflexivity|]. unfold loopState. cbn. auto.
  - rewrite (segmentStep_no_flush P now n sid seg m b c l t Hf).
    edestruct Hw as (b' & t' & -> & Hl'); [| | | |eauto 10]; reflexivity.
Qed.

Lemma forEach_loopState (P : Providers) (now : Z) (n : nat) (sid : string) (segs : list Segment) (m : BufferStore) b c l t :
  loopState now sid b t →
  ∃ r b' c' l' t',
    forEach (segmentStep P now n sid) segs ⟨sid ↦ b; m; c; l; t⟩ =
      (r, ⟨sid ↦ b'; m; c'; l'; t'⟩) ∧
    loopState now sid b' t'.
Proof.
  revert b c l t. induction segs as [|seg segs IH]; intros b c l t Hb.
  - exists (Ok tt), b, c, l, t. auto.
  - cbn [forEach].
    destruct (segmentStep_loopState P now n sid seg m b c l t Hb)
      as ([u|e] & b1 & c1 & l1 & t1 & Hstep & Hb1).
    + rewrite (bind_Ok _ _ _ _ _ Hstep). now apply IH.
    + rewrite (bind_Throw _ _ _ _ _ Hstep). eauto 10.
Qed.

(** What a request hands over to the process: one buffer and the timers of
    its loop, followed by its reaper when the loop ran to its end. *)
Lemma ingest_loopState (P : Providers) (now : Z) (sid : string) (segs : list Segment) c l :
  inherited sid = false →
  ∃ r b c' l' t0 t1,
    ingest P now sid segs {| buffers := ∅; collection := c; calls := l; timers := [] |} =
      (r, ⟨sid ↦ b; ∅; c'; l'; t0 ++ t1⟩) ∧
    loopState now sid b t0 ∧
    ((∃ e, r = Throw e) ∧ t1 = [] ∨
     r = Ok {| body := StatusBody "success"; httpStatus := 200 |} ∧
     t1 = [{| due := now + BUFFER_TIMEOUT; callback := StaleReaper sid |}]).
Proof.
  intros Hi. rewrite ingest_start by exact Hi.
  destruct (forEach_loopState P now (length segs) sid segs ∅ (freshBuffer now) c l [])
    as ([u|e] & b & c' & l' & t' & Hloop & Hb).
  { unfold loopState. cbn. auto. }
  - rewrite (bind_Ok _ _ _ _ _ Hloop).
    exists (Ok {| body := StatusBody "success"; httpStatus := 200 |}), b, c', l', t',
      [{| due := now + BUFFER_TIMEOUT; callback := StaleReaper sid |}]. auto.
  - rewrite (bind_Throw _ _ _ _ _ Hloop).
    exists (Throw e), b, c', l', t', []. rewrite app_nil_r. eauto 10.
Qed.

Lemma timerIsSound_mono (w w' : World) (p : Pending) :
  (∀ m bs, managers w !! m = Some bs → managers w' !! m = Some bs) →
  timerIsSound w p → timerIsSound w' p.
Proof. intros Hm (bs & b & H1 & H2 & H3). exists bs, b. auto. Qed.

Lemma reaperIsOrphan_mono (w w' : World) (p : Pending) :
  (∀ m bs, managers w !! m = Some bs → managers w' !! m = Some bs) →
  reaperIsOrphan w p → reaperIsOrphan w' p.
Proof. intros Hm (sid & H1 & H2 & H3). exists sid. auto. Qed.

(** A reaper that finds no buffer under an inherited name does nothing. *)
Lemma reaperCallback_inherited (P : Providers) (now : Z) (sid : string) (s : Scope) :
  buffers s !! sid = None → inherited sid = true →
  reaperCallback P now sid s = (Ok tt, s).
Proof.
  intros Hb Hi. unfold reaperCallback.
  now rewrite (bind_Ok _ _ _ _ _ (getBuffer_inherited now _ _ Hb Hi)).
Qed.

(** What a timer callback does to the buffer of its session. *)
Lemma runCallback_effect (P : Providers) (now : Z) (cb : Callback) (bs : BufferStore) c l (b0 : MessageBuffer) :
  bs !! callbackSession cb = Some b0 →
  ∃ r b' c' l',
    runCallback P now cb {| buffers := bs; collection := c; calls := l; timers := [] |} =
      (r, ⟨callbackSession cb ↦ b'; bs; c'; l'; []⟩) ∧
    lastActivity b' = lastActivity b0 ∧
    match cb with
    | StaleReaper _ =>
        triggerDetected b' = triggerDetected b0 ∧
        responseSent b' = responseSent b0 ∧
        triggerTime b' = triggerTime b0
    | RecallDispatch _ => True
    end.
Proof.
  intros Hb.
  rewrite (scope_bound {| buffers := bs; collection := c; calls := l; timers := [] |}
             (callbackSession cb) b0 Hb).
  cbn [buffers collection calls timers].
  destruct cb as [sid|sid]; cbn [runCallback callbackSession] in *.
  - rewrite recallCallback_bound. cbv zeta.
    repeat match goal with
           | |- context [if ?x then _ else _] => destruct x
           | |- context [match ?x with Some _ => _ | None => _ end] => destruct x
           end; eauto 10.
  - unfold reaperCallback. rewrite ?bind_assoc.
    rewrite (bind_Ok _ _ _ _ _ (getBuffer_bound _ _ _ _ _ _ _)).
    destruct (BUFFER_TIMEOUT <=? now - lastActivity b0)%Z.
    + unfold mbind, M_bind. rewrite processBuffer_bound. cbv zeta.
      destruct (messages b0);
        repeat match goal with
               | |- context [if ?x then _ else _] => destruct x
               end; eauto 10.
    + rewrite (bind_Ok _ _ _ _ _ (mret_at _ _)). eauto 10.
Qed.

(** The memory endpoint either does nothing, or adds one manager without
    buffers and no timer. *)
Lemma memory_endpoint_shape (P : Providers) (uid : option string) (memory : Memory) (w : World) :
  (webhookMemory P uid memory w).2 = w ∨
  ∃ c' l',
    (webhookMemory P uid memory w).2 =
    {| clock := clock w; managers := managers w ++ [∅];
       pending := pending w; chroma := c'; log := l' |}.
Proof.
  unfold webhookMemory. destruct (falsy uid); [now left|]. right.
  destruct (processMemoryObject P (clock w) memory (default "" uid)
              {| buffers := ∅; collection := chroma w; calls := log w; timers := [] |})
    as [r s1] eqn:E.
  pose proof (memory_parts_aux _ _ _ _ _ _ _ E) as (k & _ & _ & _ & Hb & Ht).
  cbn [buffers timers] in Hb, Ht.
  exists (collection s1), (calls s1).
  destruct r as [[]|e].
  - rewrite (runIn_new_manager _ w _ s1) by (now rewrite (bind_Ok _ _ _ _ _ E)).
    cbn [snd]. rewrite Hb, Ht. cbn [map]. now rewrite app_nil_r.
  - rewrite (runIn_new_manager _ w _ s1) by (now rewrite (bind_Throw _ _ _ _ _ E)).
    cbn [snd]. rewrite Hb, Ht. cbn [map]. now rewrite app_nil_r.
Qed.

Lemma webhook_keeps_timers_sound (P : Providers) (data : WebhookData) (w : World) :
  timersAreSound w → timersAreSound (webhook P data w).2.
Proof.
  intros (Ha & Hb & Hc). destruct data as [[sid|] segs];
    [destruct (decide (sid = "")) as [->|Hne]|]; [done| |done].
  rewrite (webhook_runs_on_new_manager P sid segs w Hne).
  destruct (inherited sid) eqn:Hinh.
  { rewrite (ingest_inherited P (clock w) sid _ _ _ Hinh).
    assert (Hmono : ∀ m bs, managers w !! m = Some bs →
                            (managers w ++ [∅]) !! m = Some bs).
    { intros m bs Hm. rewrite lookup_app_l; [exact Hm | now apply lookup_lt_Some with bs]. }
    assert (Hempty : ∀ m bs k, (managers w ++ [∅]) !! m = Some bs → is_Some (bs !! k) →
                               managers w !! m = Some bs).
    { intros m bs k Hm Hk. apply lookup_app_Some in Hm as [Hm|[Hlen Hm]]; [exact Hm|].
      destruct (m - length (managers w))%nat; [|discriminate]. injection Hm as <-.
      destruct Hk as [x Hx]. now rewrite lookup_empty in Hx. }
    assert (Hkeep : ∀ p, p ∈ pending w →
              timerIsSound {| clock := clock w; managers := managers w ++ [∅];
                              pending := pending w; chroma := chroma w; log := log w |} p ∨
              reaperIsOrphan {| clock := clock w; managers := managers w ++ [∅];
                                pending := pending w; chroma := chroma w; log := log w |} p).
    { intros p Hp. destruct (Hb p Hp) as [H|H];
        [left; now apply (timerIsSound_mono w) | right; now apply (reaperIsOrphan_mono w)]. }
    assert (Hrec : ∀ i p sp, pending w !! i = Some p →
              callback (timer p) = RecallDispatch sp →
              (owner p < length (managers w))%nat).
    { intros i p sp Hi Hp. destruct (Hb p (list_elem_of_lookup_2 _ _ _ Hi))
        as [(bs & _ & Hm & _)|(s' & Hcb & _)]; [|congruence].
      now apply lookup_lt_Some with bs. }
    destruct (default [] segs); cbn [snd buffers timers map];
      (split; [|split]); cbn [managers pending].
    - intros m bs k1 k2 Hm H1 H2. apply (Ha m bs); [|exact H1|exact H2].
      now apply Hempty with k1.
    - intros p [Hp|Hp]%elem_of_app.
      + destruct (Hkeep p Hp) as [(bs & b & H1 & H2 & H3)|(s' & H1 & H2 & H3)];
          [left; exists bs, b | right; exists s']; auto.
      + apply list_elem_of_singleton in Hp. subst p. right. exists sid. cbn.
        rewrite list_lookup_middle by reflexivity. auto.
    - intros i j p q sp sq Hi Hj Hp Hq Hown.
      apply lookup_app_Some in Hi as [Hi|[Hil Hi]];
        apply lookup_app_Some in Hj as [Hj|[Hjl Hj]].
      + now apply (Hc i j p q sp sq).
      + destruct (j - length (pending w))%nat; [|discriminate].
        injection Hj as <-. discriminate.
      + destruct (i - length (pending w))%nat; [|discriminate].
        injection Hi as <-. discriminate.
      + destruct (i - length (pending w))%nat; [|discriminate].
        injection Hi as <-. discriminate.
    - intros m bs k1 k2 Hm H1 H2. apply (Ha m bs); [|exact H1|exact H2].
      now apply Hempty with k1.
    - rewrite app_nil_r. intros p Hp.
      destruct (Hkeep p Hp) as [(bs & b & H1 & H2 & H3)|(s' & H1 & H2 & H3)];
        [left; exists bs, b | right; exists s']; auto.
    - rewrite app_nil_r. exact Hc. }
  destruct (ingest_loopState P (clock w) sid (default [] segs) (chroma w) (log w) Hinh)
    as (r & b & c' & l' & t0 & t1 & -> & (Hrs & Hla & Ht0) & Ht1).
  cbn [snd buffers timers].
  set (now := clock w) in *. set (n := length (managers w)) in *.
  assert (Hmono : ∀ m bs, managers w !! m = Some bs →
                          (managers w ++ [<[sid:=b]> ∅]) !! m = Some bs).
  { intros m bs Hm. rewrite lookup_app_l; [exact Hm | now apply lookup_lt_Some with bs]. }
  assert (Hnew : ∀ k x, (t0 ++ t1) !! k = Some x →
            timerIsSound
              {| clock := now; managers := managers w ++ [<[sid:=b]> ∅];
                 pending := pending w ++ map (λ t, {| owner := n; timer := t |}) (t0 ++ t1);
                 chroma := c'; log := l' |}
              {| owner := n; timer := x |} ∧
            (∀ s', callback x = RecallDispatch s' → k = 0%nat)).
  { intros k x Hx. apply lookup_app_Some in Hx as [Hx|[Hk Hx]].
    - destruct Ht0 as [->|(-> & Htd & Htt)]; [discriminate|].
      destruct k; [|discriminate]. injection Hx as <-. split; [|auto].
      exists (<[sid:=b]> ∅), b. cbn. unfold n.
      rewrite list_lookup_middle by reflexivity. rewrite lookup_insert_eq.
      repeat split; auto. congruence.
    - destruct Ht1 as [[_ ->] | [_ ->]]; [discriminate|].
      destruct (k - length t0)%nat; [|discriminate]. injection Hx as <-. split.
      + exists (<[sid:=b]> ∅), b. cbn. unfold n.
        rewrite list_lookup_middle by reflexivity. rewrite lookup_insert_eq.
        repeat split; auto. lia.
      + intros s' H. discriminate. }
  split; [|split]; cbn [managers pending].
  - intros m bs k1 k2 Hm H1 H2. apply lookup_app_Some in Hm as [Hm|[Hlen Hm]].
    + now apply (Ha m bs).
    + destruct (m - length (managers w))%nat; [|discriminate]. injection Hm as <-.
      apply lookup_insert_is_Some in H1 as [->|[_ [x Hx]]]; [|now rewrite lookup_empty in Hx].
      apply lookup_insert_is_Some in H2 as [->|[_ [x Hx]]]; [|now rewrite lookup_empty in Hx].
      reflexivity.
  - intros p [Hp|Hp]%elem_of_app.
    + destruct (Hb p Hp) as [H|H];
        [left; now apply (timerIsSound_mono w) | right; now apply (reaperIsOrphan_mono w)].
    + apply list_elem_of_fmap in Hp as (x & -> & Hx).
      apply list_elem_of_lookup_1 in Hx as [k Hx]. left. now apply (Hnew k x).
  - intros i j p q sp sq Hi Hj Hp Hq Hown.
    apply lookup_app_Some in Hi as [Hi|[Hil Hi]];
      apply lookup_app_Some in Hj as [Hj|[Hjl Hj]].
    + now apply (Hc i j p q sp sq).
    + exfalso. apply list_lookup_fmap_Some in Hj as (x & -> & Hx). cbn in Hown.
      destruct (Hb p (list_elem_of_lookup_2 _ _ _ Hi))
        as [(bs & _ & Hm & _)|(s' & Hcb & _)]; [|congruence].
      apply lookup_lt_Some in Hm. unfold n in Hown. lia.
    + exfalso. apply list_lookup_fmap_Some in Hi as (x & -> & Hx). cbn in Hown.
      destruct (Hb q (list_elem_of_lookup_2 _ _ _ Hj))
        as [(bs & _ & Hm & _)|(s' & Hcb & _)]; [|congruence].
      apply lookup_lt_Some in Hm. unfold n in Hown. lia.
    + apply list_lookup_fmap_Some in Hi as (x & -> & Hx).
      apply list_lookup_fmap_Some in Hj as (y & -> & Hy). cbn in Hp, Hq.
      destruct (Hnew _ x Hx) as [_ H0x]. destruct (Hnew _ y Hy) as [_ H0y].
      specialize (H0x sp Hp). specialize (H0y sq Hq). lia.
Qed.

Lemma memory_keeps_timers_sound (P : Providers) (uid : option string) (memory : Memory) (w : World) :
  timersAreSound w → timersAreSound (webhookMemory P uid memory w).2.
Proof.
  intros (Ha & Hb & Hc).
  destruct (memory_endpoint_shape P uid memory w) as [->|(c' & l' & ->)];
    [now repeat split|].
  split; [|split]; cbn [managers pending].
  - intros m bs k1 k2 Hm H1 H2. apply lookup_app_Some in Hm as [Hm|[Hlen Hm]].
    + now apply (Ha m bs).
    + destruct (m - length (managers w))%nat; [|discriminate]. injection Hm as <-.
      destruct H1 as [x Hx]. now rewrite lookup_empty in Hx.
  - assert (Hmono : ∀ m bs, managers w !! m = Some bs →
                            (managers w ++ [∅]) !! m = Some bs).
    { intros m bs Hm. rewrite lookup_app_l; [exact Hm | now apply lookup_lt_Some with bs]. }
    intros p Hp. destruct (Hb p Hp) as [H|H];
      [left; now apply (timerIsSound_mono w) | right; now apply (reaperIsOrphan_mono w)].
  - exact Hc.
Qed.

Lemma lookup_delete_original {A : Type} (l : list A) (i j : nat) (x : A) :
  delete i l !! j = Some x →
  ∃ j', l !! j' = Some x ∧ j' ≠ i ∧ j' = (if decide (j < i)%nat then j else S j).
Proof.
  intros H. destruct (decide (j < i)%nat) as [Hlt|Hge].
  - rewrite list_lookup_delete_lt in H by exact Hlt. exists j. repeat split; [exact H | lia].
  - rewrite list_lookup_delete_ge in H by lia. exists (S j). repeat split; [exact H | lia].
Qed.

Lemma fire_keeps_timers_sound (P : Providers) (i : nat) (w w' : World) (r : Res (option Response)) :
  timersAreSound w → fire P i w = Some (r, w') → timersAreSound w'.
Proof.
  intros (Ha & Hb & Hc) Hfire.
  apply fire_inv in Hfire as (p0 & Hp0 & _ & Hrun).
  assert (Hrec : ∀ j1 j2 p q sp sq,
            delete i (pending w) !! j1 = Some p → delete i (pending w) !! j2 = Some q →
            callback (timer p) = RecallDispatch sp →
            callback (timer q) = RecallDispatch sq → owner p = owner q → j1 = j2).
  { intros j1 j2 p q sp sq Hj1 Hj2 Hp Hq Hown.
    apply lookup_delete_original in Hj1 as (j1' & Hj1 & _ & E1).
    apply lookup_delete_original in Hj2 as (j2' & Hj2 & _ & E2).
    pose proof (Hc j1' j2' p q sp sq Hj1 Hj2 Hp Hq Hown) as Heq.
    destruct (decide (j1 < i)%nat), (decide (j2 < i)%nat); lia. }
  unfold runIn in Hrun. cbn [managers pending chroma log clock] in Hrun.
  destruct (Hb p0 (list_elem_of_lookup_2 _ _ _ Hp0))
    as [(bs0 & b0 & Hm0 & Hb0 & Hs0)|(s0 & Hcb0 & Hi0 & Hm0)].
  - rewrite Hm0 in Hrun.
    destruct (runCallback_effect P (clock w) (callback (timer p0)) bs0 (chroma w) (log w) b0 Hb0)
      as (r0 & b' & c' & l' & E & Hla & Hkeep).
    rewrite E in Hrun. injection Hrun as <- <-. cbn [timers buffers map].
    rewrite app_nil_r.
    set (sid0 := callbackSession (callback (timer p0))) in *.
    assert (Hlen : (owner p0 < length (managers w))%nat) by (now apply lookup_lt_Some with bs0).
    split; [|split]; cbn [managers pending]; [| |exact Hrec].
    + intros m bs k1 k2 Hm H1 H2. destruct (decide (m = owner p0)) as [->|Hne].
      * rewrite list_lookup_insert_eq in Hm by exact Hlen. injection Hm as <-.
        apply (Ha (owner p0) bs0); [exact Hm0| |].
        -- apply lookup_insert_is_Some in H1 as [<-|[_ H1]]; [now rewrite Hb0 | exact H1].
        -- apply lookup_insert_is_Some in H2 as [<-|[_ H2]]; [now rewrite Hb0 | exact H2].
      * rewrite list_lookup_insert_ne in Hm by congruence. now apply (Ha m bs).
    + intros q Hq. apply list_elem_of_lookup_1 in Hq as [j Hq].
      apply lookup_delete_original in Hq as (j' & Hq & Hji & _).
      destruct (Hb q (list_elem_of_lookup_2 _ _ _ Hq))
        as [(bsq & bq & Hmq & Hbq & Hsq)|(sq & Hcq & Hiq & Hmq)].
      * left. destruct (decide (owner q = owner p0)) as [Heq|Hne].
        -- rewrite Heq, Hm0 in Hmq. injection Hmq as <-.
           assert (Hk : callbackSession (callback (timer q)) = sid0).
           { apply (Ha (owner p0) bs0); [exact Hm0 | now rewrite Hbq | now rewrite Hb0]. }
           rewrite Hk, Hb0 in Hbq. injection Hbq as <-.
           exists (<[sid0:=b']> bs0), b'. cbn [managers]. rewrite Heq, Hk.
           rewrite list_lookup_insert_eq by exact Hlen. rewrite lookup_insert_eq.
           split; [reflexivity|]. split; [reflexivity|].
           destruct (callback (timer q)) as [sq|sq] eqn:Hcq.
           ++ destruct (callback (timer p0)) as [sp|sp] eqn:Hcp.
              ** exfalso. apply Hji. symmetry in Heq.
                 exact (Hc j' i q p0 sq sp Hq Hp0 Hcq Hcp (eq_sym Heq)).
              ** destruct Hkeep as (H1 & H2 & H3). rewrite H1, H2, H3. exact Hsq.
           ++ rewrite Hla. exact Hsq.
        -- exists bsq, bq. cbn [managers].
           rewrite list_lookup_insert_ne by congruence. auto.
      * right. exists sq. split; [exact Hcq|]. split; [exact Hiq|]. cbn [managers].
        destruct (decide (owner q = owner p0)) as [Heq|Hne].
        -- rewrite Heq, Hm0 in Hmq. injection Hmq as ->.
           now rewrite lookup_empty in Hb0.
        -- now rewrite list_lookup_insert_ne by congruence.
  - rewrite Hm0, Hcb0 in Hrun. cbn [runCallback] in Hrun.
    rewrite (bind_Ok _ _ _ _ _
               (reaperCallback_inherited P (clock w) s0 _ (lookup_empty _) Hi0)) in Hrun.
    injection Hrun as <- <-. cbn [timers buffers map].
    rewrite app_nil_r, (list_insert_id _ _ _ Hm0).
    split; [|split]; cbn [managers pending]; [exact Ha| |exact Hrec].
    intros q Hq. apply list_elem_of_lookup_1 in Hq as [j Hq].
    apply lookup_delete_original in Hq as (j' & Hq & _ & _).
    destruct (Hb q (list_elem_of_lookup_2 _ _ _ Hq))
      as [(bsq & bq & H1 & H2 & H3)|(sq & H1 & H2 & H3)];
      [left; exists bsq, bq | right; exists sq]; auto.
Qed.

Lemma boot_timers_sound : timersAreSound boot.
Proof.
  split; [|split].
  - intros m bs k1 k2 Hm. discriminate.
  - intros p Hp. inversion Hp.
  - intros i j p q sp sq Hi. discriminate.
Qed.

Lemma step_keeps_timers_sound (P : Providers) (w w' : World) :
  step P w w' → timersAreSound w → timersAreSound w'.
Proof.
  intros [data w0|uid memory w0|ms w0 Hms|i w0 w1 r Hfire] Hinv.
  - now apply webhook_keeps_timers_sound.
  - now apply memory_keeps_timers_sound.
  - exact Hinv.
  - now apply fire_keeps_timers_sound with P i w0 r.
Qed.

Lemma run_keeps_timers_sound (P : Providers) (w w' : World) :
  run P w w' → timersAreSound w → timersAreSound w'.
Proof.
  induction 1 as [w|w w1 w2 Hstep _ IH]; [done|].
  intros Hinv. apply IH. now apply step_keeps_timers_sound with P w.
Qed.

(** Buffers are created by [getBuffer] only, and never under an inherited
    name. *)
Lemma runCallback_own (P : Providers) (now : Z) (cb : Callback) (s s1 : Scope) (r : Res (option Response)) (k : string) :
  runCallback P now cb s = (r, s1) →
  is_Some (buffers s1 !! k) → is_Some (buffers s !! k) ∨ inherited k = false.
Proof.
  intros Hrun Hk.
  destruct (decide (k = callbackSession cb)) as [->|Hne].
  - destruct (buffers s !! callbackSession cb) eqn:Hb; [left; eauto|].
    destruct (inherited (callbackSession cb)) eqn:Hi; [|now right].
    exfalso. destruct cb as [sid|sid]; cbn [runCallback callbackSession] in *.
    + rewrite recallCallback_inherited in Hrun by exact Hb.
      injection Hrun as <- <-. rewrite Hb in Hk. now destruct Hk.
    + rewrite (bind_Ok _ _ _ _ _ (reaperCallback_inherited P now sid _ Hb Hi)) in Hrun.
      injection Hrun as <- <-. rewrite Hb in Hk. now destruct Hk.
  - apply runCallback_orderly in Hrun as (_ & Honly & _).
    left. now rewrite <- (Honly k Hne).
Qed.

Lemma step_keeps_buffers_own (P : Providers) (w w' : World) :
  step P w w' → buffersAreOwn w → buffersAreOwn w'.
Proof.
  intros [data w0|uid memory w0|ms w0 Hms|i w0 w1 r Hfire] Hinv.
  - destruct data as [[sid|] segs];
      [destruct (decide (sid = "")) as [->|Hne]|]; [exact Hinv| |exact Hinv].
    rewrite (webhook_runs_on_new_manager P sid segs w0 Hne).
    intros m bs k Hm Hk.
    assert (Hnew : ∀ k, is_Some (buffers
                     (ingest P (clock w0) sid (default [] segs)
                        {| buffers := ∅; collection := chroma w0;
                           calls := log w0; timers := [] |}).2 !! k) →
                   inherited k = false).
    { clear. intros k Hk. destruct (inherited sid) eqn:Hi.
      - rewrite (ingest_inherited P (clock w0) sid _ _ _ Hi) in Hk.
        destruct (default [] segs); cbn in Hk; rewrite lookup_empty in Hk; now destruct Hk.
      - destruct (ingest_shape P (clock w0) sid (default [] segs) (chroma w0) (log w0) Hi)
          as (r & b & c' & l' & t' & E & _). rewrite E in Hk. cbn in Hk.
        apply lookup_insert_is_Some in Hk as [<-|[_ Hk]]; [exact Hi|].
        rewrite lookup_empty in Hk. now destruct Hk. }
    destruct (ingest _ _ _ _ _) as [r s]. cbn [snd managers buffers] in *.
    apply lookup_app_Some in Hm as [Hm|[_ Hm]]; [now apply (Hinv m bs)|].
    destruct (m - length (managers w0))%nat; [|discriminate]. injection Hm as <-.
    now apply Hnew.
  - destruct (memory_endpoint_shape P uid memory w0) as [->|(c' & l' & ->)]; [exact Hinv|].
    intros m bs k Hm Hk. cbn [managers] in Hm.
    apply lookup_app_Some in Hm as [Hm|[_ Hm]]; [now apply (Hinv m bs)|].
    destruct (m - length (managers w0))%nat; [|discriminate]. injection Hm as <-.
    rewrite lookup_empty in Hk. now destruct Hk.
  - exact Hinv.
  - apply fire_inv in Hfire as (p & Hp & _ & Hrun).
    unfold runIn in Hrun. cbn [managers pending chroma log clock] in Hrun.
    destruct (managers w0 !! owner p) as [bs0|] eqn:Hm0;
      [|injection Hrun as <- <-; exact Hinv].
    destruct (runCallback _ _ _ _) as [r0 s0] eqn:E. injection Hrun as <- <-.
    intros m bs k Hm Hk. cbn [managers] in Hm.
    destruct (decide (m = owner p)) as [->|Hne].
    + rewrite list_lookup_insert_eq in Hm by (now apply lookup_lt_Some with bs0).
      injection Hm as <-.
      destruct (runCallback_own _ _ _ _ _ _ k E Hk) as [H|H]; [|exact H].
      now apply (Hinv (owner p) bs0).
    + rewrite list_lookup_insert_ne in Hm by congruence. now apply (Hinv m bs).
Qed.

Lemma run_keeps_buffers_own (P : Providers) (w : World) :
  run P boot w → buffersAreOwn w.
Proof.
  intros Hrun. assert (H0 : buffersAreOwn boot) by (intros m bs k Hm; discriminate).
  revert H0. induction Hrun as [w|w w1 w2 Hstep _ IH]; [done|].
  intros Hinv. apply IH. now apply step_keeps_buffers_own with P w.
Qed.

(** X10.  In every run of the process, a pending recall timer belongs to a
    window that is open and unanswered: the buffer of its session exists in
    its manager with [triggerDetected = true] and [responseSent = false],
    and the timer is due [QUESTION_COLLECTION_TIMEOUT] after the window
    was opened.  It is the only pending recall timer of that manager.  So
    the guard of line 258 holds whenever a recall timer fires. *)
Theorem recall_timer_finds_its_window_open (P : Providers) (w : World) (i : nat) (p : Pending) (sid : string) :
  run P boot w →
  pending w !! i = Some p → callback (timer p) = RecallDispatch sid →
  (∃ (bs : BufferStore) (b : MessageBuffer),
     managers w !! owner p = Some bs ∧ bs !! sid = Some b ∧
     triggerDetected b = true ∧ responseSent b = false ∧
     due (timer p) = triggerTime b + QUESTION_COLLECTION_TIMEOUT) ∧
  (∀ (j : nat) (q : Pending) (s' : string),
     pending w !! j = Some q → owner q = owner p →
     callback (timer q) = RecallDispatch s' → j = i).
Proof.
  intros Hrun Hp Hcb.
  destruct (run_keeps_timers_sound P boot w Hrun boot_timers_sound) as (Ha & Hb & Hc).
  split.
  - destruct (Hb p (list_elem_of_lookup_2 _ _ _ Hp))
      as [(bs & b & Hm & Hk & Hs)|(s' & Hcb' & _)]; [|congruence].
    rewrite Hcb in Hk, Hs. cbn [callbackSession] in Hk. eauto 10.
  - intros j q s' Hq Hown Hcq. exact (Hc j i q p s' sid Hq Hp Hcq Hcb Hown).
Qed.

Lemma step_keeps_answered (P : Providers) (w w' : World) (m : nat) (bs : BufferStore) (sid : string) (b : MessageBuffer) :
  step P w w' →
  managers w !! m = Some bs → bs !! sid = Some b → responseSent b = true →
  ∃ bs' b', managers w' !! m = Some bs' ∧ bs' !! sid = Some b' ∧ responseSent b' = true.
Proof.
  intros Hstep Hm Hb Hrs.
  assert (Hlt : (m < length (managers w))%nat) by (now apply lookup_lt_Some with bs).
  destruct Hstep as [data w|uid memory w|ms w Hms|i w w1 r Hfire].
  - destruct data as [[s0|] segs]; [destruct (decide (s0 = "")) as [->|Hne]|];
      [eauto| |eauto].
    rewrite (webhook_runs_on_new_manager P s0 segs w Hne).
    destruct (ingest _ _ _ _ _) as [r s]. cbn [snd managers].
    exists bs, b. now rewrite lookup_app_l.
  - destruct (memory_endpoint_shape P uid memory w) as [->|(c' & l' & ->)]; [eauto|].
    exists bs, b. cbn [managers]. now rewrite lookup_app_l.
  - eauto.
  - apply fire_inv in Hfire as (p & Hp & _ & Hrun).
    unfold runIn in Hrun. cbn [managers pending chroma log clock] in Hrun.
    destruct (managers w !! owner p) as [bs0|] eqn:Hm0;
      [|injection Hrun as <- <-; eauto].
    destruct (runCallback _ _ _ _) as [r0 s0] eqn:E. injection Hrun as <- <-.
    cbn [managers]. destruct (decide (m = owner p)) as [->|Hne].
    + rewrite Hm0 in Hm. injection Hm as <-.
      apply runCallback_orderly in E as (_ & _ & Hstay).
      destruct (Hstay sid b Hb) as (b1 & Hb1 & Hr1). cbn [buffers] in Hb1.
      exists (buffers s0), b1. rewrite list_lookup_insert_eq by exact Hlt. auto.
    + exists bs, b. rewrite list_lookup_insert_ne by congruence. auto.
Qed.

(** X11.  A request is answered once at most.  In a run of the process,
    once the buffer of a request says that its response was sent, it says
    so for good, and no recall timer of that request is pending then or at
    any later time: the only timers the request can still have are
    reapers. *)
Theorem answered_request_never_answers_again (P : Providers) (w w' : World) (m : nat) (bs : BufferStore) (sid : string) (b : MessageBuffer) :
  run P boot w →
  managers w !! m = Some bs → bs !! sid = Some b → responseSent b = true →
  run P w w' →
  (∃ bs' b', managers w' !! m = Some bs' ∧ bs' !! sid = Some b' ∧
             responseSent b' = true) ∧
  (∀ p, p ∈ pending w' → owner p = m →
        ∃ s', callback (timer p) = StaleReaper s').
Proof.
  intros Hboot Hm Hb Hrs Hrun.
  assert (Hans : ∃ bs' b', managers w' !! m = Some bs' ∧ bs' !! sid = Some b' ∧
                           responseSent b' = true).
  { clear Hboot. revert bs b Hm Hb Hrs.
    induction Hrun as [w|w w1 w2 Hstep _ IH]; intros bs b Hm Hb Hrs; [eauto|].
    destruct (step_keeps_answered P w w1 m bs sid b Hstep Hm Hb Hrs)
      as (bs1 & b1 & Hm1 & Hb1 & Hrs1).
    exact (IH bs1 b1 Hm1 Hb1 Hrs1). }
  split; [exact Hans|].
  destruct Hans as (bs' & b' & Hm' & Hb' & Hrs').
  assert (Hboot' : run P boot w') by (etransitivity; eassumption).
  destruct (run_keeps_timers_sound P boot w' Hboot' boot_timers_sound) as (Ha & Hs & _).
  intros p Hp Hown. destruct (callback (timer p)) as [s'|s'] eqn:Hcb; [|eauto].
  exfalso. destruct (Hs p Hp) as [(bsp & bp & Hmp & Hbp & Hsound)|(s0 & Hcb0 & _)];
    [|congruence].
  rewrite Hcb in Hbp, Hsound. cbn [callbackSession] in Hbp.
  rewrite Hown, Hm' in Hmp. injection Hmp as <-.
  assert (s' = sid) as -> by (apply (Ha m bs'); [exact Hm' | now rewrite Hbp | now rewrite Hb']).
  rewrite Hb' in Hbp. injection Hbp as <-.
  destruct Hsound as (_ & Hfalse & _). congruence.
Qed.

(** X12.  In every run of the process, a reaper that fires finds the
    buffer of its session idle for [BUFFER_TIMEOUT] at least, so the test
    of line 292 holds and the reaper flushes: when it returns normally the
    buffer is empty, and what was pending has been stored as one memory,
    joined by single spaces; when a provider fails, the buffers and the
    collection are as they were.  The one exception is a session whose id
    is a name inherited from [Object.prototype]: its manager has no buffer,
    the test fails and the reaper does nothing. *)
Theorem reaper_flushes_what_is_pending (P : Providers) (w w' : World) (i : nat) (p : Pending) (sid : string) (r : Res (option Response)) :
  run P boot w →
  pending w !! i = Some p → callback (timer p) = StaleReaper sid →
  fire P i w = Some (r, w') →
  if inherited sid then
    managers w !! owner p = Some ∅ ∧
    r = Ok None ∧ managers w' = managers w ∧ chroma w' = chroma w
  else
    ∃ (bs : BufferStore) (b : MessageBuffer),
      managers w !! owner p = Some bs ∧ bs !! sid = Some b ∧
      (BUFFER_TIMEOUT ≤ clock w - lastActivity b)%Z ∧
      match r with
      | Ok _ =>
          managers w' = <[owner p := <[sid := set_messages [] b]> bs]> (managers w) ∧
          chroma w' = chroma w ++
            match messages b with
            | [] => []
            | _ :: _ => [stored (clock w) sid (join " " (messages b))]
            end
      | Throw _ => managers w' = managers w ∧ chroma w' = chroma w
      end.
Proof.
  intros Hrun Hp Hcb Hfire.
  destruct (run_keeps_timers_sound P boot w Hrun boot_timers_sound) as (_ & Hs & _).
  apply fire_inv in Hfire as (p' & Hp' & Hdue & Hfire).
  rewrite Hp in Hp'. injection Hp' as <-.
  unfold runIn in Hfire. cbn [managers pending chroma log clock] in Hfire.
  destruct (Hs p (list_elem_of_lookup_2 _ _ _ Hp))
    as [(bs & b & Hm & Hb & Hsound)|(s0 & Hcb0 & Hi0 & Hm0)].
  - rewrite Hcb in Hb, Hsound. cbn [callbackSession] in Hb.
    rewrite (run_keeps_buffers_own P w Hrun (owner p) bs sid Hm) by (now rewrite Hb).
    assert (Hold : (BUFFER_TIMEOUT ≤ clock w - lastActivity b)%Z) by lia.
    exists bs, b. repeat split; [exact Hm | exact Hb | exact Hold |].
    rewrite Hm, Hcb in Hfire. cbn [runCallback] in Hfire.
    rewrite (scope_bound {| buffers := bs; collection := chroma w; calls := log w; timers := [] |}
               sid b Hb) in Hfire.
    cbn [buffers collection calls timers] in Hfire.
    unfold mbind at 1, M_bind at 1 in Hfire.
    rewrite (reaperCallback_stale P (clock w) sid
               ⟨sid ↦ b; bs; chroma w; log w; []⟩ b (lookup_insert_eq _ _ _) Hold) in Hfire.
    rewrite processBuffer_bound in Hfire. cbv zeta in Hfire.
    destruct (messages b) as [|x xs] eqn:Hmsg.
    + injection Hfire as <- <-. cbn [managers chroma]. rewrite app_nil_r. split; [|reflexivity].
      do 2 f_equal. destruct b. cbn in Hmsg. now subst.
    + assert (Hid : <[owner p := <[sid := b]> bs]> (managers w) = managers w).
      { rewrite (insert_id bs sid b Hb). now apply list_insert_id. }
      destruct (embeddingsCreate P _); [destruct (collectionAdd P _)|];
        injection Hfire as <- <-; cbn [managers chroma buffers collection]; auto.
  - rewrite Hcb in Hcb0. injection Hcb0 as <-. rewrite Hi0.
    rewrite Hm0, Hcb in Hfire. cbn [runCallback] in Hfire.
    rewrite (bind_Ok _ _ _ _ _
               (reaperCallback_inherited P (clock w) sid _ (lookup_empty _) Hi0)) in Hfire.
    injection Hfire as <- <-. cbn [managers chroma buffers collection].
    rewrite (list_insert_id _ _ _ Hm0). auto.
Qed.

(** ** Sessions of one manager *)

(** X13.  Inside a manager, code that works for one session never touches
    the buffer of another: a flush, a whole request, a recall callback and
    a reaper for session [sid] leave the entry of every other session as
    it is (present or absent). *)
Theorem other_sessions_are_untouched (P : Providers) (now : Z) (sid : string) (segs : list Segment) :
  keeps (onlySession sid) (processBuffer P now sid) ∧
  keeps (onlySession sid) (ingest P now sid segs) ∧
  keeps (onlySession sid) (recallCallback P sid) ∧
  keeps (onlySession sid) (reaperCallback P now sid).
Proof.
  split; [|split; [|split]]; intros s s1 r Hrun.
  - apply processBuffer_orderly in Hrun as (_ & H & _). exact H.
  - apply ingest_orderly in Hrun as (_ & H & _). exact H.
  - apply recallCallback_orderly in Hrun as (_ & H & _). exact H.
  - apply reaperCallback_orderly in Hrun as (_ & H & _). exact H.
Qed.

(** ** Texts *)

Lemma prefix_append (p s : string) :
  String.prefix p s = true ↔ ∃ post, s = String.append p post.
Proof.
  revert p. induction s as [|b s IH]; intros [|a p]; cbn.
  - split; [intros _; exists EmptyString; reflexivity | reflexivity].
  - split; [discriminate | intros [post H]; discriminate].
  - split; [intros _; exists (String b s); reflexivity | reflexivity].
  - destruct (Ascii.ascii_dec a b) as [->|Hne].
    + rewrite IH. split; intros [post H]; exists post;
        [now rewrite H | now injection H].
    + split; [discriminate | intros [post H]; injection H as H1 H2; congruence].
Qed.

Lemma includes_append (s p : string) :
  includes s p = true ↔
  ∃ pre post, s = String.append pre (String.append p post).
Proof.
  induction s as [|c s IH]; cbn [includes].
  - rewrite orb_false_r, prefix_append. split.
    + intros [post H]. exists EmptyString, post. exact H.
    + intros (pre & post & H). destruct pre; [eauto | discriminate].
  - rewrite orb_true_iff, prefix_append, IH. split.
    + intros [[post H]|(pre & post & H)].
      * exists EmptyString, post. exact H.
      * exists (String c pre), post. cbn. now rewrite H.
    + intros (pre & post & H). destruct pre as [|c' pre]; cbn in H.
      * left. eauto.
      * right. injection H as -> ->. eauto.
Qed.

(** X14.  A fragment counts as a recall question exactly when its
    lower-cased text contains "forgot" or "don't remember" as a run of
    consecutive characters, wherever that run is: inside a longer word, at
    the start or at the end. *)
Theorem trigger_is_substring_match (t : string) :
  hasTrigger (toLowerCase t) = true ↔
  ∃ pre post phrase,
    (phrase = "forgot" ∨ phrase = "don't remember") ∧
    toLowerCase t = String.append pre (String.append phrase post).
Proof.
  unfold hasTrigger, TRIGGER_PHRASES. cbn [existsb].
  rewrite orb_false_r, orb_true_iff, !includes_append. split.
  - intros [(pre & post & H)|(pre & post & H)]; eauto 10.
  - intros (pre & post & phrase & [->| ->] & H); eauto.
Qed.

Lemma lastChar_append (s : string) :
  lastChar s = None ∧ s = EmptyString ∨
  ∃ pre c, lastChar s = Some c ∧ s = String.append pre (String c EmptyString).
Proof.
  induction s as [|a s IH]; [now left|]. right.
  destruct IH as [[_ ->]|(pre & c & Hl & ->)].
  - exists EmptyString, a. auto.
  - exists (String a pre), c. split; [|reflexivity].
    cbn [lastChar]. destruct (String.append pre (String c EmptyString)) eqn:E; [|exact Hl].
    destruct pre; discriminate.
Qed.

Lemma lastChar_snoc (pre : string) (c : ascii) :
  lastChar (String.append pre (String c EmptyString)) = Some c.
Proof.
  induction pre as [|a pre IH]; [reflexivity|].
  change (String.append (String a pre) (String c EmptyString))
    with (String a (String.append pre (String c EmptyString))).
  destruct (String.append pre (String c EmptyString)) eqn:E.
  - destruct pre; discriminate.
  - rewrite <- IH. reflexivity.
Qed.

(** X15.  For an ASCII fragment the flush decision of line 245 can be read
    off the fragment as it was sent, lower-casing changes nothing: the
    fragment is flushed exactly when its very last character is [.], [!]
    or [?], or when it is the only fragment of the batch and longer than 50
    characters.  A mark followed by anything, even a blank, does not
    count. *)
Theorem flush_decision_on_raw_text (n : nat) (t : string) :
  isAscii t = true →
  flushDecision n (toLowerCase t) = true ↔
  (∃ pre c, t = String.append pre (String c EmptyString) ∧
            (c = "."%char ∨ c = "!"%char ∨ c = "?"%char)) ∨
  (n = 1%nat ∧ (50 < String.length t)%nat).
Proof.
  intros _. unfold flushDecision.
  rewrite matchSentenceEnd_toLowerCase, toLowerCase_length.
  rewrite orb_true_iff, andb_true_iff, Nat.eqb_eq, Nat.ltb_lt.
  apply or_iff_compat_r. unfold matchSentenceEnd. split.
  - destruct (lastChar_append t) as [[-> _]|(pre & c & -> & ->)]; [discriminate|].
    intros H. apply bool_decide_eq_true in H. exists pre, c. split; [reflexivity|].
    rewrite !elem_of_cons in H. destruct H as [H|[H|[H|H]]]; auto. inversion H.
  - intros (pre & c & -> & Hc). rewrite lastChar_snoc.
    apply bool_decide_eq_true. rewrite !elem_of_cons. tauto.
Qed.

(** ** The recall callback and the providers *)

(** X16.  A recall callback only asks: it stores nothing, registers no
    timer, and leaves [messages] and [lastActivity] of every buffer as they
    are.  Of the calls that the log records it issues at most three, in
    this order: the embedding of the collected question (its fragments
    joined by single spaces), the query for five memories of its own
    session with that question, and the chat completion over the question
    and the documents of the first row joined by newlines. *)
Theorem recall_only_asks (P : Providers) (sid : string) (s s1 : Scope) (r : Res (option Response)) :
  recallCallback P sid s = (r, s1) →
  collection s1 = collection s ∧ timers s1 = timers s ∧
  (∀ k b, buffers s !! k = Some b →
          ∃ b1, buffers s1 !! k = Some b1 ∧
                messages b1 = messages b ∧ lastActivity b1 = lastActivity b) ∧
  match buffers s !! sid with
  | None => calls s1 = calls s
  | Some b =>
      let q := join " " (collectedQuestion b) in
      calls s1 = calls s ∨
      calls s1 = calls s ++ [EmbeddingsCreate q] ∨
      calls s1 = calls s ++ [EmbeddingsCreate q; CollectionQuery q sid 5] ∨
      ∃ results,
        collectionQuery P (S (length (calls s))) = Some results ∧
        calls s1 = calls s ++
          [EmbeddingsCreate q; CollectionQuery q sid 5;
           ChatCompletionsCreate q (join newline (default [] (firstDocuments results)))]
  end.
Proof.
  intros Hrun. destruct (buffers s !! sid) as [b|] eqn:Hb.
  - rewrite (scope_bound s sid b Hb), recallCallback_bound in Hrun. cbv zeta in Hrun.
    cbn [calls] in Hrun.
    assert (Hbuf : ∀ b', messages b' = messages b → lastActivity b' = lastActivity b →
              ∀ k b0, buffers s !! k = Some b0 →
              ∃ b1, <[sid:=b']> (buffers s) !! k = Some b1 ∧
                    messages b1 = messages b0 ∧ lastActivity b1 = lastActivity b0).
    { intros b' H1 H2 k b0 Hk. destruct (decide (sid = k)) as [<-|Hne].
      - rewrite lookup_insert_eq. rewrite Hb in Hk. injection Hk as <-. eauto.
      - rewrite lookup_insert_ne by done. eauto. }
    cbv zeta.
    repeat match type of Hrun with
           | context [if ?x then _ else _] => destruct x
           | context [match ?x with Some _ => _ | None => _ end] => destruct x eqn:?
           end;
      injection Hrun as <- <-; cbn [collection timers buffers calls];
      rewrite <- ?app_assoc; cbn [app];
      (split; [reflexivity|]); (split; [reflexivity|]);
      (split; [now apply Hbuf|]);
      first [ solve [auto]
            | do 3 right; eexists; split; reflexivity ].
  - rewrite recallCallback_inherited in Hrun by exact Hb.
    injection Hrun as <- <-. repeat split; eauto.
Qed.

(** ** A request whose flush fails *)

Lemma forEach_throws (P : Providers) (now : Z) (n : nat) (sid : string) (segs : list Segment) (m : BufferStore) b c l t (e : Error) (s1 : Scope) :
  forEach (segmentStep P now n sid) segs ⟨sid ↦ b; m; c; l; t⟩ = (Throw e, s1) →
  ∃ b', buffers s1 !! sid = Some b' ∧ messages b' ≠ [].
Proof.
  revert b c l t. induction segs as [|seg segs IH]; intros b c l t Hrun.
  - discriminate.
  - cbn [forEach] in Hrun.
    destruct (flushDecision n (toLowerCase (text seg))) eqn:Hf.
    + destruct (embeddingsCreate P (length l) && collectionAdd P (S (length l))) eqn:Hok.
      * apply andb_prop in Hok as [He Ha].
        pose proof (segmentStep_flush P now n sid seg m b c l t Hf He Ha) as Hstep.
        cbv zeta in Hstep.
        edestruct watchTrigger_frame as (b1 & t1 & Hw & _).
        rewrite Hw in Hstep. rewrite (bind_Ok _ _ _ _ _ Hstep) in Hrun.
        now apply IH in Hrun.
      * pose proof (segmentStep_flush_fails P now n sid seg m b c l t Hf Hok) as Hstep.
        cbv zeta in Hstep. rewrite (bind_Throw _ _ _ _ _ Hstep) in Hrun.
        injection Hrun as <- <-. cbn [buffers]. rewrite lookup_insert_eq.
        eexists. split; [reflexivity|]. cbn. now destruct (messages b).
    + pose proof (segmentStep_no_flush P now n sid seg m b c l t Hf) as Hstep.
      edestruct watchTrigger_frame as (b1 & t1 & Hw & _).
      rewrite Hw in Hstep. rewrite (bind_Ok _ _ _ _ _ Hstep) in Hrun.
      now apply IH in Hrun.
Qed.

(** X17.  A request registers its reaper exactly when it returns
    normally; the reaper is due [BUFFER_TIMEOUT] or more after the last
    activity of the buffer, and every other timer of the request is a
    recall timer of its session.  When a flush fails, the request fails
    with it: no reaper is registered for the buffer, and the buffer is left
    with pending messages. *)
Theorem failed_request_registers_no_reaper (P : Providers) (sid : string) (segs : option (list Segment)) (w : World) :
  sid ≠ "" → inherited sid = false →
  ∃ (b : MessageBuffer) (recall reaper : list Timer),
    managers (webhook P {| session_id := Some sid; segments := segs |} w).2 =
      managers w ++ [{[ sid := b ]}] ∧
    pending (webhook P {| session_id := Some sid; segments := segs |} w).2 =
      pending w ++
      map (λ t, {| owner := length (managers w); timer := t |}) (recall ++ reaper) ∧
    Forall (λ t, callback t = RecallDispatch sid) recall ∧
    ((webhook P {| session_id := Some sid; segments := segs |} w).1 =
       Ok {| body := StatusBody "success"; httpStatus := 200 |} ∧
     (∃ t, reaper = [t] ∧ callback t = StaleReaper sid ∧
           (lastActivity b + BUFFER_TIMEOUT ≤ due t)%Z)
     ∨
     (∃ e, (webhook P {| session_id := Some sid; segments := segs |} w).1 = Throw e) ∧
     reaper = [] ∧ messages b ≠ []).
Proof.
  intros Hne Hi. rewrite (webhook_runs_on_new_manager P sid segs w Hne).
  destruct (ingest_loopState P (clock w) sid (default [] segs) (chroma w) (log w) Hi)
    as (r & b & c' & l' & t0 & t1 & E & (_ & Hla & Ht0) & Ht1).
  rewrite E. cbn [fst snd managers pending buffers timers].
  exists b, t0, t1. split; [reflexivity|]. split; [reflexivity|]. split.
  - destruct Ht0 as [->|(-> & _)]; repeat constructor.
  - destruct Ht1 as [[[e ->] ->]|[-> ->]]; [right|left].
    + split; [eauto|]. split; [reflexivity|].
      rewrite ingest_start in E by exact Hi.
      destruct (forEach (segmentStep P (clock w) (length (default [] segs)) sid)
                  (default [] segs)
                  ⟨sid ↦ freshBuffer (clock w); ∅; chroma w; log w; []⟩)
        as [[u|e'] s2] eqn:Hloop.
      * rewrite (bind_Ok _ _ _ _ _ Hloop) in E. discriminate.
      * rewrite (bind_Throw _ _ _ _ _ Hloop) in E. injection E as -> ->.
        apply forEach_throws in Hloop as (b' & Hb' & Hm').
        cbn [buffers] in Hb'. rewrite lookup_insert_eq in Hb'. now injection Hb' as <-.
    + split; [reflexivity|]. eexists. split; [reflexivity|]. cbn [callback due].
      split; [reflexivity | lia].
Qed.

(** ** Further instances *)

Lemma sample_run : run helpful boot afterAnswer.
Proof.
  eapply rtc_l; [apply (step_webhook helpful (request "s" ["i forgot"]) boot)|].
  eapply rtc_l; [apply (step_elapse helpful 2000); lia|].
  eapply rtc_l; [|apply rtc_refl].
  apply (step_fire helpful 0 _ _
           (Ok (Some {| body := MessageBody "they're in the drawer"; httpStatus := 200 |}))).
  vm_compute. reflexivity.
Qed.

Lemma sample_question_run : run helpful boot afterQuestion.
Proof.
  eapply rtc_l; [apply (step_webhook helpful (request "s" ["i forgot"]) boot)|].
  eapply rtc_l; [apply (step_elapse helpful 2000); lia|]. apply rtc_refl.
Qed.

Lemma empty_batch_instance :
  (webhook helpful {| session_id := Some "s"; segments := None |} boot).1 =
    Ok {| body := StatusBody "success"; httpStatus := 200 |} ∧
  managers (webhook helpful {| session_id := Some "s"; segments := None |} boot).2 =
    [ {[ "s" := freshBuffer 0 ]} ] ∧
  pending (webhook helpful {| session_id := Some "s"; segments := None |} boot).2 =
    [ {| owner := 0;
         timer := {| due := 5000; callback := StaleReaper "s" |} |} ] ∧
  chroma (webhook helpful {| session_id := Some "s"; segments := None |} boot).2 = [].
Proof.
  apply (empty_batch_only_arms_reaper helpful "s" None boot).
  - discriminate.
  - now left.
Defined.

Lemma request_ignores_instance :
  (webhook helpful (request "s" ["hello."]) boot).1 =
  (webhook helpful (request "s" ["hello."])
     (webhook helpful {| session_id := Some "s"; segments := None |} boot).2).1.
Proof.
  apply (request_ignores_earlier_requests helpful (request "s" ["hello."]) boot
           (webhook helpful {| session_id := Some "s"; segments := None |} boot).2);
    reflexivity.
Defined.

Lemma every_fragment_instance :
  ∃ (groups : list (list string)) (b : MessageBuffer),
    map document (chroma (webhook helpful (request "s" ["Hello"; "world."; "next"]) boot).2) =
      map (join " ") groups ∧
    concat groups ++ messages b = ["hello"; "world."; "next"].
Proof.
  destruct (successful_request_keeps_every_fragment helpful boot "s"
              ["Hello"; "world."; "next"])
    as (groups & b & added & _ & Hc & Hd & _ & _ & Hcons & _).
  - discriminate.
  - reflexivity.
  - repeat constructor.
  - reflexivity.
  - reflexivity.
  - exists groups, b. rewrite Hc. split; [exact Hd | exact Hcons].
Defined.

Lemma memory_parts_instance :
  ∃ k, collection (processMemoryObject helpful 0 lakeTrip "u" (scopeOf (freshBuffer 0))).2 =
       map (stored 0 "u") (take k (memoryTexts lakeTrip)) ∧
       (k ≤ 3)%nat.
Proof.
  destruct (memory_parts_are_stored_in_order helpful 0 lakeTrip "u"
              (scopeOf (freshBuffer 0))
              (processMemoryObject helpful 0 lakeTrip "u" (scopeOf (freshBuffer 0))).2
              (processMemoryObject helpful 0 lakeTrip "u" (scopeOf (freshBuffer 0))).1)
    as (k & Hk & Hc & _).
  - now destruct (processMemoryObject helpful 0 lakeTrip "u" (scopeOf (freshBuffer 0))).
  - exists k. split; [exact Hc | exact Hk].
Defined.

Lemma timer_touches_instance :
  pending afterAnswer = delete 0%nat (pending afterQuestion).
Proof.
  destruct (timer_touches_one_buffer helpful 0 afterQuestion afterAnswer
              (Ok (Some {| body := MessageBody "they're in the drawer"; httpStatus := 200 |}))
              {| owner := 0; timer := {| due := 2000; callback := RecallDispatch "s" |} |})
    as (Hp & _).
  - vm_compute. reflexivity.
  - vm_compute. reflexivity.
  - exact Hp.
Defined.

Lemma recall_timer_instance :
  ∃ (bs : BufferStore) (b : MessageBuffer),
    managers afterQuestion !! 0%nat = Some bs ∧ bs !! "s" = Some b ∧
    triggerDetected b = true ∧ responseSent b = false.
Proof.
  destruct (recall_timer_finds_its_window_open helpful afterQuestion 0
              {| owner := 0; timer := {| due := 2000; callback := RecallDispatch "s" |} |}
              "s" sample_question_run)
    as ((bs & b & Hm & Hb & Htd & Hrs & _) & _).
  - vm_compute. reflexivity.
  - reflexivity.
  - exists bs, b. auto.
Defined.

Lemma answered_instance :
  run helpful boot afterAnswer ∧
  (∃ bs' b', managers afterAnswer !! 0%nat = Some bs' ∧ bs' !! "s" = Some b' ∧
             responseSent b' = true) ∧
  Forall (λ p, owner p = 0%nat → ∃ s', callback (timer p) = StaleReaper s')
         (pending afterAnswer).
Proof.
  destruct (answered_request_never_answers_again helpful afterAnswer afterAnswer 0
              {[ "s" := set_responseSent true openWindow ]} "s"
              (set_responseSent true openWindow) sample_run)
    as (H1 & H2).
  - vm_compute. reflexivity.
  - vm_compute. reflexivity.
  - reflexivity.
  - apply rtc_refl.
  - split; [exact sample_run|]. split; [exact H1|].
    apply Forall_forall. exact H2.
Defined.

Lemma reaper_flushes_instance :
  ∃ (bs : BufferStore) (b : MessageBuffer),
    managers (elapse 3000 afterAnswer) !! 0%nat = Some bs ∧ bs !! "s" = Some b ∧
    (BUFFER_TIMEOUT ≤ clock (elapse 3000 afterAnswer) - lastActivity b)%Z.
Proof.
  destruct (fire helpful 0 (elapse 3000 afterAnswer)) as [[r w']|] eqn:E;
    [|vm_compute in E; discriminate].
  pose proof (reaper_flushes_what_is_pending helpful (elapse 3000 afterAnswer) w' 0
                {| owner := 0; timer := {| due := 5000; callback := StaleReaper "s" |} |}
                "s" r) as H.
  change (inherited "s") with false in H.
  destruct H as (bs & b & Hm & Hb & Hold & _).
  - eapply rtc_r; [exact sample_run | apply (step_elapse helpful 3000); lia].
  - vm_compute. reflexivity.
  - reflexivity.
  - exact E.
  - exists bs, b. auto.
Defined.

Lemma flush_decision_instance :
  flushDecision 2 (toLowerCase "Is it Monday? ") = true ↔
  (∃ pre c, "Is it Monday? " = String.append pre (String c EmptyString) ∧
            (c = "."%char ∨ c = "!"%char ∨ c = "?"%char)) ∨
  (2 = 1 ∧ 50 < String.length "Is it Monday? ")%nat.
Proof. apply (flush_decision_on_raw_text 2 "Is it Monday? "). reflexivity. Defined.

Lemma recall_only_asks_instance :
  collection answeredRun.2 = [] ∧ timers answeredRun.2 = [].
Proof.
  destruct (recall_only_asks (reliable (found drawer [distance_0_1]) "they're in the drawer")
              "s" (scopeOf openWindow) answeredRun.2 answeredRun.1)
    as (Hc & Ht & _).
  - unfold answeredRun. now destruct (recallCallback _ _ _).
  - split; [exact Hc | exact Ht].
Defined.

Lemma failed_request_instance :
  ∃ (b : MessageBuffer) (recall reaper : list Timer),
    pending (webhook addRejects (request "s" ["hello."]) boot).2 =
      map (λ t, {| owner := 0%nat; timer := t |}) (recall ++ reaper).
Proof.
  destruct (failed_request_registers_no_reaper addRejects "s"
              (Some [{| text := "hello." |}]) boot)
    as (b & recall & reaper & _ & Hp & _).
  - discriminate.
  - reflexivity.
  - exists b, recall, reaper. exact Hp.
Defined.

(** ** The "nothing remembered" message *)

(** X18.  The fixed message of line 267 is out of reach for a well-formed
    query response.  When an empty row of documents comes without a best
    distance (the rows of documents and of distances have the same
    length), every response that the recall callback returns is the text
    of the chat completion: an empty result is rejected by the test of
    line 263 before line 264 can see it, and the callback returns
    nothing. *)
Theorem every_response_comes_from_the_chat (P : Providers) (sid : string) (s s1 : Scope) (b : MessageBuffer) (results : option QueryResponse) (response : Response) :
  buffers s !! sid = Some b →
  collectionQuery P (S (length (calls s))) = Some results →
  (firstDocuments results = Some [] → bestDistance results = None) →
  recallCallback P sid s = (Ok (Some response), s1) →
  ∃ content,
    chatCompletionsCreate P (S (S (length (calls s)))) = Some content ∧
    response = {| body := MessageBody content; httpStatus := 200 |} ∧
    firstDocuments results ≠ Some [] ∧ firstDocuments results ≠ None.
Proof.
  intros Hb Hq Hwf Hrun.
  rewrite (scope_bound s sid b Hb), recallCallback_bound in Hrun. cbv zeta in Hrun.
  cbn [calls] in Hrun. rewrite Hq in Hrun.
  destruct (triggerDetected b && negb (responseSent b)); [|discriminate].
  destruct (embeddingsCreate P _); [|discriminate].
  destruct (accepted results) eqn:Hacc; [|discriminate].
  unfold accepted in Hacc.
  destruct (firstDocuments results) as [[|d docs]|] eqn:Hdocs; [| |discriminate].
  - rewrite (Hwf eq_refl) in Hacc. discriminate.
  - cbn [default from_option id length Nat.eqb] in Hrun.
    destruct (chatCompletionsCreate P _) as [content|]; [|discriminate].
    injection Hrun as <- <-. exists content. repeat split; discriminate.
Qed.

Lemma every_response_instance :
  ∃ content,
    chatCompletionsCreate helpful 2 = Some content ∧
    {| body := MessageBody "they're in the drawer"; httpStatus := 200 |} =
    {| body := MessageBody content; httpStatus := 200 |}.
Proof.
  destruct (every_response_comes_from_the_chat helpful "s" (scopeOf openWindow)
              answeredRun.2 openWindow (found drawer [distance_0_1])
              {| body := MessageBody "they're in the drawer"; httpStatus := 200 |})
    as (content & Hc & Hr & _).
  - vm_compute. reflexivity.
  - reflexivity.
  - discriminate.
  - vm_compute. reflexivity.
  - exists content. split; [exact Hc | exact Hr].
Defined.
